(** * DebugExtraction: a shallow embedding of the type-graph engine

    The development follows [src/DWARFParser.py] (class [TypeParser]) and the
    integer encoder of [src/Debuginfo.py] (class [DebugInfo.Int]).

    Python objects are modelled the way the interpreter keeps them: an object
    is its class together with a dictionary from attribute names to values,
    objects live in a store and are named by their position in it ([is] is
    equality of positions), and every method that can raise returns a result
    that is either a value or the exception. *)

From Stdlib Require Import ZArith Lia String List Bool.
From Stdlib.Strings Require Byte.
From Stdlib Require HexadecimalString.
From stdpp Require Import base option list gmap strings.

Local Open Scope string_scope.
Local Open Scope list_scope.
Local Open Scope Z_scope.

(** ** Results of Python computations *)

(** The exceptions the modelled code raises.  [Exception_] is the plain
    [Exception(msg)] the parser raises itself; the others are raised by the
    interpreter.  [Dangling] stands for the use of a position outside the
    object store, which no Python program can produce; it keeps the functions
    total on stores that are not the result of a run. *)
Inductive exn : Type :=
| Exception_ (msg : string)
| ValueError (msg : string)
| TypeError (msg : string)
| AttributeError (attr : string)
| IndexError
| KeyError
| AssertionError
| OverflowError
| UnboundLocalError (var : string)
| Dangling.

(** A computation returns, raises, or has used up the recursion budget it was
    given.  [OutOfFuel] is an artefact of the embedding: Python has no such
    outcome, a computation that is [OutOfFuel] for every budget does not
    return. *)
Inductive res (A : Type) : Type :=
| Ret (a : A)
| Raise (e : exn)
| OutOfFuel.
Arguments Ret {A} a.
Arguments Raise {A} e.
Arguments OutOfFuel {A}.

#[global] Instance res_ret : MRet res := fun _ a => Ret a.
#[global] Instance res_bind : MBind res := fun _ _ f m =>
  match m with
  | Ret a => f a
  | Raise e => Raise e
  | OutOfFuel => OutOfFuel
  end.

Definition is_Ret {A} (r : res A) : bool :=
  match r with Ret _ => true | _ => false end.

Definition raises {A} (r : res A) : Prop :=
  match r with Raise _ => True | _ => False end.

(** ** The integer encoder of [Debuginfo.py] *)

Module DebugInfo.

(** [ConvertibleValue]: what a caller may hand to [to_bytes].  Floats and the
    text of strings are opaque here: the encoder only asks whether a float is
    integral and for the integer a float or a string denotes. *)
Inductive ConvertibleValue (F : Type) : Type :=
| CNone
| CBool (b : bool)
| CStr (s : string)
| CFloat (f : F)
| CInt (z : Z)
| CArray
| CObject.
Arguments CNone {F}.
Arguments CBool {F} b.
Arguments CStr {F} s.
Arguments CFloat {F} f.
Arguments CInt {F} z.
Arguments CArray {F}.
Arguments CObject {F}.

(** [1 << n]: a negative shift count is a [ValueError]. *)
Definition py_shl1 (n : Z) : res Z :=
  if n <? 0 then Raise (ValueError "negative shift count") else Ret (2 ^ n).

Definition byte_of_Z (z : Z) : Byte.byte :=
  default Byte.x00 (Byte.of_N (Z.to_N (z mod 256))).

Definition Z_of_byte (b : Byte.byte) : Z := Z.of_N (Byte.to_N b).

(** [int.to_bytes(length, byteorder='little', signed=...)]. *)
Definition int_to_bytes (value length : Z) (signed : bool) : res (list Byte.byte) :=
  if length <? 0 then Raise (ValueError "length argument must be non-negative")
  else
    let bits := 8 * length in
    let fits :=
      if signed
      then if bits =? 0 then value =? 0
           else (- 2 ^ (bits - 1) <=? value) && (value <? 2 ^ (bits - 1))
      else (0 <=? value) && (value <? 2 ^ bits) in
    if fits
    then Ret (map (λ i : nat, byte_of_Z (Z.shiftr value (8 * Z.of_nat i)))
                  (seq 0 (Z.to_nat length)))
    else Raise OverflowError.

(** The value a little-endian byte string denotes as an unsigned number. *)
Fixpoint le_value (bs : list Byte.byte) : Z :=
  match bs with
  | [] => 0
  | b :: bs' => Z_of_byte b + 256 * le_value bs'
  end.

(** The closed interval of the values a [w]-byte signed entry encodes. *)
Definition in_range (w z : Z) : Prop :=
  - 2 ^ (8 * w - 1) <= z <= 2 ^ (8 * w - 1) - 1.

Definition is_ValueError {A} (r : res A) : Prop :=
  match r with Raise (ValueError _) => True | _ => False end.

Section Int.
(** Python's [float] and the two conversions [int(float)] and
    [int(str, base=0)] are taken as given. *)
Context {F : Type}.
Variable float_is_integral : F → bool.          (* [value % 1 == 0] *)
Variable int_of_float : F → Z.                  (* [int(value)] *)
Variable int_of_str : string → option Z.        (* [int(value, base=0)] *)

(** [Int.lower_limit] and [Int.upper_limit]. *)
Definition lower_limit (datawidth : option Z) : res Z :=
  match datawidth with
  | None => Raise AssertionError
  | Some w => p ← py_shl1 (w * 8 - 1); Ret (- p)
  end.

Definition upper_limit (datawidth : option Z) : res Z :=
  match datawidth with
  | None => Raise AssertionError
  | Some w => p ← py_shl1 (w * 8 - 1); Ret (p - 1)
  end.

(** [Int.to_bytes]. *)
Definition to_bytes (datawidth : option Z) (value : ConvertibleValue F)
  : res (list Byte.byte) :=
  match datawidth with
  | None => Raise AssertionError
  | Some w =>
      value' ← match value with
               | CNone => Ret (CInt 0)
               | CFloat f =>
                   if float_is_integral f then Ret (CInt (int_of_float f))
                   else Raise (ValueError "value")
               | CBool b => Ret (CInt (if b then 1 else 0))
               | CStr s =>
                   match int_of_str s with
                   | Some z => Ret (CInt z)
                   | None => Raise (ValueError "invalid literal for int()")
                   end
               | v => Ret v
               end;
      match value' with
      | CInt z =>
          lo ← lower_limit datawidth;
          if z <? lo then Raise (ValueError "value")
          else
            hi ← upper_limit datawidth;
            if hi <? z then Raise (ValueError "value")
            else int_to_bytes z w true
      | _ => Raise (ValueError "value")
      end
  end.
End Int.

End DebugInfo.
(** ** The classes of [TypeParser] *)

(** The classes a TAG object can have: the subclasses of [AbstractTAG] that
    declare a [DW_TAG] string ([TypeParser._parsable_classes]). *)
Inductive cls : Type :=
| BaseType | UnspecifiedType | TypeDefType
| StructureType | ClassType | UnionType | Member
| Enumerator | EnumerationType
| AtomicType | ConstType | ImmutableType | PackedType | PointerType
| ReferenceType | RestrictType | RValueReferenceType | SharedType | VolatileType
| Subrange | ArrayType | FormalParameter | SubroutineType
| Variable_ | Namespace.

#[global] Instance cls_eq_dec : EqDecision cls.
Proof. solve_decision. Defined.

(** Every class of the hierarchy: the concrete ones, the capability mixins,
    the abstract classes, and [ABC] and [object]. *)
Inductive pyclass : Type :=
| C (c : cls)
| Accessible | Aligned | Artificial | Declarable | Named | Sized | Typed
| AbstractTAG | AbstractType | AbstractModifierType
| StructureUnionClassAbstractType
| ABC | object.

#[global] Instance pyclass_eq_dec : EqDecision pyclass.
Proof. solve_decision. Defined.

(** [cls.__bases__], read off the [class] statements. *)
Definition bases (c : pyclass) : list pyclass :=
  match c with
  | Accessible | Aligned | Artificial | Declarable | Named | Sized | Typed => [object]
  | ABC => [object]
  | object => []
  | AbstractTAG => [ABC; Named]
  | AbstractType => [AbstractTAG]
  | AbstractModifierType => [AbstractType; Typed]
  | StructureUnionClassAbstractType =>
      [AbstractType; Accessible; Aligned; Declarable; Sized]
  | C BaseType => [AbstractType; Aligned; Sized]
  | C UnspecifiedType => [AbstractType]
  | C TypeDefType => [AbstractType; Accessible; Aligned; Declarable; Typed; Named]
  | C Member =>
      [AbstractTAG; Accessible; Aligned; Artificial; Declarable; Sized; Typed]
  | C StructureType | C ClassType | C UnionType => [StructureUnionClassAbstractType]
  | C Enumerator => [AbstractTAG; Named]
  | C EnumerationType =>
      [AbstractType; Accessible; Aligned; Declarable; Sized; Typed]
  | C AtomicType | C ConstType | C PackedType | C RestrictType | C SharedType =>
      [AbstractModifierType; Aligned]
  | C ImmutableType | C VolatileType => [AbstractModifierType]
  | C PointerType | C ReferenceType | C RValueReferenceType =>
      [AbstractModifierType; Aligned; Sized]
  | C Subrange => [AbstractTAG; Accessible; Aligned; Declarable; Sized; Typed]
  | C ArrayType => [AbstractType; Accessible; Aligned; Declarable; Sized; Typed]
  | C FormalParameter => [AbstractTAG; Artificial; Typed]
  | C SubroutineType => [AbstractType; Accessible; Aligned; Declarable; Typed]
  | C Variable_ => [AbstractTAG; Accessible; Aligned; Artificial; Declarable; Typed]
  | C Namespace => [AbstractTAG]
  end.

(** The class attribute [TYPED_ATTR_NAMES], as the attribute lookup on the
    class finds it: the three aggregate classes and the modifier classes do
    not assign it and inherit it from their first base that does. *)
Definition TYPED_ATTR_NAMES (c : pyclass) : list string :=
  match c with
  | Typed => ["type"]
  | AbstractTAG => ["_typedefs"; "_referrers"; "namespace"]
  | StructureUnionClassAbstractType
  | C StructureType | C ClassType | C UnionType =>
      ["containing_structure"; "specification"; "members"]
  | C Member | C Enumerator | C Subrange => ["containing_structure"]
  | C EnumerationType => ["enumerators"]
  | C ArrayType => ["specification"; "dimensions"]
  | C SubroutineType => ["parameters"]
  | C Variable_ => ["specification"]
  | C Namespace => ["namespace_members"]
  | _ => []
  end.

(** [DW_TAG] of the parsable classes. *)
Definition DW_TAG (c : cls) : string :=
  match c with
  | BaseType => "DW_TAG_base_type"
  | UnspecifiedType => "DW_TAG_unspecified_type"
  | TypeDefType => "DW_TAG_typedef"
  | StructureType => "DW_TAG_structure_type"
  | ClassType => "DW_TAG_class_type"
  | UnionType => "DW_TAG_union_type"
  | Member => "DW_TAG_member"
  | Enumerator => "DW_TAG_enumerator"
  | EnumerationType => "DW_TAG_enumeration_type"
  | AtomicType => "DW_TAG_atomic_type"
  | ConstType => "DW_TAG_const_type"
  | ImmutableType => "DW_TAG_immutable_type"
  | PackedType => "DW_TAG_packed_type"
  | PointerType => "DW_TAG_pointer_type"
  | ReferenceType => "DW_TAG_reference_type"
  | RestrictType => "DW_TAG_restrict_type"
  | RValueReferenceType => "DW_TAG_rvalue_reference_type"
  | SharedType => "DW_TAG_shared_type"
  | VolatileType => "DW_TAG_volatile_type"
  | Subrange => "DW_TAG_subrange_type"
  | ArrayType => "DW_TAG_array_type"
  | FormalParameter => "DW_TAG_formal_parameter"
  | SubroutineType => "DW_TAG_subroutine_type"
  | Variable_ => "DW_TAG_variable"
  | Namespace => "DW_TAG_namespace"
  end.

Definition all_cls : list cls :=
  [BaseType; UnspecifiedType; TypeDefType; StructureType; ClassType; UnionType;
   Member; Enumerator; EnumerationType; AtomicType; ConstType; ImmutableType;
   PackedType; PointerType; ReferenceType; RestrictType; RValueReferenceType;
   SharedType; VolatileType; Subrange; ArrayType; FormalParameter;
   SubroutineType; Variable_; Namespace].

(** [_parsable_TAG_to_class_dict]. *)
Definition parsable_class (tag : string) : option cls :=
  find (λ c, String.eqb (DW_TAG c) tag) all_cls.

(** [TypeParser._get_baseclasses_of_class]: the direct bases, then for each
    base its own base classes with [ABC] and [object] filtered out.  The
    recursion follows the class hierarchy, which is six levels deep. *)
Fixpoint get_baseclasses (depth : nat) (of_class : pyclass) : list pyclass :=
  match depth with
  | O => []
  | S d =>
      let bs := bases of_class in
      bs ++ flat_map
              (λ base, filter (λ b, b ∉ [ABC; object]) (get_baseclasses d base))
              bs
  end.

Definition _get_baseclasses_of_class (of_class : pyclass) : list pyclass :=
  get_baseclasses 6 of_class.

(** [isinstance(obj, base)] for an object of class [c]. *)
Definition isinstance (c : cls) (base : pyclass) : bool :=
  bool_decide (base = C c) || bool_decide (base ∈ _get_baseclasses_of_class (C c)).

(** The names [_remove_duplicates] and [_validate_references] scan on an
    object of class [class_]:
    [sum([base.TYPED_ATTR_NAMES for base in base_classes], [])]. *)
Definition typed_attr_names (class_ : cls) : list string :=
  flat_map TYPED_ATTR_NAMES (_get_baseclasses_of_class (C class_)).

(** ** Values and objects *)

(** Objects are named by their position in the store. *)
Definition id : Type := nat.

(** The values an attribute of a TAG holds. *)
Inductive pyv : Type :=
| PNone
| PBool (b : bool)
| PInt (z : Z)
| PStr (s : string)
| PInts (l : list Z)     (* a block: a list of integers *)
| PRef (o : id)          (* a TAG *)
| PTags (l : list id).   (* a list of TAGs *)

#[global] Instance pyv_eq_dec : EqDecision pyv.
Proof. solve_decision. Defined.

(** A record of the debug information is named by its compile unit and its
    offset ([die.cu], [die.offset]). *)
Definition die_key : Type := (nat * Z)%type.

(** [TypeParser.Declaration]: the declaration site. *)
Record Declaration : Type := mkDeclaration {
  decl_file : option Z;
  decl_line : option Z;
  decl_column : option Z;
  decl_file_name : option string
}.

Definition empty_Declaration : Declaration := mkDeclaration None None None None.

(** A TAG object: its class, the record it was made from ([self.die], absent
    until [parse] assigns it), [self.decl], and the instance dictionary. *)
Record obj : Type := mkObj {
  ocls : cls;
  odie : option die_key;
  odecl : Declaration;
  oattrs : gmap string pyv
}.

Definition heap : Type := list obj.

Definition class_of (h : heap) (o : id) : res cls :=
  match h !! o with
  | Some ob => Ret (ocls ob)
  | None => Raise Dangling
  end.

(** [getattr(o, a)] / [o.a]. *)
Definition getattr (h : heap) (o : id) (a : string) : res pyv :=
  match h !! o with
  | Some ob =>
      match oattrs ob !! a with
      | Some v => Ret v
      | None => Raise (AttributeError a)
      end
  | None => Raise Dangling
  end.

(** [setattr(o, a, v)] / [o.a = v]. *)
Definition set_obj_attr (a : string) (v : pyv) (ob : obj) : obj :=
  mkObj (ocls ob) (odie ob) (odecl ob) (<[a := v]> (oattrs ob)).

Definition setattr (h : heap) (o : id) (a : string) (v : pyv) : heap :=
  match h !! o with
  | Some ob => <[o := set_obj_attr a v ob]> h
  | None => h
  end.

(** Truth value of an attribute in a condition ([if self.export_symbols]). *)
Definition truthy (v : pyv) : bool :=
  match v with
  | PNone => false
  | PBool b => b
  | PInt z => negb (z =? 0)
  | PStr s => negb (String.eqb s "")
  | PInts l => negb (bool_decide (l = []))
  | PRef _ => true
  | PTags l => negb (bool_decide (l = []))
  end.

(** [isinstance(v, int)]: a [bool] is an [int]. *)
Definition as_int (v : pyv) : option Z :=
  match v with
  | PInt z => Some z
  | PBool b => Some (Z.b2z b)
  | _ => None
  end.
(** ** Python's [hash] on the built-in values

    [hash(None)], [hash] of an [int], of a [str] and of a tuple (given the
    hashes of its elements) are the interpreter's; the hash of a string even
    changes from one process to the next.  They are taken as given. *)
Class PyHash : Type := {
  hash_none : Z;
  hash_int : Z → Z;
  hash_str : string → Z;
  hash_tuple : list Z → Z
}.

(** [x and y] on results: [y] is not looked at when [x] is false. *)
Definition and_then (x y : res bool) : res bool :=
  b ← x; if b : bool then y else Ret false.
Declare Scope res_scope.
Delimit Scope res_scope with res.
Infix "&&&" := and_then (at level 40, left associativity) : res_scope.
Local Open Scope res_scope.

(** [all([x1, ..., xn])]: the list is built first, so every element is
    evaluated, the first one that raises decides. *)
Fixpoint all_of (l : list (res bool)) : res bool :=
  match l with
  | [] => Ret true
  | x :: l' => b ← x; r ← all_of l'; Ret (b && r)
  end.

Fixpoint sequence {A} (l : list (res A)) : res (list A) :=
  match l with
  | [] => Ret []
  | x :: l' => a ← x; r ← sequence l'; Ret (a :: r)
  end.

(** A list-valued attribute, where the code takes its length or iterates. *)
Definition as_tags (v : pyv) : res (list id) :=
  match v with
  | PTags l => Ret l
  | PInts [] => Ret []
  | _ => Raise (TypeError "not a list of TAGs")
  end.

Section EqHash.
Context `{PyHash}.
Variable h : heap.

(** *** [__eq__] *)
Section Eq.
(** [a == b] for two TAGs, evaluated with the budget that is left. *)
Variable tag_eq_rec : id → id → res bool.

(** [l == l'] for two lists of TAGs: lengths first, then element by
    element, an element compared with itself counting as equal without a
    call of [__eq__]. *)
Fixpoint list_eq_from (l l' : list id) : res bool :=
  match l, l' with
  | a :: t, b :: t' =>
      if decide (a = b) then list_eq_from t t'
      else r ← tag_eq_rec a b;
           if r : bool then list_eq_from t t' else Ret false
  | _, _ => Ret true
  end.

(** [x == y] for two attribute values. *)
Definition py_eq (x y : pyv) : res bool :=
  match x, y with
  | PNone, PNone => Ret true
  | PStr s, PStr t => Ret (bool_decide (s = t))
  | PInts l, PInts l' => Ret (bool_decide (l = l'))
  | PRef a, PRef b => tag_eq_rec a b
  | PTags l, PTags l' =>
      if bool_decide (length l = length l') then list_eq_from l l'
      else Ret false
  | PInts l, PTags l' | PTags l', PInts l =>
      Ret (bool_decide (l = []) && bool_decide (l' = []))
  | _, _ =>
      match as_int x, as_int y with
      | Some a, Some b => Ret (a =? b)
      | _, _ => Ret false
      end
  end.

(** [self.f == __value.f]. *)
Definition attr_eq (f : string) (a b : id) : res bool :=
  x ← getattr h a f; y ← getattr h b f; py_eq x y.

(** The capability mixins. *)
Definition Accessible_eq := attr_eq "accessibility".
Definition Aligned_eq := attr_eq "alignment".
Definition Artificial_eq := attr_eq "artificial".
Definition Declarable_eq := attr_eq "declaration".
Definition Named_eq := attr_eq "name".
Definition Sized_eq (a b : id) : res bool :=
  attr_eq "size" a b &&& attr_eq "bit_size" a b.
Definition Typed_eq := attr_eq "type".

(** [AbstractTAG.__eq__]. *)
Definition AbstractTAG_eq (a b : id) : res bool :=
  pa ← getattr h a "parsed";
  both ← (if truthy pa then pb ← getattr h b "parsed"; Ret (truthy pb)
          else Ret false);
  if both : bool then Named_eq a b
  else Raise (Exception_ "Cannot compare unparsed Abstract TAGs").

Definition AbstractType_eq (a b : id) : res bool :=
  all_of [AbstractTAG_eq a b].

Definition BaseType_eq (a b : id) : res bool :=
  all_of [AbstractType_eq a b; Aligned_eq a b; Sized_eq a b]
  &&& attr_eq "encoding" a b
  &&& attr_eq "endianity" a b
  &&& attr_eq "bit_offset" a b.

Definition UnspecifiedType_eq (a b : id) : res bool :=
  all_of [AbstractType_eq a b].

Definition TypeDefType_eq (a b : id) : res bool :=
  all_of [AbstractType_eq a b; Accessible_eq a b; Aligned_eq a b;
          Declarable_eq a b; Typed_eq a b; Named_eq a b].

(** [Member.is_similar]. *)
Definition is_similar (a b : id) : res bool :=
  attr_eq "name" a b
  &&& attr_eq "declaration" a b
  &&& attr_eq "size" a b
  &&& attr_eq "bit_size" a b
  &&& (ta ← getattr h a "type";
       match ta with
       | PRef ta =>
           na ← getattr h ta "name";
           tb ← getattr h b "type";
           match tb with
           | PRef tb => nb ← getattr h tb "name"; py_eq na nb
           | _ => Raise (AttributeError "name")
           end
       | _ => Raise (AttributeError "name")
       end)
  &&& attr_eq "accessibility" a b
  &&& attr_eq "mutable" a b
  &&& attr_eq "data_member_location" a b
  &&& attr_eq "data_bit_offset" a b.

(** [StructureUnionClassAbstractType._compare_members]. *)
Fixpoint compare_pairs (f : id → id → res bool) (l l' : list id)
  : res bool :=
  match l, l' with
  | a :: t, b :: t' =>
      r ← f a b; if r : bool then compare_pairs f t t' else Ret false
  | _, _ => Ret true
  end.

Definition member_is_similar (a b : id) : res bool :=
  ca ← class_of h a;
  if decide (ca = Member) then is_similar a b
  else Raise (AttributeError "is_similar").

Definition _compare_members (a b : id) : res bool :=
  ma ← getattr h a "members"; la ← as_tags ma;
  mb ← getattr h b "members"; lb ← as_tags mb;
  if bool_decide (length la = length lb)
  then compare_pairs member_is_similar la lb
  else Ret false.

(** [(not compare_containing_structure) or
     self.containing_structure == __value.containing_structure]. *)
Definition containing_structure_eq (compare_containing_structure : bool)
  (a b : id) : res bool :=
  if compare_containing_structure then attr_eq "containing_structure" a b
  else Ret true.

Definition StructureUnionClassAbstractType_eq
  (compare_containing_structure : bool) (a b : id) : res bool :=
  all_of [AbstractType_eq a b; Accessible_eq a b; Aligned_eq a b;
          Declarable_eq a b; Sized_eq a b]
  &&& containing_structure_eq compare_containing_structure a b
  &&& _compare_members a b
  &&& attr_eq "export_symbols" a b
  &&& attr_eq "specification" a b
  &&& attr_eq "calling_convention" a b.

(** [StructureType], [ClassType] and [UnionType] share this body. *)
Definition StructureType_eq (a b : id) : res bool :=
  all_of [StructureUnionClassAbstractType_eq true a b].

Definition Member_eq (compare_containing_structure : bool) (a b : id)
  : res bool :=
  all_of [AbstractTAG_eq a b; Accessible_eq a b; Aligned_eq a b;
          Artificial_eq a b; Declarable_eq a b; Sized_eq a b; Typed_eq a b]
  &&& containing_structure_eq compare_containing_structure a b
  &&& attr_eq "accessibility" a b
  &&& attr_eq "mutable" a b
  &&& attr_eq "data_member_location" a b
  &&& attr_eq "data_bit_offset" a b.

Definition Enumerator_eq (a b : id) : res bool :=
  all_of [AbstractTAG_eq a b; Named_eq a b] &&& attr_eq "value" a b.

Definition EnumerationType_eq (a b : id) : res bool :=
  all_of [AbstractType_eq a b; Accessible_eq a b; Aligned_eq a b;
          Declarable_eq a b; Sized_eq a b; Typed_eq a b]
  &&& attr_eq "enum_class" a b
  &&& attr_eq "byte_stride" a b
  &&& attr_eq "bit_stride" a b
  &&& attr_eq "enumerators" a b.

Definition AbstractModifierType_eq (a b : id) : res bool :=
  all_of [AbstractType_eq a b; Typed_eq a b].

(** [AtomicType], [ConstType], [PackedType], [RestrictType]. *)
Definition AlignedModifier_eq (a b : id) : res bool :=
  all_of [AbstractModifierType_eq a b; Aligned_eq a b].

(** [ImmutableType], [VolatileType]. *)
Definition PlainModifier_eq (a b : id) : res bool :=
  all_of [AbstractModifierType_eq a b].

(** [PointerType], [ReferenceType], [RValueReferenceType]. *)
Definition PointerType_eq (a b : id) : res bool :=
  all_of [AbstractModifierType_eq a b; Aligned_eq a b; Sized_eq a b]
  &&& attr_eq "address_class" a b.

Definition SharedType_eq (a b : id) : res bool :=
  all_of [AbstractModifierType_eq a b; Aligned_eq a b]
  &&& attr_eq "blocksize" a b.

(** The property [Subrange.count]. *)
Definition count (a : id) : res pyv :=
  lb ← getattr h a "lower_bound";
  match as_int lb with
  | None => Ret PNone
  | Some l =>
      ub ← getattr h a "upper_bound";
      match as_int ub with
      | None => Ret PNone
      | Some u => Ret (PInt (u - l + 1))
      end
  end.

Definition Subrange_eq (compare_containing_structure : bool) (a b : id)
  : res bool :=
  all_of [AbstractTAG_eq a b; Accessible_eq a b; Aligned_eq a b;
          Declarable_eq a b; Sized_eq a b; Typed_eq a b]
  &&& containing_structure_eq compare_containing_structure a b
  &&& attr_eq "lower_bound" a b
  &&& attr_eq "upper_bound" a b
  &&& (x ← count a; y ← count b; py_eq x y)
  &&& attr_eq "byte_stride" a b
  &&& attr_eq "bit_stride" a b.

(** [self_dim.__eq__(value_dim, compare_containing_structure=False)] and
    the [not] applied to its result: only [Subrange.__eq__] and
    [Member.__eq__] take the keyword, and [NotImplemented] is true. *)
Definition dimension_eq (d d' : id) : res bool :=
  cd ← class_of h d; cd' ← class_of h d';
  match cd with
  | Subrange =>
      if decide (cd' = Subrange) then Subrange_eq false d d' else Ret true
  | Member =>
      if decide (cd' = Member) then Member_eq false d d' else Ret true
  | _ => Raise (TypeError "unexpected keyword argument")
  end.

(** [ArrayType._compare_dimensions]. *)
Definition _compare_dimensions (a b : id) : res bool :=
  da ← getattr h a "dimensions"; la ← as_tags da;
  db ← getattr h b "dimensions"; lb ← as_tags db;
  if bool_decide (length la = length lb)
  then compare_pairs dimension_eq la lb
  else Ret false.

Definition ArrayType_eq (a b : id) : res bool :=
  all_of [AbstractType_eq a b; Accessible_eq a b; Aligned_eq a b;
          Declarable_eq a b; Sized_eq a b; Typed_eq a b]
  &&& _compare_dimensions a b
  &&& attr_eq "ordering" a b
  &&& attr_eq "byte_stride" a b
  &&& attr_eq "bit_stride" a b
  &&& attr_eq "accessibility" a b
  &&& attr_eq "specification" a b
  &&& attr_eq "visibility" a b.

Definition FormalParameter_eq (a b : id) : res bool :=
  all_of [AbstractTAG_eq a b; Artificial_eq a b; Typed_eq a b]
  &&& attr_eq "artificial" a b
  &&& attr_eq "const_value" a b
  &&& attr_eq "default_value" a b
  &&& attr_eq "endianity" a b
  &&& attr_eq "is_optional" a b
  &&& attr_eq "variable_parameter" a b.

Definition SubroutineType_eq (a b : id) : res bool :=
  all_of [AbstractType_eq a b; Accessible_eq a b; Aligned_eq a b;
          Declarable_eq a b; Typed_eq a b]
  &&& attr_eq "prototyped" a b
  &&& attr_eq "parameters" a b
  &&& attr_eq "unspecified_parameters" a b.

Definition Variable_eq (a b : id) : res bool :=
  all_of [AbstractTAG_eq a b; Accessible_eq a b; Aligned_eq a b;
          Artificial_eq a b; Declarable_eq a b; Typed_eq a b]
  &&& attr_eq "external" a b
  &&& attr_eq "accessibility" a b
  &&& attr_eq "artificial" a b
  &&& attr_eq "const_value" a b
  &&& attr_eq "endianity" a b
  &&& attr_eq "linkage_name" a b
  &&& attr_eq "visibility" a b
  &&& attr_eq "specification" a b
  &&& attr_eq "location" a b.

Definition Namespace_eq (a b : id) : res bool :=
  all_of [AbstractTAG_eq a b] &&& attr_eq "export_symbols" a b.

(** [c.__eq__], once the [isinstance] test at its head has passed. *)
Definition eq_method (c : cls) : id → id → res bool :=
  match c with
  | BaseType => BaseType_eq
  | UnspecifiedType => UnspecifiedType_eq
  | TypeDefType => TypeDefType_eq
  | StructureType | ClassType | UnionType => StructureType_eq
  | Member => Member_eq true
  | Enumerator => Enumerator_eq
  | EnumerationType => EnumerationType_eq
  | AtomicType | ConstType | PackedType | RestrictType => AlignedModifier_eq
  | ImmutableType | VolatileType => PlainModifier_eq
  | PointerType | ReferenceType | RValueReferenceType => PointerType_eq
  | SharedType => SharedType_eq
  | Subrange => Subrange_eq true
  | ArrayType => ArrayType_eq
  | FormalParameter => FormalParameter_eq
  | SubroutineType => SubroutineType_eq
  | Variable_ => Variable_eq
  | Namespace => Namespace_eq
  end.

(** [a == b] for two TAGs: the [__eq__] of the class of [a], which
    answers [NotImplemented] for an object of another class; the
    reflected call answers the same and the comparison falls back to
    identity, which two objects of different classes do not have. *)
Definition tag_eq_body (a b : id) : res bool :=
  ca ← class_of h a; cb ← class_of h b;
  if decide (ca = cb) then eq_method ca a b else Ret false.
End Eq.

(** *** [__hash__] *)
Section Hash.
(** [hash(o)] for a TAG, evaluated with the budget that is left. *)
Variable tag_hash_rec : id → res Z.

(** [hash(v)] for an attribute value. *)
Definition hash_val (v : pyv) : res Z :=
  match v with
  | PNone => Ret hash_none
  | PBool b => Ret (hash_int (Z.b2z b))
  | PInt z => Ret (hash_int z)
  | PStr s => Ret (hash_str s)
  | PRef o => tag_hash_rec o
  | PInts _ | PTags _ => Raise (TypeError "unhashable type: 'list'")
  end.

(** An element of a tuple that is about to be hashed: an attribute value,
    or a tuple whose hash is known already. *)
Inductive hitem : Type :=
| HVal (v : pyv)
| HTuple (hash : Z).

Definition hash_item (i : hitem) : res Z :=
  match i with
  | HVal v => hash_val v
  | HTuple z => Ret z
  end.

(** [hash((e1, ..., en))]: the elements are evaluated, then hashed. *)
Definition hash_of_tuple (items : list (res hitem)) : res Z :=
  vs ← sequence items;
  hs ← sequence (map hash_item vs);
  Ret (hash_tuple hs).

Definition attr (o : id) (f : string) : res hitem :=
  v ← getattr h o f; Ret (HVal v).

(** [tuple([c.__hash__(self) for c in bases])] as a tuple element. *)
Definition bases_tuple (hs : list (res Z)) : res hitem :=
  l ← sequence hs; Ret (HTuple (hash_tuple (map hash_int l))).

(** [hash(tuple(l))] for a list-valued attribute. *)
Definition hash_tuple_of_list (v : pyv) : res Z :=
  match v with
  | PInts l => Ret (hash_tuple (map hash_int l))
  | PTags l => hs ← sequence (map tag_hash_rec l); Ret (hash_tuple hs)
  | _ => Raise (TypeError "not a list")
  end.

Definition is_list (v : pyv) : bool :=
  match v with PInts _ | PTags _ => true | _ => false end.

(** [x_hash = self.x; if isinstance(self.x, list): x_hash =
    hash(tuple(self.x))]. *)
Definition list_or_value_hash (o : id) (f : string) : res hitem :=
  v ← getattr h o f;
  if is_list v then z ← hash_tuple_of_list v; Ret (HVal (PInt z))
  else Ret (HVal v).

Definition Accessible_hash (o : id) : res Z :=
  v ← getattr h o "accessibility"; hash_val v.
Definition Aligned_hash (o : id) : res Z :=
  v ← getattr h o "alignment"; hash_val v.
Definition Artificial_hash (o : id) : res Z :=
  v ← getattr h o "artificial"; hash_val v.
Definition Declarable_hash (o : id) : res Z :=
  v ← getattr h o "declaration"; hash_val v.
Definition Named_hash (o : id) : res Z :=
  v ← getattr h o "name"; hash_val v.
Definition Sized_hash (o : id) : res Z :=
  hash_of_tuple [attr o "size"; attr o "bit_size"].
(** [Typed.__hash__] is the constant [0]. *)
Definition Typed_hash (o : id) : res Z := Ret 0.

Definition AbstractTAG_hash (o : id) : res Z := Named_hash o.

Definition AbstractType_hash (o : id) : res Z :=
  z ← AbstractTAG_hash o; Ret (hash_int z).

Definition BaseType_hash (o : id) : res Z :=
  hash_of_tuple
    [bases_tuple [AbstractType_hash o; Aligned_hash o; Sized_hash o];
     attr o "encoding"; attr o "endianity"; attr o "bit_offset"].

(** [hash((tuple([...])))]: the outer parentheses make no tuple. *)
Definition hash_of_bases (hs : list (res Z)) : res Z :=
  l ← sequence hs; Ret (hash_tuple (map hash_int l)).

Definition UnspecifiedType_hash (o : id) : res Z :=
  hash_of_bases [AbstractType_hash o].

Definition TypeDefType_hash (o : id) : res Z :=
  hash_of_bases [AbstractType_hash o; Accessible_hash o; Aligned_hash o;
                 Declarable_hash o; Typed_hash o; Named_hash o].

Definition StructureUnionClassAbstractType_hash (o : id) : res Z :=
  hash_of_tuple
    [bases_tuple [AbstractType_hash o; Accessible_hash o; Aligned_hash o;
                  Declarable_hash o; Sized_hash o];
     attr o "export_symbols"; attr o "calling_convention"].

Definition Member_hash (o : id) : res Z :=
  dml ← list_or_value_hash o "data_member_location";
  hash_of_tuple
    [bases_tuple [AbstractTAG_hash o; Accessible_hash o; Aligned_hash o;
                  Artificial_hash o; Declarable_hash o; Sized_hash o;
                  Typed_hash o];
     attr o "accessibility"; attr o "mutable"; attr o "data_bit_offset";
     Ret dml].

Definition Enumerator_hash (o : id) : res Z :=
  hash_of_tuple
    [bases_tuple [AbstractTAG_hash o; Named_hash o]; attr o "value"].

Definition EnumerationType_hash (o : id) : res Z :=
  hash_of_tuple
    [bases_tuple [AbstractType_hash o; Accessible_hash o; Aligned_hash o;
                  Declarable_hash o; Sized_hash o; Typed_hash o];
     attr o "enum_class"; attr o "byte_stride"; attr o "bit_size"].

Definition AbstractModifierType_hash (o : id) : res Z :=
  hash_of_bases [AbstractType_hash o; Typed_hash o].

Definition AlignedModifier_hash (o : id) : res Z :=
  hash_of_bases [AbstractModifierType_hash o; Aligned_hash o].

Definition PlainModifier_hash (o : id) : res Z :=
  hash_of_bases [AbstractModifierType_hash o].

Definition PointerType_hash (o : id) : res Z :=
  hash_of_tuple
    [bases_tuple [AbstractModifierType_hash o; Aligned_hash o; Sized_hash o];
     attr o "address_class"].

Definition SharedType_hash (o : id) : res Z :=
  hash_of_tuple
    [bases_tuple [AbstractModifierType_hash o; Aligned_hash o];
     attr o "blocksize"].

Definition Subrange_hash (o : id) : res Z :=
  lb ← list_or_value_hash o "lower_bound";
  ub ← list_or_value_hash o "upper_bound";
  hash_of_tuple
    [bases_tuple [AbstractTAG_hash o; Accessible_hash o; Aligned_hash o;
                  Declarable_hash o; Sized_hash o; Typed_hash o];
     Ret lb; Ret ub; (c ← count o; Ret (HVal c));
     attr o "byte_stride"; attr o "bit_stride"].

Definition ArrayType_hash (o : id) : res Z :=
  hash_of_tuple
    [bases_tuple [AbstractType_hash o; Accessible_hash o; Aligned_hash o;
                  Declarable_hash o; Sized_hash o; Typed_hash o];
     attr o "ordering"; attr o "byte_stride"; attr o "bit_stride";
     attr o "accessibility"; attr o "visibility"].

Definition FormalParameter_hash (o : id) : res Z :=
  hash_of_tuple
    [bases_tuple [AbstractTAG_hash o; Artificial_hash o; Typed_hash o];
     attr o "artificial"; attr o "const_value"; attr o "default_value";
     attr o "endianity"; attr o "is_optional"; attr o "variable_parameter"].

Definition SubroutineType_hash (o : id) : res Z :=
  hash_of_tuple
    [bases_tuple [AbstractType_hash o; Accessible_hash o; Aligned_hash o;
                  Declarable_hash o; Typed_hash o];
     attr o "prototyped"; attr o "unspecified_parameters"].

(** [self.const_value if not isinstance(self.const_value, list)
     else tuple(self.const_value)]. *)
Definition value_or_tuple (o : id) (f : string) : res hitem :=
  v ← getattr h o f;
  if is_list v then z ← hash_tuple_of_list v; Ret (HTuple z)
  else Ret (HVal v).

Definition Variable_hash (o : id) : res Z :=
  hash_of_tuple
    [bases_tuple [AbstractTAG_hash o; Accessible_hash o; Aligned_hash o;
                  Artificial_hash o; Declarable_hash o; Typed_hash o];
     attr o "external"; attr o "accessibility"; attr o "artificial";
     attr o "endianity"; attr o "linkage_name"; attr o "visibility";
     attr o "location"; value_or_tuple o "const_value"].

Definition Namespace_hash (o : id) : res Z :=
  hash_of_tuple [bases_tuple [AbstractTAG_hash o]; attr o "export_symbols"].

Definition hash_method (c : cls) : id → res Z :=
  match c with
  | BaseType => BaseType_hash
  | UnspecifiedType => UnspecifiedType_hash
  | TypeDefType => TypeDefType_hash
  | StructureType | ClassType | UnionType =>
      StructureUnionClassAbstractType_hash
  | Member => Member_hash
  | Enumerator => Enumerator_hash
  | EnumerationType => EnumerationType_hash
  | AtomicType | ConstType | PackedType | RestrictType => AlignedModifier_hash
  | ImmutableType | VolatileType => PlainModifier_hash
  | PointerType | ReferenceType | RValueReferenceType => PointerType_hash
  | SharedType => SharedType_hash
  | Subrange => Subrange_hash
  | ArrayType => ArrayType_hash
  | FormalParameter => FormalParameter_hash
  | SubroutineType => SubroutineType_hash
  | Variable_ => Variable_hash
  | Namespace => Namespace_hash
  end.

Definition tag_hash_body (o : id) : res Z :=
  c ← class_of h o; hash_method c o.
End Hash.
End EqHash.

(** [a == b] and [hash(o)] for TAGs.  Each call of [__eq__] (of [__hash__])
    on a TAG takes one unit of the budget. *)
Fixpoint tag_eq (fuel : nat) (h : heap) (a b : id) : res bool :=
  match fuel with
  | O => OutOfFuel
  | S n => tag_eq_body h (tag_eq n h) a b
  end.

Fixpoint tag_hash `{PyHash} (fuel : nat) (h : heap) (o : id) : res Z :=
  match fuel with
  | O => OutOfFuel
  | S n => tag_hash_body h (tag_hash n h) o
  end.

(** The attributes through which a TAG points to other TAGs and that no
    [__hash__] reads. *)
Definition unhashed_attrs : list string :=
  ["type"; "containing_structure"; "specification"; "members";
   "exported_symbols"; "enumerators"; "dimensions"; "parameters";
   "_referrers"; "_typedefs"; "namespace"; "namespace_members"].

Definition is_tag_value (v : pyv) : bool :=
  match v with PRef _ | PTags _ => true | _ => false end.

(** The object holds TAGs in attributes of [names] only. *)
Definition tags_only_in (names : list string) (ob : obj) : Prop :=
  ∀ f v, oattrs ob !! f = Some v → is_tag_value v = true → f ∈ names.

Definition tags_only_inb (names : list string) (ob : obj) : bool :=
  forallb (λ fv, negb (is_tag_value fv.2) || bool_decide (fv.1 ∈ names))
    (map_to_list (oattrs ob)).

(** *** The TAGs an equality test goes on to compare *)

(** The TAGs an attribute value holds. *)
Definition tags_of (v : pyv) : list id :=
  match v with
  | PRef o => [o]
  | PTags l => l
  | _ => []
  end.

Definition attr_tags (h : heap) (o : id) (f : string) : list id :=
  match getattr h o f with
  | Ret v => tags_of v
  | _ => []
  end.

(** The attributes the body of [c.__eq__] itself compares with [==]. *)
Definition eq_own_attrs (c : pyclass) : list string :=
  match c with
  | Named => ["name"]
  | Accessible => ["accessibility"]
  | Aligned => ["alignment"]
  | Artificial => ["artificial"]
  | Declarable => ["declaration"]
  | Sized => ["size"; "bit_size"]
  | Typed => ["type"]
  | StructureUnionClassAbstractType =>
      ["containing_structure"; "export_symbols"; "specification";
       "calling_convention"]
  | C BaseType => ["encoding"; "endianity"; "bit_offset"]
  | C Member =>
      ["containing_structure"; "accessibility"; "mutable";
       "data_member_location"; "data_bit_offset"]
  | C Enumerator => ["value"]
  | C EnumerationType =>
      ["enum_class"; "byte_stride"; "bit_stride"; "enumerators"]
  | C PointerType | C ReferenceType | C RValueReferenceType => ["address_class"]
  | C SharedType => ["blocksize"]
  | C Subrange =>
      ["containing_structure"; "lower_bound"; "upper_bound"; "byte_stride";
       "bit_stride"]
  | C ArrayType =>
      ["ordering"; "byte_stride"; "bit_stride"; "accessibility";
       "specification"; "visibility"]
  | C FormalParameter =>
      ["artificial"; "const_value"; "default_value"; "endianity";
       "is_optional"; "variable_parameter"]
  | C SubroutineType => ["prototyped"; "parameters"; "unspecified_parameters"]
  | C Variable_ =>
      ["external"; "accessibility"; "artificial"; "const_value"; "endianity";
       "linkage_name"; "visibility"; "specification"; "location"]
  | C Namespace => ["export_symbols"]
  | _ => []
  end.

(** All the attributes [a == b] compares with [==] for two TAGs of class
    [c]: those of the class and of its base classes. *)
Definition compared_attrs (c : cls) (compare_containing_structure : bool)
  : list string :=
  filter (λ f, compare_containing_structure = true ∨ f ≠ "containing_structure")
    (flat_map eq_own_attrs (C c :: _get_baseclasses_of_class (C c))).

(** The attributes [Member.is_similar] compares with [==]; it also compares
    the names of the two types. *)
Definition similar_attrs : list string :=
  ["name"; "declaration"; "size"; "bit_size"; "accessibility"; "mutable";
   "data_member_location"; "data_bit_offset"].

Definition similar_targets (h : heap) (m : id) : list id :=
  flat_map (attr_tags h m) similar_attrs
  ++ match getattr h m "type" with
     | Ret (PRef t) => attr_tags h t "name"
     | _ => []
     end.

Definition dimension_targets (h : heap) (d : id) : list id :=
  match class_of h d with
  | Ret Subrange => flat_map (attr_tags h d) (compared_attrs Subrange false)
  | Ret Member => flat_map (attr_tags h d) (compared_attrs Member false)
  | _ => []
  end.

Definition is_aggregate (c : cls) : bool :=
  match c with StructureType | ClassType | UnionType => true | _ => false end.

(** The TAGs [o == b] passes on to [==] as left operands.  The members of an
    aggregate are not among them: they are compared by [is_similar], which
    looks at their own attributes and at the name of their type. *)
Definition eq_targets (h : heap) (o : id) : list id :=
  match class_of h o with
  | Ret c =>
      flat_map (attr_tags h o) (compared_attrs c true)
      ++ (if is_aggregate c
          then flat_map (similar_targets h) (attr_tags h o "members")
          else [])
      ++ (if decide (c = ArrayType)
          then flat_map (dimension_targets h) (attr_tags h o "dimensions")
          else [])
  | _ => []
  end.

(** *** Fully parsed TAGs *)

(** What the parser establishes for every TAG once its record is parsed:
    the attributes its class compares are there, the TAGs they hold are in
    the store, [parsed] is set; the members of an aggregate are [Member]s
    with a type, the dimensions of an array are [Subrange]s. *)
Definition has_attrs (h : heap) (o : id) (names : list string) : bool :=
  forallb (λ f, is_Ret (getattr h o f)) names.

Definition valid_tags (h : heap) (o : id) (names : list string) : bool :=
  forallb (λ f, forallb (λ t, bool_decide (t < length h)%nat) (attr_tags h o f))
    names.

Definition is_parsed (h : heap) (o : id) : bool :=
  match getattr h o "parsed" with
  | Ret v => truthy v
  | _ => false
  end.

Definition list_attr_ok (h : heap) (o : id) (f : string) : bool :=
  match getattr h o f with
  | Ret v => is_Ret (as_tags v)
  | _ => false
  end.

Definition wf_member (h : heap) (m : id) : bool :=
  match class_of h m with
  | Ret Member =>
      has_attrs h m similar_attrs && valid_tags h m similar_attrs
      && match getattr h m "type" with
         | Ret (PRef t) => has_attrs h t ["name"] && valid_tags h t ["name"]
         | _ => false
         end
  | _ => false
  end.

Definition wf_dimension (h : heap) (d : id) : bool :=
  match class_of h d with
  | Ret Subrange =>
      is_parsed h d
      && has_attrs h d (compared_attrs Subrange false)
      && valid_tags h d (compared_attrs Subrange false)
  | _ => false
  end.

Definition wf_tag (h : heap) (o : id) : bool :=
  match class_of h o with
  | Ret c =>
      is_parsed h o
      && has_attrs h o (compared_attrs c true)
      && valid_tags h o (compared_attrs c true)
      && (if is_aggregate c
          then list_attr_ok h o "members"
               && forallb (wf_member h) (attr_tags h o "members")
          else true)
      && (if decide (c = ArrayType)
          then list_attr_ok h o "dimensions"
               && forallb (wf_dimension h) (attr_tags h o "dimensions")
          else true)
  | _ => false
  end.

Definition wf_heap (h : heap) : Prop :=
  ∀ o, (o < length h)%nat → wf_tag h o = true.

(** [rank] goes down along the references the equality test follows. *)
Definition ranked (h : heap) (rank : id → nat) : Prop :=
  ∀ x y, y ∈ eq_targets h x → (rank y < rank x)%nat.

(** The two conditions as tests on a given store. *)
Definition wf_heapb (h : heap) : bool :=
  forallb (wf_tag h) (seq 0 (length h)).

Definition rankedb (h : heap) (rank : id → nat) : bool :=
  forallb (λ x, forallb (λ y, bool_decide (rank y < rank x)%nat) (eq_targets h x))
    (seq 0 (length h)).

(** A computation that returns a value. *)
Definition returns {A} (r : res A) : Prop := ∃ a, r = Ret a.

(** ** [Member.get_offset] *)

(** [hex(z)]. *)
Definition py_hex (z : Z) : string :=
  (if z <? 0 then "-" else "") ++ "0x"
  ++ HexadecimalString.NilZero.string_of_uint (N.to_hex_uint (Z.abs_N z)).

(** [l.pop()]: the last element and the list without it. *)
Definition list_pop (l : list Z) : option (Z * list Z) :=
  match reverse l with
  | [] => None
  | x :: r => Some (x, reverse r)
  end.

(** [get_offset(self, dwarf_stack)].  The evaluation stack is a Python list
    the caller passes in and the method updates in place, its top is the
    last element: the list after the call is returned with the result.
    The result is [None] or the pair of byte and bit offset. *)
Definition get_offset (h : heap) (self : id) (dwarf_stack : option (list Z))
  : list Z * res (option (pyv * pyv)) :=
  let dwarf_stack := default [0] dwarf_stack in
  let bit_offset_and_return (stack : list Z) (byte_offset : pyv) :=
    (stack,
     bit_offset ← getattr h self "data_bit_offset";
     Ret (Some (byte_offset,
                match bit_offset with PNone => PInt 0 | _ => bit_offset end))) in
  match getattr h self "data_member_location" with
  | Ret (PInt z) => bit_offset_and_return dwarf_stack (PInt z)
  | Ret (PBool b) => bit_offset_and_return dwarf_stack (PBool b)
  | Ret (PInts []) | Ret (PTags []) => (dwarf_stack, Raise IndexError)
  | Ret (PInts (opcode :: operands)) =>
      if opcode =? 35 (* 0x23 *) then
        match list_pop dwarf_stack with
        | None => (dwarf_stack, Raise IndexError)
        | Some (stack_top, rest) =>
            match operands with
            | [] => (rest, Raise IndexError)
            | operand :: _ =>
                let byte_offset := operand + stack_top in
                bit_offset_and_return (rest ++ [byte_offset]) (PInt byte_offset)
            end
        end
      else
        (dwarf_stack,
         Raise (Exception_
                  ("Cannot compute member offset: Unknown exprloc operation "
                   ++ py_hex opcode ++ ".")))
  | Ret (PTags (_ :: _)) =>
      (dwarf_stack,
       Raise (TypeError "object cannot be interpreted as an integer"))
  | Ret _ => (dwarf_stack, Ret None)
  | Raise e => (dwarf_stack, Raise e)
  | OutOfFuel => (dwarf_stack, OutOfFuel)
  end.
(** ** The state of a [TypeParser] *)

(** Python dictionaries keep their keys in insertion order, and the passes
    below depend on it ("the first candidate", "the last original"): a
    dictionary is a list of pairs with distinct keys. *)
Section Dict.
Context {K V : Type} `{EqDecision K}.

Fixpoint dict_get (k : K) (d : list (K * V)) : option V :=
  match d with
  | [] => None
  | (k', v) :: d' => if decide (k' = k) then Some v else dict_get k d'
  end.

(** [d[k] = v]: in place when the key is there, at the end otherwise. *)
Fixpoint dict_set (k : K) (v : V) (d : list (K * V)) : list (K * V) :=
  match d with
  | [] => [(k, v)]
  | (k', v') :: d' =>
      if decide (k' = k) then (k, v) :: d' else (k', v') :: dict_set k v d'
  end.

Definition dict_pop (k : K) (d : list (K * V)) : list (K * V) :=
  filter (λ kv, kv.1 ≠ k) d.

Definition dict_values (d : list (K * V)) : list V := d.*2.
Definition dict_keys (d : list (K * V)) : list K := d.*1.
End Dict.

Record TypeParser : Type := mkTypeParser {
  (** the objects made so far *)
  store : heap;
  _allow_duplicates : bool;
  catch_exceptions : bool;
  _unparsable_TAGs : list string;
  _unparsed_TAGs : list id;
  _unsorted_TAGs : list id;
  (** the memo table: compile unit, then offset of the record *)
  _TAG_CU_offset_dict : list (nat * list (Z * id));
  (** the canonical table: class, then hash *)
  _TAG_class_hash_dict : list (cls * list (Z * list id));
  duplicates : list (id * list id);
  completed_declarations : list id;
  uncompleted_declarations : list id;
  invalid_references : list (id * string * option nat)
}.

Definition new_TypeParser (allow_duplicates catch : bool) : TypeParser :=
  mkTypeParser [] allow_duplicates catch [] [] [] [] [] [] [] [] [].

Definition set_store (h : heap) (p : TypeParser) : TypeParser :=
  mkTypeParser h (_allow_duplicates p) (catch_exceptions p)
    (_unparsable_TAGs p) (_unparsed_TAGs p) (_unsorted_TAGs p)
    (_TAG_CU_offset_dict p) (_TAG_class_hash_dict p) (duplicates p)
    (completed_declarations p) (uncompleted_declarations p)
    (invalid_references p).

Definition set_unparsable (l : list string) (p : TypeParser) : TypeParser :=
  mkTypeParser (store p) (_allow_duplicates p) (catch_exceptions p)
    l (_unparsed_TAGs p) (_unsorted_TAGs p)
    (_TAG_CU_offset_dict p) (_TAG_class_hash_dict p) (duplicates p)
    (completed_declarations p) (uncompleted_declarations p)
    (invalid_references p).

Definition set_unparsed (l : list id) (p : TypeParser) : TypeParser :=
  mkTypeParser (store p) (_allow_duplicates p) (catch_exceptions p)
    (_unparsable_TAGs p) l (_unsorted_TAGs p)
    (_TAG_CU_offset_dict p) (_TAG_class_hash_dict p) (duplicates p)
    (completed_declarations p) (uncompleted_declarations p)
    (invalid_references p).

Definition set_unsorted (l : list id) (p : TypeParser) : TypeParser :=
  mkTypeParser (store p) (_allow_duplicates p) (catch_exceptions p)
    (_unparsable_TAGs p) (_unparsed_TAGs p) l
    (_TAG_CU_offset_dict p) (_TAG_class_hash_dict p) (duplicates p)
    (completed_declarations p) (uncompleted_declarations p)
    (invalid_references p).

Definition set_memo (d : list (nat * list (Z * id))) (p : TypeParser)
  : TypeParser :=
  mkTypeParser (store p) (_allow_duplicates p) (catch_exceptions p)
    (_unparsable_TAGs p) (_unparsed_TAGs p) (_unsorted_TAGs p)
    d (_TAG_class_hash_dict p) (duplicates p)
    (completed_declarations p) (uncompleted_declarations p)
    (invalid_references p).

Definition set_table (d : list (cls * list (Z * list id))) (p : TypeParser)
  : TypeParser :=
  mkTypeParser (store p) (_allow_duplicates p) (catch_exceptions p)
    (_unparsable_TAGs p) (_unparsed_TAGs p) (_unsorted_TAGs p)
    (_TAG_CU_offset_dict p) d (duplicates p)
    (completed_declarations p) (uncompleted_declarations p)
    (invalid_references p).

Definition set_duplicates (d : list (id * list id)) (p : TypeParser)
  : TypeParser :=
  mkTypeParser (store p) (_allow_duplicates p) (catch_exceptions p)
    (_unparsable_TAGs p) (_unparsed_TAGs p) (_unsorted_TAGs p)
    (_TAG_CU_offset_dict p) (_TAG_class_hash_dict p) d
    (completed_declarations p) (uncompleted_declarations p)
    (invalid_references p).

Definition set_declarations (c u : list id) (p : TypeParser) : TypeParser :=
  mkTypeParser (store p) (_allow_duplicates p) (catch_exceptions p)
    (_unparsable_TAGs p) (_unparsed_TAGs p) (_unsorted_TAGs p)
    (_TAG_CU_offset_dict p) (_TAG_class_hash_dict p) (duplicates p)
    c u (invalid_references p).

Definition set_invalid_references (l : list (id * string * option nat))
  (p : TypeParser) : TypeParser :=
  mkTypeParser (store p) (_allow_duplicates p) (catch_exceptions p)
    (_unparsable_TAGs p) (_unparsed_TAGs p) (_unsorted_TAGs p)
    (_TAG_CU_offset_dict p) (_TAG_class_hash_dict p) (duplicates p)
    (completed_declarations p) (uncompleted_declarations p) l.

(** *** Methods: computations on the state

    A method takes the parser and gives the parser back together with its
    result; what it changed before it raised stays changed. *)
Definition M (A : Type) : Type := TypeParser → TypeParser * res A.

#[global] Instance M_ret : MRet M := λ _ a p, (p, Ret a).
#[global] Instance M_bind : MBind M := λ _ _ f m p,
  match m p with
  | (p', Ret a) => f a p'
  | (p', Raise e) => (p', Raise e)
  | (p', OutOfFuel) => (p', OutOfFuel)
  end.

Definition lift {A} (r : res A) : M A := λ p, (p, r).
Definition raise {A} (e : exn) : M A := lift (Raise e).
Definition get_parser : M TypeParser := λ p, (p, Ret p).
Definition modify (f : TypeParser → TypeParser) : M unit := λ p, (f p, Ret tt).

(** [try: m except Exception as e: handler(e)]. *)
Definition try_except {A} (m : M A) (handler : exn → M A) : M A := λ p,
  match m p with
  | (p', Raise e) => handler e p'
  | r => r
  end.

(** [for x in l: body(x)]. *)
Fixpoint for_each {A} (l : list A) (body : A → M unit) : M unit :=
  match l with
  | [] => mret tt
  | x :: l' => body x ;; for_each l' body
  end.

Definition m_getattr (o : id) (a : string) : M pyv :=
  λ p, (p, getattr (store p) o a).

Definition m_class_of (o : id) : M cls := λ p, (p, class_of (store p) o).

Definition m_setattr (o : id) (a : string) (v : pyv) : M unit :=
  modify (λ p, set_store (setattr (store p) o a v) p).

(** The list held by a list-valued attribute. *)
Definition m_tags (o : id) (a : string) : M (list id) :=
  v ← m_getattr o a; lift (as_tags v).

(** [x is None]. *)
Definition is_None (v : pyv) : bool :=
  match v with PNone => true | _ => false end.

Section Engine.
Context `{PyHash}.
(** The budget of every [==] and of every [hash()] that a method starts. *)
Variable fuel : nat.

Definition m_eq (a b : id) : M bool := λ p, (p, tag_eq fuel (store p) a b).
Definition m_hash (o : id) : M Z := λ p, (p, tag_hash fuel (store p) o).

(** The first element of [l] that is [x] or equals it, as [x in l] and
    [l.index(x)] look for it: the element of the list is the left operand
    of [==]. *)
Fixpoint find_equal (h : heap) (x : id) (l : list id) : res (option id) :=
  match l with
  | [] => Ret None
  | el :: l' =>
      if decide (el = x) then Ret (Some el)
      else b ← tag_eq fuel h el x;
           if b : bool then Ret (Some el) else find_equal h x l'
  end.

Definition m_find_equal (x : id) (l : list id) : M (option id) :=
  λ p, (p, find_equal (store p) x l).

(** *** Referrers and typedefs ([AbstractTAG]) *)

Definition add_referrer (self typed : id) : M unit :=
  l ← m_tags self "_referrers";
  m_setattr self "_referrers" (PTags (l ++ [typed])).

Definition remove_referrer (self typed : id) : M unit :=
  l ← m_tags self "_referrers";
  m_setattr self "_referrers" (PTags (filter (λ r, r ≠ typed) l)).

Definition register_typedef (self typedef : id) : M unit :=
  l ← m_tags self "_typedefs";
  found ← m_find_equal typedef l;
  match found with
  | Some _ => mret tt
  | None => m_setattr self "_typedefs" (PTags (l ++ [typedef]))
  end.

Definition unregister_typedef (self typedef : id) : M unit :=
  l ← m_tags self "_typedefs";
  m_setattr self "_typedefs" (PTags (filter (λ r, r ≠ typedef) l)).

(** A method called on the value of an attribute that has to be a TAG. *)
Definition the_tag (v : pyv) (method : string) : M id :=
  match v with
  | PRef o => mret o
  | _ => raise (AttributeError method)
  end.

(** [AbstractTAG.deinit].  The loop runs over [self._referrers] while
    [replacement.add_referrer] appends to the referrers of the
    replacement; when the replacement is [self] itself and a referrer
    matched, the list grows under the loop and the loop does not end. *)
Definition AbstractTAG_deinit (self : id) (replacement : option id) : M unit :=
  match replacement with
  | Some r =>
      referrers ← m_tags self "_referrers";
      matched ← foldl
        (λ (acc : M bool) referrer,
           seen ← acc;
           t ← m_getattr referrer "type";
           if decide (t = PRef self)
           then m_setattr referrer "type" (PRef r);;
                add_referrer r referrer;;
                mret true
           else mret seen)
        (mret false) referrers;
      if (matched : bool) && bool_decide (r = self) then lift OutOfFuel
      else mret tt
  | None => mret tt
  end;;
  c ← m_class_of self;
  if isinstance c Typed
  then t ← m_getattr self "type";
       if is_None t then mret tt
       else ty ← the_tag t "remove_referrer"; remove_referrer ty self
  else mret tt.

(** [tag.deinit(...)].  [TypeDefType] overrides it as
    [deinit(self, **kwargs)], which takes the replacement by keyword only:
    a positional argument is a [TypeError]. *)
Definition deinit (self : id) (replacement : option id) (by_keyword : bool)
  : M unit :=
  c ← m_class_of self;
  if decide (c = TypeDefType)
  then
    if by_keyword
    then AbstractTAG_deinit self replacement;;
         t ← m_getattr self "type";
         ty ← the_tag t "unregister_typedef";
         unregister_typedef ty self
    else raise (TypeError "deinit() takes 1 positional argument but 2 were given")
  else AbstractTAG_deinit self replacement.

(** [Declarable.update_from].  The names come from [update.__dir__()]: the
    instance attributes of [update], and after them the attributes of the
    class, of which only the property [Subrange.count] can be [None] on
    [self] and not on [update]; it has no setter. *)
Definition update_attributes (self update : obj) : res (list (string * pyv)) :=
  sequence
    (map (λ '(a, v),
            match oattrs self !! a with
            | Some w => Ret (a, v, is_None w && negb (is_None v))
            | None => Raise (AttributeError a)
            end)
         (map_to_list (oattrs update)))
  ≫= λ l, Ret ((filter (λ x, x.2 = true) l).*1).

Definition update_from (self update : id) : M unit :=
  p ← get_parser;
  match store p !! self, store p !! update with
  | Some so, Some uo =>
      if decide (ocls so = ocls uo)
      then
        attrs ← lift (update_attributes so uo);
        count_self ← (if decide (ocls so = Subrange)
                      then lift (count (store p) self) else mret PNone);
        count_update ← (if decide (ocls so = Subrange)
                        then lift (count (store p) update) else mret PNone);
        for_each attrs (λ '(a, v), m_setattr self a v);;
        (if is_None count_self && negb (is_None count_update)
         then raise (AttributeError "count") else mret tt);;
        if isinstance (ocls so) Typed && bool_decide ("type" ∈ attrs.*1)
        then t ← m_getattr self "type";
             ty ← the_tag t "add_referrer"; add_referrer ty self
        else mret tt
      else raise AssertionError
  | _, _ => raise Dangling
  end.

(** *** The tables *)

(** [TypeParser.get_tags]. *)
Definition get_tags (p : TypeParser) : list id :=
  concat (flat_map dict_values (dict_values (_TAG_class_hash_dict p))).

(** The record a TAG was made from ([tag.die]). *)
Definition m_die (o : id) : M die_key :=
  p ← get_parser;
  match store p !! o with
  | Some ob =>
      match odie ob with
      | Some d => mret d
      | None => raise (AttributeError "die")
      end
  | None => raise Dangling
  end.

(** [TypeParser.add_TAG]. *)
Definition add_TAG (tag : id) : M unit :=
  d ← m_die tag;
  p ← get_parser;
  match dict_get d.1 (_TAG_CU_offset_dict p) with
  | None => raise KeyError
  | Some offsets =>
      modify (set_memo (dict_set d.1 (dict_set d.2 tag offsets)
                          (_TAG_CU_offset_dict p)));;
      tag_hash ← m_hash tag;
      c ← m_class_of tag;
      modify (λ p,
        set_table
          (match dict_get c (_TAG_class_hash_dict p) with
           | None => dict_set c [(tag_hash, [tag])] (_TAG_class_hash_dict p)
           | Some TAG_hash_dict =>
               dict_set c
                 (match dict_get tag_hash TAG_hash_dict with
                  | Some l => dict_set tag_hash (l ++ [tag]) TAG_hash_dict
                  | None => dict_set tag_hash [tag] TAG_hash_dict
                  end)
                 (_TAG_class_hash_dict p)
           end) p)
  end.

(** [TypeParser._remove_TAG_exact]. *)
Definition _remove_TAG_exact (tag_to_remove : id) (do_deinit : bool)
  (replacement : option id) : M unit :=
  modify (λ p,
    set_memo
      (map (λ '(cu, tag_dict), (cu, filter (λ ot, ot.2 ≠ tag_to_remove) tag_dict))
           (_TAG_CU_offset_dict p)) p);;
  c ← m_class_of tag_to_remove;
  p ← get_parser;
  match dict_get c (_TAG_class_hash_dict p) with
  | None => raise KeyError
  | Some tag_dict =>
      modify (set_table
                (dict_set c
                   (map (λ '(hv, tag_list),
                           (hv, filter (λ t, t ≠ tag_to_remove) tag_list))
                        tag_dict)
                   (_TAG_class_hash_dict p)));;
      if do_deinit then deinit tag_to_remove replacement false else mret tt
  end.

(** [TypeParser.resort_TAG]. *)
Definition resort_TAG (tag : id) : M unit :=
  _remove_TAG_exact tag false None;; add_TAG tag.

(** [TypeParser._is_tag_in_tag_list]. *)
Definition _is_tag_in_tag_list (p : TypeParser) (tag : id) : res bool :=
  tag_cls ← class_of (store p) tag;
  tag_hash ← tag_hash fuel (store p) tag;
  match dict_get tag_cls (_TAG_class_hash_dict p) with
  | Some by_hash =>
      match dict_get tag_hash by_hash with
      | Some candidates => Ret (bool_decide (tag ∈ candidates))
      | None => Ret false
      end
  | None => Ret false
  end.

(** *** Finding duplicates *)

(** A dictionary whose keys are TAGs finds a key by its hash and then by
    identity or [==]; entries are tried in the order they were put in. *)
Fixpoint tagdict_find {V} (h : heap) (key : id) (hk : Z) (d : list (id * V))
  : res (option id) :=
  match d with
  | [] => Ret None
  | (k, _) :: d' =>
      if decide (k = key) then Ret (Some k)
      else hk' ← tag_hash fuel h k;
           if hk' =? hk
           then b ← tag_eq fuel h k key;
                if b : bool then Ret (Some k) else tagdict_find h key hk d'
           else tagdict_find h key hk d'
  end.

(** [if original in d: d[original].append(tag) else: d[original] = [tag]]. *)
Definition tagdict_append (h : heap) (original tag : id)
  (d : list (id * list id)) : res (list (id * list id)) :=
  hk ← tag_hash fuel h original;
  found ← tagdict_find h original hk d;
  match found with
  | Some k =>
      Ret (map (λ '(k', l), if decide (k' = k) then (k', l ++ [tag]) else (k', l)) d)
  | None => Ret (d ++ [(original, [tag])])
  end.

(** The loop over one list of the table: [hash_uniques] and the
    duplicates found so far. *)
Fixpoint bucket_duplicates (h : heap) (tag_by_hash_list hash_uniques : list id)
  (class_duplicates : list (id * list id)) : res (list (id * list id)) :=
  match tag_by_hash_list with
  | [] => Ret class_duplicates
  | tag :: rest =>
      found ← find_equal h tag hash_uniques;
      match found with
      | None => bucket_duplicates h rest (hash_uniques ++ [tag]) class_duplicates
      | Some original =>
          d ← tagdict_append h original tag class_duplicates;
          bucket_duplicates h rest hash_uniques d
      end
  end.

Fixpoint class_duplicates (h : heap) (buckets : list (list id))
  (found : list (id * list id)) : res (list (id * list id)) :=
  match buckets with
  | [] => Ret found
  | b :: rest =>
      d ← bucket_duplicates h b [] found; class_duplicates h rest d
  end.

(** [TypeParser._get_duplicates].  Originals of different classes are
    never equal, so [duplicates.update(class_duplicates)] adds the
    entries of the class at the end. *)
Fixpoint duplicates_of_classes (h : heap)
  (classes : list (cls * list (Z * list id))) : res (list (id * list id)) :=
  match classes with
  | [] => Ret []
  | (_, tag_by_hash_dict) :: rest =>
      d ← class_duplicates h (dict_values tag_by_hash_dict) [];
      ds ← duplicates_of_classes h rest;
      Ret (d ++ ds)
  end.

Definition _get_duplicates (p : TypeParser) : res (list (id * list id)) :=
  duplicates_of_classes (store p) (_TAG_class_hash_dict p).

(** *** Removing duplicates *)

(** [for original, duplicate_list in duplicates.items():
       for duplicate in duplicate_list]. *)
Definition duplicate_pairs (dups : list (id * list id)) : list (id * id) :=
  flat_map (λ '(original, l), map (λ duplicate, (original, duplicate)) l) dups.

(** The set [updated] is kept by identity; the code only logs how many
    elements it has. *)
Definition set_add (x : id) (s : list id) : list id :=
  if bool_decide (x ∈ s) then s else s ++ [x].

(** The body of the loop over the typed attributes of one TAG.  The
    accumulator holds [updated] and the local variable [original], which
    the loop over [duplicates.items()] leaves at the last key. *)
Definition scan_attr (dups : list (id * list id)) (tag : id)
  (attr_name : string) (acc : list id * option id) : M (list id * option id) :=
  let pairs := duplicate_pairs dups in
  let original' :=
    match last (dict_keys dups) with
    | Some o => Some o
    | None => acc.2
    end in
  attr_value ← m_getattr tag attr_name;
  match attr_value with
  | PNone => mret acc
  | PRef t =>
      for_each pairs
        (λ '(original, duplicate),
           if decide (t = duplicate)
           then m_setattr tag attr_name (PRef original) else mret tt);;
      mret (if bool_decide (t ∈ pairs.*2) then set_add tag acc.1 else acc.1,
            original')
  | PTags l =>
      let l' :=
        foldl (λ cur '(original, duplicate),
                 map (λ item, if decide (item = duplicate) then original
                              else item) cur)
              l pairs in
      let hit :=
        foldl (λ '(cur, seen) '(original, duplicate),
                 (map (λ item, if decide (item = duplicate) then original
                               else item) cur,
                  seen || bool_decide (duplicate ∈ cur)))
              (l, false) pairs in
      m_setattr tag attr_name (PTags l');;
      mret (if hit.2 then set_add tag acc.1 else acc.1, original')
  | PInts _ => mret (acc.1, original')
  | _ => raise (Exception_ "Cannot update reference to duplicate object")
  end.

Fixpoint scan_attrs (dups : list (id * list id)) (tag : id)
  (names : list string) (acc : list id * option id)
  : M (list id * option id) :=
  match names with
  | [] => mret acc
  | a :: names' => acc' ← scan_attr dups tag a acc; scan_attrs dups tag names' acc'
  end.

Fixpoint scan_tags (dups : list (id * list id)) (names : list string)
  (tags : list id) (acc : list id * option id) : M (list id * option id) :=
  match tags with
  | [] => mret acc
  | t :: tags' =>
      acc' ← scan_attrs dups t names acc; scan_tags dups names tags' acc'
  end.

Fixpoint scan_classes (dups : list (id * list id))
  (classes : list (cls * list (Z * list id))) (acc : list id * option id)
  : M (list id * option id) :=
  match classes with
  | [] => mret acc
  | (class_, hash_TAG_dicts) :: rest =>
      acc' ← scan_tags dups (typed_attr_names class_)
               (concat (dict_values hash_TAG_dicts)) acc;
      scan_classes dups rest acc'
  end.

(** [TypeParser._remove_duplicates].  It calls itself until
    [_get_duplicates] finds nothing; [rounds] bounds the depth of these
    calls. *)
Fixpoint _remove_duplicates (rounds : nat)
  (duplicates_arg : option (list (id * list id))) : M (list id) :=
  match rounds with
  | O => lift OutOfFuel
  | S n =>
      p ← get_parser;
      let dups := default (duplicates p) duplicates_arg in
      '(updated, original) ← scan_classes dups (_TAG_class_hash_dict p) ([], None);
      for_each (concat (dict_values dups))
        (λ duplicate,
           match original with
           | Some o => _remove_TAG_exact duplicate true (Some o)
           | None => raise (UnboundLocalError "original")
           end);;
      p' ← get_parser;
      d ← lift (_get_duplicates p');
      modify (set_duplicates d);;
      if bool_decide (d = []) then mret updated
      else more ← _remove_duplicates n None;
           mret (foldl (λ s x, set_add x s) updated more)
  end.

(** *** Completing declarations *)

(** [isinstance(t, Declarable) and t.declaration]. *)
Definition is_declaration (h : heap) (t : id) : res bool :=
  c ← class_of h t;
  if isinstance c Declarable
  then d ← getattr h t "declaration"; Ret (truthy d)
  else Ret false.

(** [not t.declaration and t.name is not None
     and t.name == declaration_type.name]. *)
Definition completes (h : heap) (declaration_type t : id) : res bool :=
  d ← getattr h t "declaration";
  if truthy d then Ret false
  else n ← getattr h t "name";
       if is_None n then Ret false
       else dn ← getattr h declaration_type "name";
            py_eq (tag_eq fuel h) n dn.

Fixpoint filter_res {A} (f : A → res bool) (l : list A) : res (list A) :=
  match l with
  | [] => Ret []
  | x :: l' =>
      b ← f x; r ← filter_res f l'; Ret (if b : bool then x :: r else r)
  end.

Definition complete_one (declaration_type : id)
  (acc : list id * list id) : M (list id * list id) :=
  name ← m_getattr declaration_type "name";
  if is_None name then mret (acc.1, acc.2 ++ [declaration_type])
  else
    c ← m_class_of declaration_type;
    p ← get_parser;
    match dict_get c (_TAG_class_hash_dict p) with
    | None => raise KeyError
    | Some by_hash =>
        completion_types ←
          lift (filter_res (completes (store p) declaration_type)
                  (concat (dict_values by_hash)));
        match completion_types with
        | first :: _ =>
            for_each completion_types
              (λ completion,
                 update_from completion declaration_type;;
                 resort_TAG completion);;
            _remove_TAG_exact declaration_type true (Some first);;
            mret (acc.1 ++ [declaration_type], acc.2)
        | [] => mret (acc.1, acc.2 ++ [declaration_type])
        end
    end.

Fixpoint complete_all (declaration_types : list id)
  (acc : list id * list id) : M (list id * list id) :=
  match declaration_types with
  | [] => mret acc
  | d :: rest => acc' ← complete_one d acc; complete_all rest acc'
  end.

(** [TypeParser._complete_declaration]: the completed and the uncompleted
    declarations. *)
Definition _complete_declaration : M (list id * list id) :=
  p ← get_parser;
  declaration_types ← lift (filter_res (is_declaration (store p)) (get_tags p));
  complete_all declaration_types ([], []).

(** *** Validating references *)

(** What one typed attribute of one TAG adds to [invalid_references]. *)
Definition validate_attr (p : TypeParser) (tag : id) (attr_name : string)
  : res (list (id * string * option nat)) :=
  attr_value ← getattr (store p) tag attr_name;
  match attr_value with
  | PNone => Ret []
  | PRef t =>
      ok ← _is_tag_in_tag_list p t;
      Ret (if ok : bool then [] else [(tag, attr_name, None)])
  | PTags l =>
      oks ← sequence (map (_is_tag_in_tag_list p) l);
      Ret (omap (λ '(idx, ok), if ok : bool then None
                               else Some (tag, attr_name, Some idx))
                (imap (λ idx ok, (idx, ok)) oks))
  | PInts l =>
      (* an [int] has no class in the table *)
      Ret (imap (λ idx _, (tag, attr_name, Some idx)) l)
  | _ => Raise (Exception_ "Cannot validate reference")
  end.

(** [TypeParser._validate_references]. *)
Definition _validate_references (p : TypeParser)
  : res (list (id * string * option nat)) :=
  ls ← sequence
         (flat_map
            (λ '(class_, hash_TAG_dicts),
               flat_map
                 (λ tag, map (validate_attr p tag) (typed_attr_names class_))
                 (concat (dict_values hash_TAG_dicts)))
            (_TAG_class_hash_dict p));
  Ret (concat ls).

(** [TypeParser._post_parse]: complete, deduplicate, validate. *)
Definition _post_parse (rounds : nat) : M unit :=
  '(completed, uncompleted) ← _complete_declaration;
  modify (set_declarations completed uncompleted);;
  p ← get_parser;
  d ← lift (_get_duplicates p);
  modify (set_duplicates d);;
  _remove_duplicates rounds None;;
  p' ← get_parser;
  inv ← lift (_validate_references p');
  modify (set_invalid_references inv).
End Engine.
(** ** The debug information

    What the engine needs of the record source ([pyelftools]): records with
    a tag, attributes that carry a form and a value, children, a parent, and
    the means to find a record of a compile unit by its offset. *)

(** The value of an attribute as the record source hands it over. *)
Inductive raw : Type :=
| RInt (z : Z)
| RBytes (s : string)
| RFlag (b : bool)
| RBlock (l : list Z).

Record Attribute : Type := mkAttribute {
  form : string;
  value : option raw
}.

Record DIE : Type := mkDIE {
  die_cu : nat;
  die_offset : Z;
  die_tag : string;
  die_attributes : list (string * Attribute);
  die_children : list Z;
  die_parent : option Z
}.

Record CompileUnit : Type := mkCompileUnit {
  cu_offset : Z;
  cu_top_DIE : option Z;
  cu_DIEs : list DIE;
  (** the file name the line program gives for a file index other than 0 *)
  cu_file_name : Z → res string
}.

Definition DWARFInfo : Type := list CompileUnit.

Definition key_of (die : DIE) : die_key := (die_cu die, die_offset die).

(** [int(value)], [bool(value)] and [value.decode()] on raw values.  The
    text of a byte string is kept decoded. *)
Definition py_int (int_of_bytes : string → option Z) (v : raw) : res Z :=
  match v with
  | RInt z => Ret z
  | RFlag b => Ret (Z.b2z b)
  | RBytes s =>
      match int_of_bytes s with
      | Some z => Ret z
      | None => Raise (ValueError "invalid literal for int()")
      end
  | RBlock _ => Raise (TypeError "int() argument must be a string or a number")
  end.

Definition py_bool (v : raw) : bool :=
  match v with
  | RInt z => negb (z =? 0)
  | RFlag b => b
  | RBytes s => negb (String.eqb s "")
  | RBlock l => negb (bool_decide (l = []))
  end.

Definition py_decode (v : raw) : res string :=
  match v with
  | RBytes s => Ret s
  | _ => Raise (AttributeError "decode")
  end.

Definition block_forms : list string :=
  ["DW_FORM_block"; "DW_FORM_block1"; "DW_FORM_block2"; "DW_FORM_block4";
   "DW_FORM_exprloc"].
Definition int_forms : list string :=
  ["DW_FORM_data1"; "DW_FORM_data2"; "DW_FORM_data4"; "DW_FORM_data8";
   "DW_FORM_data16"; "DW_FORM_sdata"; "DW_FORM_udata";
   "DW_FORM_implicit_const"; "DW_FORM_sec_offset"].
Definition flag_forms : list string := ["DW_FORM_flag"; "DW_FORM_flag_present"].
Definition ref_forms : list string :=
  ["DW_FORM_ref1"; "DW_FORM_ref2"; "DW_FORM_ref4"; "DW_FORM_ref8";
   "DW_FORM_ref_udata"; "DW_FORM_ref_addr"; "DW_FORM_ref_sup4";
   "DW_FORM_ref_sig8"].
Definition str_forms : list string :=
  ["DW_FORM_string"; "DW_FORM_strp"; "DW_FORM_line_strp"; "DW_FORM_strp_sup";
   "DW_FORM_strx"; "DW_FORM_strx1"; "DW_FORM_strx2"; "DW_FORM_strx3";
   "DW_FORM_strx4"; "DW_FORM_implicit_const"].

Definition opt_int (o : option Z) : pyv :=
  match o with Some z => PInt z | None => PNone end.
Definition opt_bool (o : option bool) : pyv :=
  match o with Some b => PBool b | None => PNone end.
Definition opt_str (o : option string) : pyv :=
  match o with Some s => PStr s | None => PNone end.
Definition opt_ref (o : option id) : pyv :=
  match o with Some r => PRef r | None => PNone end.

(** ** Parsing records into TAGs *)

Section Parser.
Context `{PyHash}.
Variable fuel : nat.
(** [int(b)] for a byte string. *)
Variable int_of_bytes : string → option Z.
Variable dwarfinfo : DWARFInfo.

Definition find_DIE (cu : nat) (offset : Z) : option DIE :=
  cu ← dwarfinfo !! cu;
  find (λ d, die_offset d =? offset) (cu_DIEs cu).

(** [die.iter_children()]. *)
Definition iter_children (die : DIE) : list DIE :=
  omap (find_DIE (die_cu die)) (die_children die).

Definition get_parent (die : DIE) : option DIE :=
  p ← die_parent die; find_DIE (die_cu die) p.

(** [die.iter_siblings()]: the other children of the parent. *)
Definition iter_siblings (die : DIE) : list DIE :=
  match get_parent die with
  | Some parent =>
      filter (λ s, die_offset s ≠ die_offset die) (iter_children parent)
  | None => []
  end.

(** *** The attribute accessor *)

(** [TypeParser.get_die_attribute].  The log of the attributes that were
    asked for only feeds a warning and is left out. *)
Definition get_die_attribute (die : DIE) (attribute_name : string)
  (expected_form : list string) (default_value : option raw)
  (mandatory : bool) : res (option raw) :=
  match dict_get attribute_name (die_attributes die) with
  | None =>
      if mandatory
      then Raise (Exception_ "DIE does not have mandatory Attribute")
      else Ret default_value
  | Some attribute =>
      match value attribute with
      | None =>
          if mandatory
          then Raise (Exception_ "DIE does not have a value for mandatory Attribute")
          else Ret default_value
      | Some v =>
          if bool_decide (form attribute ∈ expected_form) then Ret (Some v)
          else Raise (Exception_ "DIE Attribute has an unexpected form")
      end
  end.

Definition get_die_attribute_block_or_int (die : DIE) (attribute_name : string)
  (default_value : pyv) (mandatory : bool) : res pyv :=
  v ← get_die_attribute die attribute_name (block_forms ++ int_forms) None
        mandatory;
  match v with
  | None => Ret default_value
  | Some (RBlock l) => Ret (PInts l)
  | Some r => z ← py_int int_of_bytes r; Ret (PInt z)
  end.

Definition get_die_attribute_flag (die : DIE) (attribute_name : string)
  (default_value : option bool) (mandatory : bool) : res pyv :=
  v ← get_die_attribute die attribute_name flag_forms None mandatory;
  match v with
  | Some r => Ret (PBool (py_bool r))
  | None => Ret (opt_bool default_value)
  end.

(** [try: int_value = int(value) finally: return int_value]: what [int]
    raises is dropped and the default returned. *)
Definition get_die_attribute_int (die : DIE) (attribute_name : string)
  (default_value : option Z) (mandatory : bool) : res pyv :=
  v ← get_die_attribute die attribute_name int_forms None mandatory;
  match v with
  | Some r =>
      match py_int int_of_bytes r with
      | Ret z => Ret (PInt z)
      | _ => Ret (opt_int default_value)
      end
  | None => Ret (opt_int default_value)
  end.

Definition get_die_attribute_str (die : DIE) (attribute_name : string)
  (mandatory : bool) : res pyv :=
  v ← get_die_attribute die attribute_name str_forms None mandatory;
  match v with
  | Some r => s ← py_decode r; Ret (PStr s)
  | None => Ret PNone
  end.

(** [TypeParser.get_die_attribute_ref_DIE] and
    [get_die_attribute_ref_unparsed]:
    [cu.get_DIE_from_refaddr(value + cu.cu_offset)]. *)
Definition get_die_attribute_ref_DIE (die : DIE) (attribute_name : string)
  (mandatory : bool) : res (option DIE) :=
  v ← get_die_attribute die attribute_name ref_forms None mandatory;
  match v with
  | None => Ret None
  | Some (RInt z) =>
      match dwarfinfo !! die_cu die with
      | Some cu =>
          match find_DIE (die_cu die) (z + cu_offset cu) with
          | Some d => Ret (Some d)
          | None => Raise (Exception_ "no DIE at the reference address")
          end
      | None => Raise Dangling
      end
  | Some _ => Raise (TypeError "unsupported operand type(s) for +")
  end.

(** The attributes every TAG has once it is made ([__init__]); the classes
    whose constructor takes [containing_structure] require it, except for
    the aggregates, where it defaults to [None]. *)
Definition new_attrs (c : cls) (containing_structure : option id)
  : res (gmap string pyv) :=
  let base : gmap string pyv :=
    {[ "_referrers" := PTags []; "_typedefs" := PTags [];
       "namespace" := PNone; "_dependencies" := PNone;
       "parsed" := PBool false ]} in
  match c, containing_structure with
  | (Member | Enumerator | Subrange), Some cs =>
      Ret (<["containing_structure" := PRef cs]> base)
  | (Member | Enumerator | Subrange), None =>
      Raise (TypeError "__init__() missing 1 required positional argument")
  | (StructureType | ClassType | UnionType), cs =>
      Ret (<["containing_structure" := opt_ref cs]>
             (<["exported_symbols" := PTags []]> base))
  | Namespace, None => Ret (<["namespace_members" := PTags []]> base)
  | _, None => Ret base
  | _, Some _ =>
      Raise (TypeError "__init__() got an unexpected keyword argument")
  end.

(** The call of the class with the keyword arguments of [parse_DIE]: a new
    object at the end of the store. *)
Definition new_object (c : cls) (containing_structure : option id) : M id :=
  attrs ← lift (new_attrs c containing_structure);
  p ← get_parser;
  modify (set_store (store p ++ [mkObj c None empty_Declaration attrs]));;
  mret (length (store p)).

Definition set_die (o : id) (d : die_key) : M unit :=
  modify (λ p,
    match store p !! o with
    | Some ob =>
        set_store (<[o := mkObj (ocls ob) (Some d) (odecl ob) (oattrs ob)]>
                     (store p)) p
    | None => p
    end).

Definition set_decl (o : id) (d : Declaration) : M unit :=
  modify (λ p,
    match store p !! o with
    | Some ob =>
        set_store (<[o := mkObj (ocls ob) (odie ob) d (oattrs ob)]>
                     (store p)) p
    | None => p
    end).

(** [self.a = accessor(die, ...)]. *)
Definition assign (o : id) (a : string) (r : res pyv) : M unit :=
  v ← lift r; m_setattr o a v.

Definition as_opt_int (v : pyv) : option Z :=
  match v with PInt z => Some z | _ => None end.

(** [Declaration.parse]. *)
Definition Declaration_parse (self : id) (die : DIE) : M unit :=
  file ← lift (get_die_attribute_int die "DW_AT_decl_file" None false);
  line ← lift (get_die_attribute_int die "DW_AT_decl_line" None false);
  column ← lift (get_die_attribute_int die "DW_AT_decl_column" None false);
  file_name ←
    match as_opt_int file with
    | None => mret None
    | Some f =>
        if f =? 0 then mret None
        else match dwarfinfo !! die_cu die with
             | Some cu => n ← lift (cu_file_name cu f); mret (Some n)
             | None => raise Dangling
             end
    end;
  set_decl self (mkDeclaration (as_opt_int file) (as_opt_int line)
                   (as_opt_int column) file_name).

(** The [parse] methods of the capability mixins. *)
Definition Accessible_parse (self : id) (die : DIE) : M unit :=
  assign self "accessibility"
    (get_die_attribute_int die "DW_AT_accessibility" None false).
Definition Aligned_parse (self : id) (die : DIE) : M unit :=
  assign self "alignment"
    (get_die_attribute_int die "DW_AT_alignment" None false).
Definition Artificial_parse (self : id) (die : DIE) : M unit :=
  assign self "artificial"
    (get_die_attribute_flag die "DW_AT_artificial" (Some false) false).
Definition Declarable_parse (self : id) (die : DIE) : M unit :=
  assign self "declaration"
    (get_die_attribute_flag die "DW_AT_declaration" (Some false) false).
Definition Named_parse (self : id) (die : DIE) (mandatory : bool) : M unit :=
  assign self "name" (get_die_attribute_str die "DW_AT_name" mandatory).
Definition Sized_parse (self : id) (die : DIE) (mandatory : bool) : M unit :=
  assign self "size" (get_die_attribute_int die "DW_AT_byte_size" None false);;
  size ← m_getattr self "size";
  assign self "bit_size"
    (get_die_attribute_int die "DW_AT_bit_size" None
       (mandatory && is_None size)).

(** [AbstractTAG.parse] (and [AbstractType.parse], which only calls it). *)
Definition AbstractTAG_parse (self : id) (die : DIE) : M unit :=
  set_die self (key_of die);;
  Declaration_parse self die;;
  Named_parse self die false;;
  _ ← lift (get_die_attribute_ref_DIE die "DW_AT_sibling" false);
  mret tt.

Section Kinds.
(** [parser.parse_DIE(die, containing_structure=...)], with the depth
    that is left. *)
Variable parse_DIE_rec : DIE → option id → M id.

(** [TypeParser.get_die_attribute_ref]. *)
Definition get_die_attribute_ref (die : DIE) (attribute_name : string)
  (mandatory : bool) : M pyv :=
  type_die ← lift (get_die_attribute_ref_DIE die attribute_name mandatory);
  match type_die with
  | Some d =>
      p ← get_parser;
      if catch_exceptions p
      then try_except (t ← parse_DIE_rec d None; mret (PRef t))
             (λ _, raise (Exception_ "Failed to parse reference"))
      else t ← parse_DIE_rec d None; mret (PRef t)
  | None => mret PNone
  end.

(** [TypeParser.get_die_attribute_block_or_int_or_ref]. *)
Definition get_die_attribute_block_or_int_or_ref (die : DIE)
  (attribute_name : string) : M pyv :=
  match dict_get attribute_name (die_attributes die) with
  | Some attribute =>
      if bool_decide (form attribute ∈ ref_forms)
      then get_die_attribute_ref die attribute_name false
      else lift (get_die_attribute_block_or_int die attribute_name PNone false)
  | None =>
      lift (get_die_attribute_block_or_int die attribute_name PNone false)
  end.

(** [Typed.parse]. *)
Definition Typed_parse (self : id) (die : DIE) (mandatory : bool) : M unit :=
  t ← get_die_attribute_ref die "DW_AT_type" mandatory;
  m_setattr self "type" t;;
  match t with
  | PRef ty => add_referrer ty self
  | _ => mret tt
  end.

(** [[parser.parse_DIE(ch, ...) for ch in die.iter_children()
      if ch.tag == tag]]. *)
Fixpoint parse_all (l : list DIE) (containing_structure : option id)
  : M (list id) :=
  match l with
  | [] => mret []
  | ch :: l' =>
      t ← parse_DIE_rec ch containing_structure;
      ts ← parse_all l' containing_structure;
      mret (t :: ts)
  end.

Definition parse_children (die : DIE) (tag : string)
  (containing_structure : option id) : M (list id) :=
  parse_all (filter (λ ch, die_tag ch = tag) (iter_children die))
    containing_structure.

Definition linkage_name_parse (self : id) (die : DIE) : M unit :=
  assign self "linkage_name"
    (get_die_attribute_str die "DW_AT_linkage_name" false);;
  ln ← m_getattr self "linkage_name";
  if is_None ln
  then assign self "linkage_name"
         (get_die_attribute_str die "DW_AT_MIPS_linkage_name" false)
  else mret tt.

Definition BaseType_parse (self : id) (die : DIE) : M unit :=
  AbstractTAG_parse self die;;
  Aligned_parse self die;;
  Sized_parse self die true;;
  assign self "encoding" (get_die_attribute_int die "DW_AT_encoding" None true);;
  assign self "endianity" (get_die_attribute_int die "DW_AT_endianity" None false);;
  size ← m_getattr self "size";
  assign self "bit_offset"
    (get_die_attribute_int die "DW_AT_data_bit_offset" (Some 0) (is_None size)).

Definition UnspecifiedType_parse (self : id) (die : DIE) : M unit :=
  AbstractTAG_parse self die;;
  Named_parse self die true.

Definition TypeDefType_parse (self : id) (die : DIE) : M unit :=
  AbstractTAG_parse self die;;
  Accessible_parse self die;;
  Aligned_parse self die;;
  Declarable_parse self die;;
  Typed_parse self die true;;
  Named_parse self die true.

(** [StructureUnionClassAbstractType.parse]. *)
Definition StructureUnionClassAbstractType_parse (self : id) (die : DIE)
  : M unit :=
  AbstractTAG_parse self die;;
  Accessible_parse self die;;
  Aligned_parse self die;;
  Declarable_parse self die;;
  Sized_parse self die false;;
  assign self "export_symbols"
    (get_die_attribute_flag die "DW_AT_export_symbols" (Some false) false);;
  spec ← get_die_attribute_ref die "DW_AT_specification" false;
  m_setattr self "specification" spec;;
  assign self "calling_convention"
    (get_die_attribute_int die "DW_AT_calling_convention" (Some 1) false);;
  linkage_name_parse self die;;
  (if bool_decide ("DW_AT_signature" ∈ dict_keys (die_attributes die))
   then raise (Exception_ "Signature not supported") else mret tt);;
  members ← parse_children die (DW_TAG Member) (Some self);
  m_setattr self "members" (PTags members);;
  export_symbols ← m_getattr self "export_symbols";
  cs ← m_getattr self "containing_structure";
  if truthy export_symbols && negb (is_None cs)
  then outer ← the_tag cs "add_exported_symbols";
       l ← m_tags outer "exported_symbols";
       m_setattr outer "exported_symbols" (PTags (l ++ members))
  else mret tt.

Definition Member_parse (self : id) (die : DIE) : M unit :=
  AbstractTAG_parse self die;;
  Accessible_parse self die;;
  Aligned_parse self die;;
  Artificial_parse self die;;
  Declarable_parse self die;;
  Sized_parse self die false;;
  Typed_parse self die true;;
  assign self "mutable" (get_die_attribute_flag die "DW_AT_mutable" None false);;
  parent_tag ← match get_parent die with
               | Some parent => mret (die_tag parent)
               | None => raise (AttributeError "tag")
               end;
  (if bool_decide (parent_tag ∈ ["DW_TAG_structure_type"; "DW_TAG_union_type";
                                 "DW_TAG_class_type"])
   then
     assign self "data_member_location"
       (get_die_attribute_block_or_int die "DW_AT_data_member_location"
          (PInt 0) false);;
     dml ← m_getattr self "data_member_location";
     if truthy dml
     then assign self "data_bit_offset"
            (get_die_attribute_int die "DW_AT_bit_offset" (Some 0) false)
     else m_setattr self "data_bit_offset" (PInt 0)
   else
     m_setattr self "data_member_location" (PInt 0);;
     m_setattr self "data_bit_offset" (PInt 0));;
  assign self "external" (get_die_attribute_flag die "DW_AT_external" None false);;
  assign self "const_expr" (get_die_attribute_flag die "DW_AT_const_expr" None false);;
  assign self "inline" (get_die_attribute_int die "DW_AT_inline" None false).

Definition Enumerator_parse (self : id) (die : DIE) : M unit :=
  AbstractTAG_parse self die;;
  Named_parse self die true;;
  assign self "value" (get_die_attribute_int die "DW_AT_const_value" None true).

Definition EnumerationType_parse (self : id) (die : DIE) : M unit :=
  AbstractTAG_parse self die;;
  Accessible_parse self die;;
  Aligned_parse self die;;
  Declarable_parse self die;;
  Sized_parse self die false;;
  size ← m_getattr self "size";
  bit_size ← m_getattr self "bit_size";
  declaration ← m_getattr self "declaration";
  Typed_parse self die
    ((is_None size && is_None bit_size) && negb (truthy declaration));;
  assign self "enum_class"
    (get_die_attribute_flag die "DW_AT_enum_class" (Some false) false);;
  assign self "byte_stride" (get_die_attribute_int die "DW_AT_byte_stride" None false);;
  assign self "bit_stride" (get_die_attribute_int die "DW_AT_bit_stride" None false);;
  assign self "encoding" (get_die_attribute_int die "DW_AT_encoding" None false);;
  linkage_name_parse self die;;
  enumerators ← parse_children die (DW_TAG Enumerator) (Some self);
  m_setattr self "enumerators" (PTags enumerators).

(** [AbstractModifierType.parse]. *)
Definition AbstractModifierType_parse (self : id) (die : DIE) : M unit :=
  AbstractTAG_parse self die;;
  Typed_parse self die false.

(** [AtomicType], [ConstType], [PackedType], [RestrictType]. *)
Definition AlignedModifier_parse (self : id) (die : DIE) : M unit :=
  AbstractModifierType_parse self die;;
  Aligned_parse self die.

(** [PointerType], [ReferenceType], [RValueReferenceType]. *)
Definition PointerType_parse (self : id) (die : DIE) : M unit :=
  AbstractModifierType_parse self die;;
  Aligned_parse self die;;
  Sized_parse self die false;;
  assign self "address_class"
    (get_die_attribute_int die "DW_AT_address_class" None false).

Definition SharedType_parse (self : id) (die : DIE) : M unit :=
  AbstractModifierType_parse self die;;
  Aligned_parse self die;;
  assign self "blocksize" (get_die_attribute_int die "DW_AT_count" None false).

Definition Subrange_parse (self : id) (die : DIE) : M unit :=
  AbstractTAG_parse self die;;
  Accessible_parse self die;;
  Aligned_parse self die;;
  Declarable_parse self die;;
  Sized_parse self die false;;
  Typed_parse self die false;;
  assign self "lower_bound"
    (get_die_attribute_block_or_int die "DW_AT_lower_bound" (PInt 0) false);;
  ub ← get_die_attribute_block_or_int_or_ref die "DW_AT_upper_bound";
  m_setattr self "upper_bound" ub;;
  cnt ← lift (get_die_attribute_int die "DW_AT_count" None false);
  (if is_None ub
   then
     match cnt with
     | PInt c =>
         lb ← m_getattr self "lower_bound";
         match lb with
         | PInt l => m_setattr self "upper_bound" (PInt (c + l - 1))
         | _ => raise (TypeError "unsupported operand type(s) for +")
         end
     | _ => m_setattr self "upper_bound" PNone
     end
   else mret tt);;
  assign self "byte_stride"
    (get_die_attribute_int die "DW_AT_byte_stride" (Some 0) false);;
  assign self "bit_stride"
    (get_die_attribute_int die "DW_AT_bit_stride" (Some 0) false);;
  t ← m_getattr self "type";
  if is_None t
  then cs ← m_getattr self "containing_structure";
       match cs with
       | PRef outer =>
           c ← m_class_of outer;
           if isinstance c Typed
           then ot ← m_getattr outer "type"; m_setattr self "type" ot
           else mret tt
       | _ => mret tt
       end
  else mret tt.

Definition ArrayType_parse (self : id) (die : DIE) : M unit :=
  AbstractTAG_parse self die;;
  Accessible_parse self die;;
  Aligned_parse self die;;
  Declarable_parse self die;;
  Sized_parse self die false;;
  Typed_parse self die true;;
  assign self "ordering" (get_die_attribute_int die "DW_AT_ordering" None false);;
  assign self "byte_stride" (get_die_attribute_int die "DW_AT_byte_stride" None false);;
  assign self "bit_stride" (get_die_attribute_int die "DW_AT_bit_stride" None false);;
  spec ← get_die_attribute_ref die "DW_AT_specification" false;
  m_setattr self "specification" spec;;
  assign self "visibility" (get_die_attribute_int die "DW_AT_visibility" None false);;
  dimensions ← parse_children die (DW_TAG Subrange) (Some self);
  m_setattr self "dimensions" (PTags dimensions).

Definition FormalParameter_parse (self : id) (die : DIE) : M unit :=
  AbstractTAG_parse self die;;
  Artificial_parse self die;;
  Typed_parse self die false;;
  assign self "const_value" (get_die_attribute_int die "DW_AT_const_value" None false);;
  assign self "default_value" (get_die_attribute_int die "DW_AT_default_value" None false);;
  assign self "endianity" (get_die_attribute_int die "DW_AT_endianity" None false);;
  assign self "is_optional" (get_die_attribute_flag die "DW_AT_is_optional" None false);;
  assign self "variable_parameter"
    (get_die_attribute_flag die "DW_AT_variable_parameter" None false).

Definition SubroutineType_parse (self : id) (die : DIE) : M unit :=
  AbstractTAG_parse self die;;
  Accessible_parse self die;;
  Aligned_parse self die;;
  Declarable_parse self die;;
  Typed_parse self die false;;
  assign self "prototyped" (get_die_attribute_flag die "DW_AT_prototyped" None false);;
  parameters ← parse_children die (DW_TAG FormalParameter) None;
  m_setattr self "parameters" (PTags parameters);;
  m_setattr self "unspecified_parameters"
    (PBool (bool_decide
              (Exists (λ ch, die_tag ch = "DW_TAG_unspecified_parameters")
                 (iter_children die)))).

(** The loop over the siblings at the end of [Variable.parse]. *)
Fixpoint find_specification (self : id) (die : DIE) (siblings : list DIE)
  : M unit :=
  match siblings with
  | [] => mret tt
  | sibling :: rest =>
      if bool_decide (die_tag sibling = DW_TAG Variable_)
      then
        target ← lift (get_die_attribute_ref_DIE sibling "DW_AT_specification" false);
        if bool_decide (key_of <$> target = Some (key_of die))
        then
          specification ← parse_DIE_rec sibling None;
          c ← m_class_of specification;
          if decide (c = Variable_)
          then update_from specification self
          else raise AssertionError
        else find_specification self die rest
      else find_specification self die rest
  end.

Definition Variable_parse (self : id) (die : DIE) : M unit :=
  AbstractTAG_parse self die;;
  Accessible_parse self die;;
  Aligned_parse self die;;
  Artificial_parse self die;;
  Declarable_parse self die;;
  Typed_parse self die false;;
  assign self "external" (get_die_attribute_flag die "DW_AT_external" None false);;
  assign self "const_expr" (get_die_attribute_flag die "DW_AT_const_expr" None false);;
  assign self "const_value"
    (get_die_attribute_block_or_int die "DW_AT_const_value" PNone false);;
  assign self "endianity" (get_die_attribute_int die "DW_AT_endianity" None false);;
  linkage_name_parse self die;;
  assign self "visibility" (get_die_attribute_int die "DW_AT_visibility" None false);;
  spec ← get_die_attribute_ref die "DW_AT_specification" false;
  m_setattr self "specification" spec;;
  match spec with
  | PRef s =>
      c ← m_class_of s;
      if decide (c = Variable_) then mret tt else raise AssertionError
  | _ => mret tt
  end;;
  location_bytes ←
    lift (get_die_attribute_block_or_int die "DW_AT_location" PNone false);
  m_setattr self "location"
    match location_bytes with
    | PInts l =>
        (* [int.from_bytes(location_bytes[1:], byteorder='little')] *)
        PInt (foldr (λ b acc, b + 256 * acc) 0 (tail l))
    | v => v
    end;;
  assign self "inline" (get_die_attribute_int die "DW_AT_inline" None false);;
  assign self "GNU_locviews"
    (get_die_attribute_int die "DW_AT_GNU_locviews" None false);;
  declaration ← m_getattr self "declaration";
  external ← m_getattr self "external";
  if truthy declaration && truthy external
  then find_specification self die (iter_siblings die)
  else mret tt.

(** [Namespace.parse] and [Namespace.parse_members]. *)
Definition Namespace_parse (self : id) (die : DIE) : M unit :=
  AbstractTAG_parse self die;;
  assign self "export_symbols"
    (get_die_attribute_flag die "DW_AT_export_symbols" None false);;
  export_symbols ← m_getattr self "export_symbols";
  if truthy export_symbols
  then
    members ←
      parse_all
        (filter (λ ch, is_Some (parsable_class (die_tag ch)))
           (iter_children die))
        None;
    m_setattr self "namespace_members" (PTags members);;
    for_each members (λ m, m_setattr m "namespace" (PRef self))
  else mret tt.

(** [tag.parse(die, self)]. *)
Definition parse_method (c : cls) : id → DIE → M unit :=
  match c with
  | BaseType => BaseType_parse
  | UnspecifiedType => UnspecifiedType_parse
  | TypeDefType => TypeDefType_parse
  | StructureType | ClassType | UnionType =>
      StructureUnionClassAbstractType_parse
  | Member => Member_parse
  | Enumerator => Enumerator_parse
  | EnumerationType => EnumerationType_parse
  | AtomicType | ConstType | PackedType | RestrictType => AlignedModifier_parse
  | ImmutableType | VolatileType => AbstractModifierType_parse
  | PointerType | ReferenceType | RValueReferenceType => PointerType_parse
  | SharedType => SharedType_parse
  | Subrange => Subrange_parse
  | ArrayType => ArrayType_parse
  | FormalParameter => FormalParameter_parse
  | SubroutineType => SubroutineType_parse
  | Variable_ => Variable_parse
  | Namespace => Namespace_parse
  end.

(** [tag.parse_complete()]: [TypeDefType] also registers itself with
    its type. *)
Definition parse_complete (self : id) : M unit :=
  m_setattr self "parsed" (PBool true);;
  c ← m_class_of self;
  if decide (c = TypeDefType)
  then t ← m_getattr self "type";
       ty ← the_tag t "register_typedef";
       register_typedef fuel ty self
  else mret tt.

(** The loop over the candidates in [_sort_unsorted_TAGs]:
    [unsorted_TAG == candidate]. *)
Fixpoint find_original (h : heap) (unsorted_TAG : id) (candidates : list id)
  : res (option id) :=
  match candidates with
  | [] => Ret None
  | candidate :: rest =>
      b ← tag_eq fuel h unsorted_TAG candidate;
      if b : bool then Ret (Some candidate)
      else find_original h unsorted_TAG rest
  end.

Definition sort_one (unsorted_TAG : id) : M unit :=
  tag_hash ← m_hash fuel unsorted_TAG;
  c ← m_class_of unsorted_TAG;
  p ← get_parser;
  original ←
    (if _allow_duplicates p then mret None
     else match dict_get c (_TAG_class_hash_dict p) with
          | Some by_hash =>
              match dict_get tag_hash by_hash with
              | Some candidates =>
                  lift (find_original (store p) unsorted_TAG candidates)
              | None => mret None
              end
          | None => mret None
          end);
  match original with
  | Some sort_as_TAG =>
      d ← m_die unsorted_TAG;
      match dict_get d.1 (_TAG_CU_offset_dict p) with
      | Some offsets =>
          modify (set_memo (dict_set d.1 (dict_set d.2 sort_as_TAG offsets)
                              (_TAG_CU_offset_dict p)))
      | None => raise KeyError
      end;;
      deinit unsorted_TAG (Some sort_as_TAG) true
  | None => add_TAG fuel unsorted_TAG
  end.

(** [TypeParser._sort_unsorted_TAGs]. *)
Definition _sort_unsorted_TAGs : M unit :=
  p ← get_parser;
  for_each (_unsorted_TAGs p) sort_one;;
  modify (set_unsorted []).

(** Remove the first occurrence of [tag] from [_unparsed_TAGs]. *)
Fixpoint remove_first (tag : id) (l : list id) : list id :=
  match l with
  | [] => []
  | x :: l' => if decide (x = tag) then l' else x :: remove_first tag l'
  end.

(** [TypeParser.parse_DIE] from the point where the new TAG is in the memo
    table and among the unparsed TAGs: the TAG is parsed, taken from the
    unparsed TAGs, and sorted into the canonical table when no TAG is left
    unparsed. *)
Definition parse_registered (c : cls) (tag : id) (die : DIE) : M id :=
  parse_method c tag die;;
  parse_complete tag;;
  modify (λ p, set_unparsed (remove_first tag (_unparsed_TAGs p)) p);;
  modify (λ p, set_unsorted (_unsorted_TAGs p ++ [tag]) p);;
  p ← get_parser;
  (if bool_decide (_unparsed_TAGs p = []) then _sort_unsorted_TAGs
   else mret tt);;
  mret tag.

(** [self._TAG_CU_offset_dict[die.cu][die.offset] = tag]. *)
Definition register (die : DIE) (tag : id) (p : TypeParser) : TypeParser :=
  set_memo
    (dict_set (die_cu die)
       (dict_set (die_offset die) tag
          (default [] (dict_get (die_cu die) (_TAG_CU_offset_dict p))))
       (_TAG_CU_offset_dict p)) p.

(** The body of [TypeParser.parse_DIE]. *)
Definition parse_DIE_body (die : DIE) (containing_structure : option id)
  : M id :=
  modify (λ p,
    match dict_get (die_cu die) (_TAG_CU_offset_dict p) with
    | Some _ => p
    | None => set_memo (dict_set (die_cu die) [] (_TAG_CU_offset_dict p)) p
    end);;
  p ← get_parser;
  match dict_get (die_cu die) (_TAG_CU_offset_dict p)
        ≫= dict_get (die_offset die) with
  | Some tag => mret tag
  | None =>
      match parsable_class (die_tag die) with
      | None => raise (Exception_ "Cannot parse DIE")
      | Some c =>
          tag ← new_object c containing_structure;
          modify (register die tag);;
          modify (λ p, set_unparsed (_unparsed_TAGs p ++ [tag]) p);;
          parse_registered c tag die
      end
  end.
End Kinds.

(** [TypeParser.parse_DIE].  [depth] bounds the nesting of the calls, as
    the interpreter's recursion limit does. *)
Fixpoint parse_DIE (depth : nat) (die : DIE) (containing_structure : option id)
  : M id :=
  match depth with
  | O => lift OutOfFuel
  | S n => parse_DIE_body (parse_DIE n) die containing_structure
  end.

(** The entry of the memo table for a record. *)
Definition memo_lookup (p : TypeParser) (die : DIE) : option id :=
  dict_get (die_cu die) (_TAG_CU_offset_dict p) ≫= dict_get (die_offset die).

(** The record [die] is being parsed into [tag]: the memo table holds
    [tag] for it, and [tag] is an object of the store that is still among
    the unparsed TAGs. *)
Definition in_progress (die : DIE) (tag : id) (p : TypeParser) : Prop :=
  memo_lookup p die = Some tag
  ∧ tag ∈ _unparsed_TAGs p
  ∧ (tag < length (store p))%nat.

(** A method keeps a property of the parser, however it ends. *)
Definition keeps {A} (Q : TypeParser → Prop) (m : M A) : Prop :=
  ∀ p, Q p → Q (m p).1.

(** [TypeParser._extract_die]. *)
Definition _extract_die (depth : nat) (die : DIE) : M (option id) :=
  match parsable_class (die_tag die) with
  | Some _ =>
      p ← get_parser;
      if catch_exceptions p
      then try_except (t ← parse_DIE depth die None; mret (Some t))
             (λ _, mret None)
      else t ← parse_DIE depth die None; mret (Some t)
  | None =>
      modify (λ p,
        if bool_decide (die_tag die ∈ _unparsable_TAGs p) then p
        else set_unparsable (_unparsable_TAGs p ++ [die_tag die]) p);;
      mret None
  end.

(** [TypeParser._extract] without a list of names: every child of the top
    record of every compile unit, then the passes of [_post_parse]. *)
Definition materialize (depth : nat) : M unit :=
  for_each
    (flat_map
       (λ '(i, cu),
          match cu_top_DIE cu ≫= find_DIE i with
          | Some top => iter_children top
          | None => []
          end)
       (imap (λ i cu, (i, cu)) dwarfinfo))
    (λ die, _extract_die depth die;; mret tt).

Definition _extract (depth rounds : nat) : M unit :=
  materialize depth;; _post_parse fuel rounds.
End Parser.
(** ** A hash instance and sample records for the examples

    The hash of an integer and the combination of the hashes of the
    elements of a tuple follow CPython on a 64-bit machine in spirit; the
    hash of a string is seeded anew by every interpreter process, any
    function stands for it. *)
Definition sample_hash_int (z : Z) : Z :=
  let r := Z.rem z (2 ^ 61 - 1) in if r =? -1 then -2 else r.

Definition sample_hash_str (s : string) : Z :=
  foldl (λ acc c, (acc * 131 + Z.of_nat (Ascii.nat_of_ascii c)) mod (2 ^ 61 - 1))
    7 (list_ascii_of_string s).

Definition sample_hash_tuple (l : list Z) : Z :=
  foldl (λ acc x, (acc * 1000003 + x mod 2 ^ 64) mod 2 ^ 64) 3430008 l.

Definition sample_hash : PyHash :=
  {| hash_none := 4238894112;
     hash_int := sample_hash_int;
     hash_str := sample_hash_str;
     hash_tuple := sample_hash_tuple |}.

Module Samples.

(** Shorthands for attributes of records. *)
Definition a_str (name s : string) : string * Attribute :=
  (name, mkAttribute "DW_FORM_string" (Some (RBytes s))).
Definition a_int (name : string) (z : Z) : string * Attribute :=
  (name, mkAttribute "DW_FORM_data1" (Some (RInt z))).
Definition a_ref (name : string) (z : Z) : string * Attribute :=
  (name, mkAttribute "DW_FORM_ref4" (Some (RInt z))).
Definition a_flag (name : string) : string * Attribute :=
  (name, mkAttribute "DW_FORM_flag_present" (Some (RFlag true))).
Definition a_block (name : string) (l : list Z) : string * Attribute :=
  (name, mkAttribute "DW_FORM_exprloc" (Some (RBlock l))).

(** A compile unit at offset 0 whose top record (offset 0) has the given
    records as descendants. *)
Definition unit_of (children : list Z) (dies : list DIE) : CompileUnit :=
  mkCompileUnit 0 (Some 0)
    (mkDIE 0 0 "DW_TAG_compile_unit" [] children None :: dies)
    (λ _, Ret "main.c").

(** [struct node { int value; struct node *next; };] *)
Definition node_die : DIE :=
  mkDIE 0 20 "DW_TAG_structure_type"
    [a_str "DW_AT_name" "node"; a_int "DW_AT_byte_size" 8] [30; 40] (Some 0).

Definition node_unit : CompileUnit :=
  unit_of [10; 20; 50]
    [ mkDIE 0 10 "DW_TAG_base_type"
        [a_str "DW_AT_name" "int"; a_int "DW_AT_byte_size" 4;
         a_int "DW_AT_encoding" 5] [] (Some 0);
      node_die;
      mkDIE 0 30 "DW_TAG_member"
        [a_str "DW_AT_name" "value"; a_ref "DW_AT_type" 10;
         a_int "DW_AT_data_member_location" 0] [] (Some 20);
      mkDIE 0 40 "DW_TAG_member"
        [a_str "DW_AT_name" "next"; a_ref "DW_AT_type" 50;
         a_int "DW_AT_data_member_location" 4] [] (Some 20);
      mkDIE 0 50 "DW_TAG_pointer_type"
        [a_int "DW_AT_byte_size" 4; a_ref "DW_AT_type" 20] [] (Some 0) ].

(** Run a method on a fresh parser. *)
Definition run {A} (allow_duplicates catch : bool) (m : M A)
  : TypeParser * res A :=
  m (new_TypeParser allow_duplicates catch).

(** The store after the records of [node_unit] are parsed. *)
Definition node_parser : TypeParser :=
  Eval vm_compute in
    (run false false
       (@materialize sample_hash 10 (λ _, None) [node_unit] 20)).1.

Definition node_heap : heap := Eval vm_compute in store node_parser.

(** A function type that takes itself as its parameter, as in
    [type F func(F)], described twice:
    typedef [F] -> subroutine type -> formal parameter -> typedef [F]. *)
Definition func_unit : CompileUnit :=
  unit_of [100; 110; 200; 210]
    [ mkDIE 0 100 "DW_TAG_typedef"
        [a_str "DW_AT_name" "F"; a_ref "DW_AT_type" 110] [] (Some 0);
      mkDIE 0 110 "DW_TAG_subroutine_type"
        [a_flag "DW_AT_prototyped"] [120] (Some 0);
      mkDIE 0 120 "DW_TAG_formal_parameter"
        [a_ref "DW_AT_type" 100] [] (Some 110);
      mkDIE 0 200 "DW_TAG_typedef"
        [a_str "DW_AT_name" "F"; a_ref "DW_AT_type" 210] [] (Some 0);
      mkDIE 0 210 "DW_TAG_subroutine_type"
        [a_flag "DW_AT_prototyped"] [220] (Some 0);
      mkDIE 0 220 "DW_TAG_formal_parameter"
        [a_ref "DW_AT_type" 200] [] (Some 210) ].

(** The store after these records are parsed, duplicates allowed. *)
Definition func_heap : heap :=
  Eval vm_compute in
    store (run true false
             (@materialize sample_hash 10 (λ _, None) [func_unit] 20)).1.

(** [int a[n]] with a bound that is a variable: the upper bound of the
    subrange refers to the record of [n]. *)
Definition vla_unit : CompileUnit :=
  unit_of [10; 20; 40]
    [ mkDIE 0 10 "DW_TAG_base_type"
        [a_str "DW_AT_name" "int"; a_int "DW_AT_byte_size" 4;
         a_int "DW_AT_encoding" 5] [] (Some 0);
      mkDIE 0 20 "DW_TAG_array_type" [a_ref "DW_AT_type" 10] [30] (Some 0);
      mkDIE 0 30 "DW_TAG_subrange_type"
        [a_ref "DW_AT_type" 10; a_ref "DW_AT_upper_bound" 40] [] (Some 20);
      mkDIE 0 40 "DW_TAG_variable"
        [a_str "DW_AT_name" "n"; a_ref "DW_AT_type" 10; a_flag "DW_AT_artificial"]
        [] (Some 0) ].

Definition vla_heap : heap :=
  Eval vm_compute in
    store (run false false
             (@materialize sample_hash 10 (λ _, None) [vla_unit] 20)).1.

(** [rank] for the store of [struct node]: the two members above the
    structure and the types, [next] above the pointer. *)
Definition node_rank (o : id) : nat := nth o [0; 0; 1; 2; 1]%nat 0%nat.

(** Two records that describe [int]. *)
Definition int_die (offset : Z) : DIE :=
  mkDIE 0 offset "DW_TAG_base_type"
    [a_str "DW_AT_name" "int"; a_int "DW_AT_byte_size" 4;
     a_int "DW_AT_encoding" 5] [] (Some 0).

Definition ints_unit : CompileUnit :=
  unit_of [10; 60] [int_die 10; int_die 60].

(** The parser after both are parsed, duplicates allowed, and its store. *)
Definition ints_parser : TypeParser :=
  Eval vm_compute in
    (run true false
       (@materialize sample_hash 10 (λ _, None) [ints_unit] 20)).1.

Definition ints_heap : heap := Eval vm_compute in store ints_parser.

(** A structure whose members give their place as a number, as the
    expression [DW_OP_plus_uconst 8] and as the expression [DW_OP_fbreg 8]. *)
Definition loc_unit : CompileUnit :=
  unit_of [10; 20]
    [ mkDIE 0 10 "DW_TAG_base_type"
        [a_str "DW_AT_name" "int"; a_int "DW_AT_byte_size" 4;
         a_int "DW_AT_encoding" 5] [] (Some 0);
      mkDIE 0 20 "DW_TAG_structure_type"
        [a_str "DW_AT_name" "s"; a_int "DW_AT_byte_size" 12] [30; 40; 50]
        (Some 0);
      mkDIE 0 30 "DW_TAG_member"
        [a_str "DW_AT_name" "a"; a_ref "DW_AT_type" 10;
         a_int "DW_AT_data_member_location" 4] [] (Some 20);
      mkDIE 0 40 "DW_TAG_member"
        [a_str "DW_AT_name" "b"; a_ref "DW_AT_type" 10;
         a_block "DW_AT_data_member_location" [35; 8]] [] (Some 20);
      mkDIE 0 50 "DW_TAG_member"
        [a_str "DW_AT_name" "c"; a_ref "DW_AT_type" 10;
         a_block "DW_AT_data_member_location" [145; 8]] [] (Some 20) ].

Definition loc_heap : heap :=
  Eval vm_compute in
    store (run false false
             (@materialize sample_hash 10 (λ _, None) [loc_unit] 20)).1.

(** [enum X { A = 0 }] and [enum Y { A = 0, B = 1 }] (in two scopes). *)
Definition enum_unit : CompileUnit :=
  unit_of [10; 20]
    [ mkDIE 0 10 "DW_TAG_enumeration_type"
        [a_str "DW_AT_name" "X"; a_int "DW_AT_byte_size" 4] [11] (Some 0);
      mkDIE 0 11 "DW_TAG_enumerator"
        [a_str "DW_AT_name" "A"; a_int "DW_AT_const_value" 0] [] (Some 10);
      mkDIE 0 20 "DW_TAG_enumeration_type"
        [a_str "DW_AT_name" "Y"; a_int "DW_AT_byte_size" 4] [21; 22] (Some 0);
      mkDIE 0 21 "DW_TAG_enumerator"
        [a_str "DW_AT_name" "A"; a_int "DW_AT_const_value" 0] [] (Some 20);
      mkDIE 0 22 "DW_TAG_enumerator"
        [a_str "DW_AT_name" "B"; a_int "DW_AT_const_value" 1] [] (Some 20) ].

(** The parser after these records are parsed, duplicates allowed. *)
Definition enum_parser : TypeParser :=
  Eval vm_compute in
    (run true false
       (@materialize sample_hash 10 (λ _, None) [enum_unit] 20)).1.

(** [typedef int T;] twice. *)
Definition typedefs_unit : CompileUnit :=
  unit_of [10; 20; 30]
    [ int_die 10;
      mkDIE 0 20 "DW_TAG_typedef"
        [a_str "DW_AT_name" "T"; a_ref "DW_AT_type" 10] [] (Some 0);
      mkDIE 0 30 "DW_TAG_typedef"
        [a_str "DW_AT_name" "T"; a_ref "DW_AT_type" 10] [] (Some 0) ].

Definition typedefs_parser : TypeParser :=
  Eval vm_compute in
    (run true false
       (@materialize sample_hash 10 (λ _, None) [typedefs_unit] 20)).1.

(** [struct A { static int count; };] as g++ describes it up to DWARF 4,
    the static member as a member that is a declaration, and
    [struct B { int count; };]. *)
Definition static_unit : CompileUnit :=
  unit_of [10; 20; 40]
    [ int_die 10;
      mkDIE 0 20 "DW_TAG_structure_type"
        [a_str "DW_AT_name" "A"; a_int "DW_AT_byte_size" 1] [30] (Some 0);
      mkDIE 0 30 "DW_TAG_member"
        [a_str "DW_AT_name" "count"; a_ref "DW_AT_type" 10;
         a_flag "DW_AT_external"; a_flag "DW_AT_declaration"] [] (Some 20);
      mkDIE 0 40 "DW_TAG_structure_type"
        [a_str "DW_AT_name" "B"; a_int "DW_AT_byte_size" 4] [50] (Some 0);
      mkDIE 0 50 "DW_TAG_member"
        [a_str "DW_AT_name" "count"; a_ref "DW_AT_type" 10;
         a_int "DW_AT_data_member_location" 0] [] (Some 40) ].

(** A typedef [T] that is a declaration, a typedef [T] that is not, and a
    pointer to the first. *)
Definition typedef_decl_unit : CompileUnit :=
  unit_of [10; 20; 30; 40]
    [ int_die 10;
      mkDIE 0 20 "DW_TAG_typedef"
        [a_str "DW_AT_name" "T"; a_ref "DW_AT_type" 10;
         a_flag "DW_AT_declaration"] [] (Some 0);
      mkDIE 0 30 "DW_TAG_typedef"
        [a_str "DW_AT_name" "T"; a_ref "DW_AT_type" 10] [] (Some 0);
      mkDIE 0 40 "DW_TAG_pointer_type"
        [a_int "DW_AT_byte_size" 4; a_ref "DW_AT_type" 20] [] (Some 0) ].

(** [TypeParser(elf_file, allow_duplicates, catch_exceptions)] followed by
    the extraction of every record of one compile unit. *)
Definition extract (allow_duplicates : bool) (cu : CompileUnit)
  : TypeParser * res unit :=
  run allow_duplicates false
    (@_extract sample_hash 10 (λ _, None) [cu] 20 5).

End Samples.

(** ** The other scalar encoders of [Debuginfo.py] *)

Module DebugInfoEntries.
Import DebugInfo.

(** [bytes([value])]: one byte, a [ValueError] outside [range(0, 256)]. *)
Definition bytes_of_int (value : Z) : res (list Byte.byte) :=
  if (0 <=? value) && (value <? 256) then Ret [byte_of_Z value]
  else Raise (ValueError "bytes must be in range(0, 256)").

(** [bytes(value, "ascii", "strict")] for a string of one character: a
    character above 127 is a [UnicodeEncodeError], which is a
    [ValueError]. *)
Definition encode_ascii (value : string) : res (list Byte.byte) :=
  match value with
  | String c EmptyString =>
      if (Z.of_nat (Ascii.nat_of_ascii c) <? 128)
      then Ret [byte_of_Z (Z.of_nat (Ascii.nat_of_ascii c))]
      else Raise (ValueError "'ascii' codec can't encode character")
  | _ => Raise (ValueError "'ascii' codec can't encode character")
  end.

(** The table [escaped_characters] of [Char.to_bytes] and
    [UChar.to_bytes]: a backslash and a letter, and the byte it stands
    for. *)
Definition escaped_characters : list (string * Byte.byte) :=
  [("\a", Byte.x07); ("\b", Byte.x08); ("\f", Byte.x0c); ("\n", Byte.x0a);
   ("\r", Byte.x0d); ("\t", Byte.x09); ("\v", Byte.x0b); ("\0", Byte.x00)].

(** The string that is one backslash. *)
Definition backslash : string := String (Ascii.ascii_of_nat 92) EmptyString.

Fixpoint lookup_escaped (value : string) (table : list (string * Byte.byte))
  : option Byte.byte :=
  match table with
  | [] => None
  | (k, b) :: rest =>
      if String.eqb k value then Some b else lookup_escaped value rest
  end.

Section Encoders.
(** Python's [float], [int(float)], [int(str, base=0)], [float != 0.0],
    [str.lower()], [bytes.fromhex(str)] and [int(str, 8)] are taken as
    given. *)
Context {F : Type}.
Variable float_is_integral : F → bool.
Variable int_of_float : F → Z.
Variable int_of_str : string → option Z.
Variable float_is_zero : F → bool.
Variable str_lower : string → string.
Variable bytes_fromhex : string → option (list Byte.byte).
Variable int_of_str_octal : string → option Z.

(** [Void.to_bytes]. *)
Definition Void_to_bytes (value : ConvertibleValue F) : res (list Byte.byte) :=
  match value with
  | CNone => Ret []
  | _ => Raise (ValueError "value")
  end.

(** [Boolean.to_bytes]. *)
Definition Boolean_to_bytes (datawidth : option Z) (value : ConvertibleValue F)
  : res (list Byte.byte) :=
  match datawidth with
  | None => Raise AssertionError
  | Some w =>
      if w =? 0 then Ret []
      else
        bool_value ←
          match value with
          | CNone => Ret false
          | CInt z => Ret (negb (z =? 0))
          | CFloat f => Ret (negb (float_is_zero f))
          | CBool b => Ret b
          | CStr s =>
              if bool_decide (str_lower s ∈ ["true"; "yes"; "1"]) then Ret true
              else if bool_decide (str_lower s ∈ ["false"; "no"; "0"])
                   then Ret false
                   else Raise (ValueError "value")
          | _ => Raise (ValueError "value")
          end;
        Ret (repeat Byte.x00 (Z.to_nat (w - 1))
             ++ [if bool_value : bool then Byte.x01 else Byte.x00])
  end.

(** The branch of [Char.to_bytes] and [UChar.to_bytes] for a string; the
    two methods have the same text there. *)
Definition char_of_str (value : string) : res (list Byte.byte) :=
  if (String.length value =? 0)%nat then Ret [Byte.x00]
  else if (String.length value =? 1)%nat then encode_ascii value
  else
    match lookup_escaped value escaped_characters with
    | Some b => Ret [b]
    | None =>
        if (String.length value =? 4)%nat
           && (String.prefix "0x" value || String.prefix "\x" value)
        then match bytes_fromhex (String.substring 2 2 value) with
             | Some bs => Ret bs
             | None => Raise (ValueError "non-hexadecimal number found")
             end
        else if (String.length value =? 4)%nat && String.prefix backslash value
        then match int_of_str_octal (String.substring 1 3 value) with
             | Some n => bytes_of_int n
             | None => Raise (ValueError "invalid literal for int()")
             end
        else Raise (ValueError "value")
    end.

(** [Char.to_bytes]. *)
Definition Char_to_bytes (datawidth : option Z) (value : ConvertibleValue F)
  : res (list Byte.byte) :=
  if bool_decide (datawidth = Some 1) then
    match value with
    | CNone => Ret [Byte.x00]
    | CInt z =>
        if (z <? -128) || (127 <? z) then Raise (ValueError "value")
        else bytes_of_int (if z <? 0 then z + 256 else z)
    | CBool b => Ret [if b then Byte.x01 else Byte.x00]
    | CFloat _ => Raise (ValueError "value")
    | CStr s => char_of_str s
    | _ => Raise (ValueError "value")
    end
  else Raise AssertionError.

(** [UChar.to_bytes]. *)
Definition UChar_to_bytes (datawidth : option Z) (value : ConvertibleValue F)
  : res (list Byte.byte) :=
  if bool_decide (datawidth = Some 1) then
    match value with
    | CNone => Ret [Byte.x00]
    | CInt z =>
        if (z <? 0) || (255 <? z) then Raise (ValueError "value")
        else bytes_of_int z
    | CBool b => Ret [if b then Byte.x01 else Byte.x00]
    | CFloat _ => Raise (ValueError "value")
    | CStr s => char_of_str s
    | _ => Raise (ValueError "value")
    end
  else Raise AssertionError.

(** [UInt.lower_limit], [UInt.upper_limit] and [UInt.to_bytes]. *)
Definition UInt_lower_limit : res Z := Ret 0.

Definition UInt_upper_limit (datawidth : option Z) : res Z :=
  match datawidth with
  | None => Raise AssertionError
  | Some w => p ← py_shl1 (w * 8); Ret (p - 1)
  end.

Definition UInt_to_bytes (datawidth : option Z) (value : ConvertibleValue F)
  : res (list Byte.byte) :=
  match datawidth with
  | None => Raise AssertionError
  | Some w =>
      value' ← match value with
               | CNone => Ret (CInt 0)
               | CFloat f =>
                   if float_is_integral f then Ret (CInt (int_of_float f))
                   else Raise (ValueError "value")
               | CBool b => Ret (CInt (if b then 1 else 0))
               | CStr s =>
                   match int_of_str s with
                   | Some z => Ret (CInt z)
                   | None => Raise (ValueError "invalid literal for int()")
                   end
               | v => Ret v
               end;
      match value' with
      | CInt z =>
          lo ← UInt_lower_limit;
          if z <? lo then Raise (ValueError "value")
          else
            hi ← UInt_upper_limit datawidth;
            if hi <? z then Raise (ValueError "value")
            else int_to_bytes z w false
      | _ => Raise (ValueError "value")
      end
  end.

(** [Address.to_bytes]: as [UInt.to_bytes], but only [None], a string
    and an integer are converted. *)
Definition Address_to_bytes (datawidth : option Z) (value : ConvertibleValue F)
  : res (list Byte.byte) :=
  match datawidth with
  | None => Raise AssertionError
  | Some w =>
      value' ← match value with
               | CNone => Ret (CInt 0)
               | CStr s =>
                   match int_of_str s with
                   | Some z => Ret (CInt z)
                   | None => Raise (ValueError "invalid literal for int()")
                   end
               | v => Ret v
               end;
      match value' with
      | CInt z =>
          lo ← UInt_lower_limit;
          if z <? lo then Raise (ValueError "value")
          else
            hi ← UInt_upper_limit datawidth;
            if hi <? z then Raise (ValueError "value")
            else int_to_bytes z w false
      | _ => Raise (ValueError "value")
      end
  end.

(** [Pointer.to_bytes] and [Reference.to_bytes], which have the same
    text: the bound is written out as [1 << (datawidth * 8)]. *)
Definition Pointer_to_bytes (datawidth : option Z) (value : ConvertibleValue F)
  : res (list Byte.byte) :=
  match datawidth with
  | None => Raise AssertionError
  | Some w =>
      value' ← match value with
               | CNone => Ret (CInt 0)
               | CStr s =>
                   match int_of_str s with
                   | Some z => Ret (CInt z)
                   | None => Raise (ValueError "invalid literal for int()")
                   end
               | v => Ret v
               end;
      match value' with
      | CInt z =>
          if z <? 0 then Raise (ValueError "value")
          else
            bound ← py_shl1 (w * 8);
            if bound <=? z then Raise (ValueError "value")
            else int_to_bytes z w false
      | _ => Raise (ValueError "value")
      end
  end.
End Encoders.

(** [0 <= z < 2^(8w)]. *)
Definition in_unsigned_range (w z : Z) : Prop := 0 <= z < 2 ^ (8 * w).

(** The value a byte string denotes read from the left (big-endian). *)
Definition be_value (bs : list Byte.byte) : Z := le_value (rev bs).

End DebugInfoEntries.

(** ** Notions used to state what the passes over the table do *)

Section TableNotions.
Context `{PyHash}.
Variable fuel : nat.

(** The typed attribute [attr_name] of [tag] is one that
    [_validate_references] and [_remove_duplicates] look at: [tag] is in
    a list of the table of a class whose classes above declare
    [attr_name]. *)
Definition scanned (p : TypeParser) (tag : id) (attr_name : string) : Prop :=
  ∃ class_ hash_TAG_dicts,
    (class_, hash_TAG_dicts) ∈ _TAG_class_hash_dict p
    ∧ tag ∈ concat (dict_values hash_TAG_dicts)
    ∧ attr_name ∈ typed_attr_names class_.

(** The attribute [attr_name] of [tag] (its element [idx], for a list)
    holds something that [_is_tag_in_tag_list] does not find. *)
Definition invalid_reference (p : TypeParser) (tag : id) (attr_name : string)
  (idx : option nat) : Prop :=
  match getattr (store p) tag attr_name, idx with
  | Ret (PRef t), None => _is_tag_in_tag_list fuel p t = Ret false
  | Ret (PTags l), Some i =>
      ∃ t, l !! i = Some t ∧ _is_tag_in_tag_list fuel p t = Ret false
  | Ret (PInts l), Some i => (i < length l)%nat
  | _, _ => False
  end.

(** No TAG of the list is a TAG before it in the list or equal to one:
    what [x in hash_uniques] tests in [_get_duplicates]. *)
Fixpoint pairwise_unequal (h : heap) (seen l : list id) : Prop :=
  match l with
  | [] => True
  | x :: l' =>
      find_equal fuel h x seen = Ret None
      ∧ pairwise_unequal h (seen ++ [x]) l'
  end.
End TableNotions.

(** The loop [for attr in update_attributes: self.__setattr__(attr, ...)]
    of [Declarable.update_from], as a function of the store. *)
Definition set_all (self : id) (attrs : list (string * pyv)) (h : heap) : heap :=
  foldl (λ h' av, setattr h' self av.1 av.2) h attrs.

(** The list that the attribute [a] of [o] holds contains [x]. *)
Definition listed (h : heap) (o : id) (a : string) (x : id) : Prop :=
  ∃ l, getattr h o a = Ret (PTags l) ∧ x ∈ l.


(** The TAG [tag] is unparsed, and since it became so the table of sorted
    TAGs is [table] and the unsorted TAGs have grown from [unsorted]. *)
Definition deferred (tag : id) (table : list (cls * list (Z * list id)))
  (unsorted : list id) (p : TypeParser) : Prop :=
  tag ∈ _unparsed_TAGs p
  ∧ (tag < length (store p))%nat
  ∧ _TAG_class_hash_dict p = table
  ∧ unsorted `prefix_of` _unsorted_TAGs p.

(** The two switches of the parser are set as given. *)
Definition settings (allow_duplicates catch : bool) (p : TypeParser) : Prop :=
  _allow_duplicates p = allow_duplicates ∧ catch_exceptions p = catch.
(** ** More sample records *)

Module MoreSamples.
Import Samples.

(** A pointer type whose [DW_AT_type] refers to no record, and [int]. *)
Definition broken_die : DIE :=
  mkDIE 0 10 "DW_TAG_pointer_type"
    [a_int "DW_AT_byte_size" 4; a_ref "DW_AT_type" 99] [] (Some 0).

Definition broken_unit : CompileUnit :=
  unit_of [10; 20] [broken_die; int_die 20].

(** The parser that catches exceptions, after the pointer type failed to
    parse. *)
Definition broken_parser : TypeParser :=
  Eval vm_compute in
    (run false true
       (@_extract_die sample_hash 10 (λ _, None) [broken_unit] 20
          broken_die)).1.

End MoreSamples.
(** ** The enumeration and array encoders of [Debuginfo.py] *)

Module DebugInfoComposite.

(** [bytearray(n)]: [n] zero bytes, a [ValueError] for a negative [n]. *)
Definition bytearray (n : Z) : res (list Byte.byte) :=
  if n <? 0 then Raise (ValueError "negative count")
  else Ret (replicate (Z.to_nat n) Byte.x00).

(** The bound [i] of a slice of a sequence of [len] elements, as Python
    adjusts it: counted from the end when negative, and clipped. *)
Definition adjust_index (len i : Z) : Z :=
  if i <? 0 then Z.max 0 (i + len) else Z.min i len.

(** [b[start:stop] = e] on a [bytearray]. *)
Definition setslice (b : list Byte.byte) (start stop : Z) (e : list Byte.byte)
  : list Byte.byte :=
  let len := Z.of_nat (length b) in
  let lo := adjust_index len start in
  let hi := Z.max lo (adjust_index len stop) in
  take (Z.to_nat lo) b ++ e ++ drop (Z.to_nat hi) b.

Section Composite.
(** Python's [float] is opaque: no encoder here looks into one. *)
Context {F : Type}.

(** [ConvertibleValue] with the elements of the lists. *)
Inductive Value : Type :=
| VNone
| VBool (b : bool)
| VStr (s : string)
| VFloat (f : F)
| VInt (z : Z)
| VList (l : list Value)
| VObject.

(** What the encoders ask of the entry an attribute [type] refers to. *)
Record DebugInfoEntry : Type := mkDebugInfoEntry {
  get_datawidth : option Z;
  to_bytes : Value → res (list Byte.byte)
}.

Record Enumerator : Type := mkEnumerator {
  value : Z;
  representation : string
}.

(** [Enumeration.get_datawidth] (as [Typedef.get_datawidth] and
    [Variable.get_datawidth]). *)
Definition Enumeration_get_datawidth (datawidth : option Z)
  (type : option DebugInfoEntry) : option Z :=
  match datawidth with
  | Some w => Some w
  | None =>
      match type with
      | Some t => get_datawidth t
      | None => None
      end
  end.

(** The body of the loop [for val in value_list] of
    [Enumeration.to_bytes]. *)
Definition Enumeration_or (enumerators : list Enumerator) (integer_value : Z)
  (val : Value) : res Z :=
  match val with
  | VInt z => Ret (Z.lor integer_value z)
  | VBool b => Ret (Z.lor integer_value (if b then 1 else 0))
  | VStr s =>
      match filter (λ e, representation e = s) enumerators with
      | [] => Raise (ValueError "Unknown enumerator")
      | e :: _ => Ret (Z.lor integer_value (value e))
      end
  | _ => Raise (ValueError "Enumeration value must be an integer, a string or a list of those")
  end.

(** [Enumeration.to_bytes]. *)
Definition Enumeration_to_bytes (datawidth : option Z)
  (type : option DebugInfoEntry) (enumerators : list Enumerator)
  (val : Value) : res (list Byte.byte) :=
  match Enumeration_get_datawidth datawidth type with
  | None => Raise AssertionError
  | Some datawidth =>
      let val := match val with VNone => VInt 0 | _ => val end in
      value_list ← match val with
                   | VInt _ | VBool _ | VStr _ => Ret [val]
                   | VList l => Ret l
                   | _ => Raise (ValueError "Enumeration value must be an integer, a string or a list of those")
                   end;
      integer_value ←
        foldl (λ acc v, iv ← acc; Enumeration_or enumerators iv v)
              (Ret 0) value_list;
      match type with
      | Some t => to_bytes t (VInt integer_value)
      | None =>
          integer_value ←
            (if integer_value <? 0
             then p ← DebugInfo.py_shl1 (datawidth * 8);
                  Ret (integer_value + p)
             else Ret integer_value);
          DebugInfo.int_to_bytes integer_value datawidth false
      end
  end.

(** [Array.get_stride] and the product
    [reduce(lambda a, b: a * b, dimensions, 1)]. *)
Definition Array_get_stride (stride : option Z) (type : DebugInfoEntry)
  : option Z :=
  match stride with
  | Some s => Some s
  | None => get_datawidth type
  end.

Definition product (dimensions : list Z) : Z := foldl Z.mul 1 dimensions.

(** The loop [for i in range(...)] of [Array._to_bytes] over the elements
    from index [i] on; [element] is the recursive call. *)
Fixpoint Array_fill (element : Value → res (list Byte.byte)) (stride : Z)
  (i : Z) (values : list Value) (bytes_ : list Byte.byte)
  : res (list Byte.byte) :=
  match values with
  | [] => Ret bytes_
  | v :: rest =>
      element_bytes ← element v;
      Array_fill element stride (i + 1) rest
        (setslice bytes_ (i * stride)
           (i * stride + Z.of_nat (length element_bytes)) element_bytes)
  end.

(** [Array._to_bytes(value, dim_idx)], by the dimensions from [dim_idx]
    on: [self.dimensions[dim_idx:]]. *)
Fixpoint Array__to_bytes (stride : option Z) (type : DebugInfoEntry)
  (dimensions : list Z) (val : Value) : res (list Byte.byte) :=
  match dimensions with
  | [] => to_bytes type val
  | n :: rest =>
      match val with
      | VList l =>
          if bool_decide (Z.of_nat (length l) ≠ n)
          then Raise (ValueError "Value must contain as many elements as the dimension")
          else
            match Array_get_stride stride type with
            | None => Raise AssertionError
            | Some stride' =>
                bytes_ ← bytearray (stride' * product dimensions);
                Array_fill (Array__to_bytes stride type rest) stride' 0 l
                  bytes_
            end
      | _ => Raise (ValueError "Not a list")
      end
  end.

(** [Array.to_bytes]. *)
Definition Array_to_bytes (stride : option Z) (type : DebugInfoEntry)
  (dimensions : list Z) (val : Value) : res (list Byte.byte) :=
  Array__to_bytes stride type dimensions val.

(** An element padded with zero bytes to the stride of the array. *)
Definition padded (stride : Z) (e : list Byte.byte) : list Byte.byte :=
  e ++ replicate (Z.to_nat stride - length e) Byte.x00.

(** Rows laid over each other at a distance of [stride] bytes: of every
    row but the last its first [stride] bytes, and the last row in full. *)
Definition overlapped (stride : nat) (rows : list (list Byte.byte))
  : list Byte.byte :=
  concat (map (take stride) (removelast rows)) ++ default [] (last rows).

(** What an element of the list handed to [Enumeration.to_bytes] stands
    for. *)
Inductive denotes (enumerators : list Enumerator) : Value → Z → Prop :=
| denotes_int z : denotes enumerators (VInt z) z
| denotes_bool b : denotes enumerators (VBool b) (if b then 1 else 0)
| denotes_str s e rest :
    filter (λ e, representation e = s) enumerators = e :: rest →
    denotes enumerators (VStr s) (value e).
End Composite.

Arguments Value : clear implicits.
Arguments DebugInfoEntry : clear implicits.

End DebugInfoComposite.
(** * Facts *)

(** ** Results *)

Local Open Scope res_scope.

Lemma res_bind_Ret {A B} (f : A → res B) (m : res A) (b : B) :
  m ≫= f = Ret b → ∃ a, m = Ret a ∧ f a = Ret b.
Proof. destruct m as [a| |]; simpl; intros E; try discriminate. eauto. Qed.

Lemma and_then_true (x y : res bool) :
  x &&& y = Ret true → x = Ret true ∧ y = Ret true.
Proof.
  destruct x as [[]| |]; simpl; intros E; try discriminate. auto.
Qed.

Lemma all_of_cons_true (x : res bool) (l : list (res bool)) :
  all_of (x :: l) = Ret true → x = Ret true ∧ all_of l = Ret true.
Proof.
  simpl. destruct x as [[]| |]; simpl; try discriminate;
    destruct (all_of l) as [[]| |]; simpl; try discriminate; auto.
Qed.

Lemma all_of_Raise (e : exn) (l : list (res bool)) :
  all_of (Raise e :: l) = Raise e.
Proof. reflexivity. Qed.

Lemma and_then_Raise (e : exn) (y : res bool) : Raise e &&& y = Raise e.
Proof. reflexivity. Qed.

Lemma and_then_not_OutOfFuel (x y : res bool) :
  x ≠ OutOfFuel → y ≠ OutOfFuel → x &&& y ≠ OutOfFuel.
Proof. destruct x as [[]| |]; simpl; congruence. Qed.

Lemma all_of_not_OutOfFuel (l : list (res bool)) :
  Forall (λ x, x ≠ OutOfFuel) l → all_of l ≠ OutOfFuel.
Proof.
  induction 1 as [|x l Hx _ IH]; simpl; [congruence|].
  destruct x as [b| |]; simpl; try congruence.
  destruct (all_of l); simpl; congruence.
Qed.

Lemma bind_not_OutOfFuel {A B} (m : res A) (f : A → res B) :
  m ≠ OutOfFuel → (∀ a, f a ≠ OutOfFuel) → m ≫= f ≠ OutOfFuel.
Proof. destruct m; simpl; auto. Qed.

Lemma sequence_not_OutOfFuel {A} (l : list (res A)) :
  Forall (λ x, x ≠ OutOfFuel) l → sequence l ≠ OutOfFuel.
Proof.
  induction 1 as [|x l Hx _ IH]; simpl; [congruence|].
  apply bind_not_OutOfFuel; [assumption|]. intros a.
  apply bind_not_OutOfFuel; [assumption|]. congruence.
Qed.

Lemma getattr_not_OutOfFuel (h : heap) (o : id) (f : string) :
  getattr h o f ≠ OutOfFuel.
Proof.
  unfold getattr. destruct (h !! o) as [ob|]; [|congruence].
  destruct (oattrs ob !! f); congruence.
Qed.

Lemma class_of_not_OutOfFuel (h : heap) (o : id) : class_of h o ≠ OutOfFuel.
Proof. unfold class_of. destruct (h !! o); congruence. Qed.

Lemma as_tags_not_OutOfFuel (v : pyv) : as_tags v ≠ OutOfFuel.
Proof. destruct v as [| | | |[|]| |]; simpl; congruence. Qed.

Lemma as_tags_tags_of (v : pyv) (l : list id) :
  as_tags v = Ret l → l = tags_of v.
Proof.
  destruct v as [| | | |[|]| |]; simpl; intros E; try discriminate;
    injection E as <-; reflexivity.
Qed.
(** ** Facts about the integer encoder *)

Module DebugInfoFacts.
Import DebugInfo.

Lemma Z_of_byte_of_Z (z : Z) : Z_of_byte (byte_of_Z z) = z mod 256.
Proof.
  unfold Z_of_byte, byte_of_Z.
  assert (Hr : 0 <= z mod 256 < 256) by (apply Z.mod_pos_bound; lia).
  destruct (Byte.of_N (Z.to_N (z mod 256))) as [b|] eqn:E; simpl.
  - apply Byte.to_of_N in E. rewrite E. lia.
  - apply Byte.of_N_None_iff in E. lia.
Qed.

Lemma le_value_shifts (z : Z) (n k : nat) :
  le_value (map (λ i : nat, byte_of_Z (Z.shiftr z (8 * Z.of_nat i))) (seq k n))
  = Z.shiftr z (8 * Z.of_nat k) mod 2 ^ (8 * Z.of_nat n).
Proof.
  revert k. induction n as [|n IH]; intros k.
  - simpl. rewrite Z.mod_1_r. reflexivity.
  - cbn [seq map le_value]. rewrite IH, Z_of_byte_of_Z.
    replace (8 * Z.of_nat (S n)) with (8 + 8 * Z.of_nat n) by lia.
    replace (8 * Z.of_nat (S k)) with (8 * Z.of_nat k + 8) by lia.
    rewrite <- Z.shiftr_shiftr by lia.
    set (y := Z.shiftr z (8 * Z.of_nat k)).
    rewrite Z.shiftr_div_pow2 by lia.
    rewrite Z.pow_add_r by lia.
    change (2 ^ 8) with 256.
    rewrite Z.rem_mul_r by lia. reflexivity.
Qed.

Lemma int_to_bytes_signed_fits (z w : Z) :
  0 < w → - 2 ^ (8 * w - 1) <= z < 2 ^ (8 * w - 1) →
  ∃ bs, int_to_bytes z w true = Ret bs
        ∧ Z.of_nat (length bs) = w
        ∧ le_value bs = z mod 2 ^ (8 * w).
Proof.
  intros Hw Hz. unfold int_to_bytes.
  destruct (Z.ltb_spec w 0); [lia|].
  destruct (Z.eqb_spec (8 * w) 0); [lia|].
  destruct (Z.leb_spec (- 2 ^ (8 * w - 1)) z); [|lia].
  destruct (Z.ltb_spec z (2 ^ (8 * w - 1))); [|lia].
  simpl. eexists; split; [reflexivity|]. split.
  - rewrite length_map, length_seq. lia.
  - rewrite le_value_shifts. rewrite Z.shiftr_0_r.
    rewrite Z2Nat.id by lia. reflexivity.
Qed.

Section IntFacts.
Context {F : Type}.
Variable float_is_integral : F → bool.
Variable int_of_float : F → Z.
Variable int_of_str : string → option Z.

Local Abbreviation to_bytes :=
  (to_bytes float_is_integral int_of_float int_of_str).

(** C10.  For a signed-integer entry of datawidth [w] and an integer [z]:
    [to_bytes] raises [ValueError] exactly when [z] lies outside
    [-(2^(8w-1)) .. 2^(8w-1)-1]; when [z] is inside it returns exactly [w]
    bytes, whose little-endian value is [z] modulo [2^(8w)] (the two's
    complement encoding); and [None] is encoded as [0] is. *)
Theorem Int_to_bytes_range (w z : Z) :
  (is_ValueError (to_bytes (Some w) (CInt z)) ↔ ¬ in_range w z)
  ∧ (in_range w z →
     ∃ bs, to_bytes (Some w) (CInt z) = Ret bs
           ∧ Z.of_nat (length bs) = w
           ∧ le_value bs = z mod 2 ^ (8 * w))
  ∧ to_bytes (Some w) CNone = to_bytes (Some w) (CInt 0).
Proof.
  assert (Hneg : w <= 0 → ¬ in_range w z).
  { intros Hw [H1 H2].
    rewrite Z.pow_neg_r in H1, H2 by lia. lia. }
  split; [|split]; [| |reflexivity].
  - unfold to_bytes, lower_limit, upper_limit, py_shl1. cbn [mbind res_bind].
    destruct (Z.ltb_spec (w * 8 - 1) 0) as [Hw|Hw]; cbn [mbind res_bind].
    + split; [intros _; apply Hneg; lia | intros _; exact I].
    + replace (w * 8 - 1) with (8 * w - 1) by lia.
      destruct (Z.ltb_spec z (- 2 ^ (8 * w - 1))) as [Hlo|Hlo].
      * split; [intros _ [? ?]; lia | intros _; exact I].
      * destruct (Z.ltb_spec (2 ^ (8 * w - 1) - 1) z) as [Hhi|Hhi].
        -- split; [intros _ [? ?]; lia | intros _; exact I].
        -- destruct (int_to_bytes_signed_fits z w) as (bs & -> & _); [lia|lia|].
           split; [intros [] | intros Hn; apply Hn; split; lia].
  - intros [H1 H2].
    assert (Hw : 0 < w).
    { destruct (Z.ltb_spec 0 w); [assumption|]. exfalso.
      apply (Hneg ltac:(lia)). split; assumption. }
    unfold to_bytes, lower_limit, upper_limit, py_shl1. cbn [mbind res_bind].
    destruct (Z.ltb_spec (w * 8 - 1) 0); [lia|]. cbn [mbind res_bind].
    replace (w * 8 - 1) with (8 * w - 1) by lia.
    destruct (Z.ltb_spec z (- 2 ^ (8 * w - 1))); [lia|].
    destruct (Z.ltb_spec (2 ^ (8 * w - 1) - 1) z); [lia|].
    apply int_to_bytes_signed_fits; lia.
Qed.
End IntFacts.

(** A two-byte entry: [-2] is in range and is encoded as [fe ff]. *)
Lemma Int_to_bytes_range_witness :
  in_range 2 (-2)
  ∧ ∃ bs, DebugInfo.to_bytes (λ _ : unit, true) (λ _, 0) (λ _, None)
            (Some 2) (CInt (-2)) = Ret bs
          ∧ Z.of_nat (length bs) = 2
          ∧ le_value bs = (-2) mod 2 ^ (8 * 2).
Proof.
  assert (H : in_range 2 (-2)) by (unfold in_range; simpl; lia).
  split; [exact H|].
  exact (proj1 (proj2 (Int_to_bytes_range (λ _ : unit, true) (λ _, 0) (λ _, None) 2 (-2))) H).
Defined.

End DebugInfoFacts.
(** ** Comparing a TAG that is not parsed yet *)

Section Unparsed.
Variable h : heap.
Variable rec : id → id → res bool.
Variables a b : id.
Variables oa ob : obj.
Variables pa pb : bool.
Hypothesis Ha : h !! a = Some oa.
Hypothesis Hb : h !! b = Some ob.
Hypothesis Hpa : oattrs oa !! "parsed" = Some (PBool pa).
Hypothesis Hpb : oattrs ob !! "parsed" = Some (PBool pb).
Hypothesis Hunparsed : pa && pb = false.

Local Abbreviation unparsed :=
  (Raise (Exception_ "Cannot compare unparsed Abstract TAGs") : res bool).

Lemma AbstractTAG_eq_unparsed : AbstractTAG_eq h rec a b = unparsed.
Proof using Ha Hb Hpa Hpb Hunparsed.
  unfold AbstractTAG_eq, getattr. rewrite Ha, Hb, Hpa, Hpb. simpl.
  destruct pa, pb; try discriminate; reflexivity.
Qed.

Lemma AbstractType_eq_unparsed : AbstractType_eq h rec a b = unparsed.
Proof using Ha Hb Hpa Hpb Hunparsed.
  unfold AbstractType_eq. rewrite AbstractTAG_eq_unparsed. reflexivity.
Qed.

Lemma AbstractModifierType_eq_unparsed :
  AbstractModifierType_eq h rec a b = unparsed.
Proof using Ha Hb Hpa Hpb Hunparsed.
  unfold AbstractModifierType_eq. rewrite AbstractType_eq_unparsed.
  reflexivity.
Qed.

Lemma eq_method_unparsed (c : cls) : eq_method h rec c a b = unparsed.
Proof using Ha Hb Hpa Hpb Hunparsed.
  destruct c; cbn [eq_method];
    unfold BaseType_eq, UnspecifiedType_eq, TypeDefType_eq, StructureType_eq,
      StructureUnionClassAbstractType_eq, Member_eq, Enumerator_eq,
      EnumerationType_eq, AlignedModifier_eq, PlainModifier_eq,
      PointerType_eq, SharedType_eq, Subrange_eq, ArrayType_eq,
      FormalParameter_eq, SubroutineType_eq, Variable_eq, Namespace_eq;
    rewrite ?AbstractModifierType_eq_unparsed, ?AbstractType_eq_unparsed,
      ?AbstractTAG_eq_unparsed;
    reflexivity.
Qed.
End Unparsed.

(** ** Equal TAGs have equal hashes *)

(** Hashing a tuple looks at the hashes of its elements only. *)
Section TupleCongr.
Context `{PyHash}.
Variables R R' : id → res Z.

(** Two tuple elements that hash alike, the left one hashed with [R] and
    the right one with [R']. *)
Definition item_rel (i j : res hitem) : Prop :=
  match i, j with
  | Ret v, Ret w => hash_item R v = hash_item R' w
  | Raise e, Raise e' => e = e'
  | OutOfFuel, OutOfFuel => True
  | _, _ => False
  end.

Lemma hash_of_tuple_congr (l l' : list (res hitem)) :
  Forall2 item_rel l l' → hash_of_tuple R l = hash_of_tuple R' l'.
Proof.
  intros HF. unfold hash_of_tuple.
  assert (Hs : match sequence l, sequence l' with
               | Ret vs, Ret ws => map (hash_item R) vs = map (hash_item R') ws
               | Raise e, Raise e' => e = e'
               | OutOfFuel, OutOfFuel => True
               | _, _ => False
               end).
  { induction HF as [|i j l l' Hij _ IH]; [reflexivity|].
    cbn [sequence].
    destruct i as [v|e|], j as [w|e'|]; simpl in Hij; try contradiction;
      simpl; auto.
    destruct (sequence l) as [vs|e|], (sequence l') as [ws|e'|];
      simpl in *; try contradiction; auto.
    rewrite Hij, IH. reflexivity. }
  destruct (sequence l) as [vs|e|], (sequence l') as [ws|e'|];
    simpl in *; try contradiction; try congruence.
Qed.

Lemma item_rel_bind (i j : res hitem) (k k' : hitem → res Z) :
  item_rel i j →
  (∀ v w, hash_item R v = hash_item R' w → k v = k' w) →
  i ≫= k = j ≫= k'.
Proof.
  destruct i as [v|e|], j as [w|e'|]; simpl; try contradiction; auto.
  intros ->. reflexivity.
Qed.
End TupleCongr.

Lemma item_rel_refl `{PyHash} (R : id → res Z) (i : res hitem) :
  item_rel R R i i.
Proof. destruct i; simpl; auto. Qed.

Section HashRespectsEq.
Context `{PyHash}.
Variable h : heap.
Variable E : id → id → res bool.
Variable R : id → res Z.
(** What the recursive calls satisfy. *)
Hypothesis HER : ∀ a b, E a b = Ret true → R a = R b.

Lemma list_eq_from_hashes (l l' : list id) :
  length l = length l' → list_eq_from E l l' = Ret true →
  map R l = map R l'.
Proof using HER.
  revert l'. induction l as [|a l IH]; intros [|b l'] Hlen Heq;
    try discriminate; [reflexivity|].
  cbn [list_eq_from] in Heq. cbn [map].
  destruct (decide (a = b)) as [->|Hne].
  - f_equal. apply IH; [simpl in Hlen; lia | assumption].
  - apply res_bind_Ret in Heq as ([] & Hab & Heq); [|discriminate].
    rewrite (HER _ _ Hab). f_equal.
    apply IH; [simpl in Hlen; lia | assumption].
Qed.

Lemma py_eq_true_cases (x y : pyv) :
  py_eq E x y = Ret true →
  (∃ z, as_int x = Some z ∧ as_int y = Some z)
  ∨ (x = PNone ∧ y = PNone)
  ∨ (∃ s, x = PStr s ∧ y = PStr s)
  ∨ (∃ l, x = PInts l ∧ y = PInts l)
  ∨ (∃ a b, x = PRef a ∧ y = PRef b ∧ E a b = Ret true)
  ∨ (∃ l l', x = PTags l ∧ y = PTags l' ∧ map R l = map R l')
  ∨ (x = PInts [] ∧ y = PTags [])
  ∨ (x = PTags [] ∧ y = PInts []).
Proof using HER.
  intros Heq.
  destruct x as [|bx|zx|sx|lx|ax|lx], y as [|by_|zy|sy|ly|ay|ly];
    cbn in Heq; try discriminate.
  - right; left; auto.
  - left. injection Heq as Heq. apply Z.eqb_eq in Heq.
    exists (Z.b2z bx). simpl. rewrite Heq. auto.
  - left. injection Heq as Heq. apply Z.eqb_eq in Heq.
    exists zy. simpl. rewrite Heq. auto.
  - left. injection Heq as Heq. apply Z.eqb_eq in Heq.
    exists zx. simpl. rewrite Heq. auto.
  - left. injection Heq as Heq. apply Z.eqb_eq in Heq. subst. simpl. eauto.
  - injection Heq as Heq. apply bool_decide_eq_true in Heq. subst.
    do 2 right; left; eauto.
  - injection Heq as Heq. apply bool_decide_eq_true in Heq. subst.
    do 3 right; left; eauto.
  - injection Heq as Heq. apply andb_true_iff in Heq as [H1 H2].
    apply bool_decide_eq_true in H1, H2. subst. do 6 right; left; auto.
  - do 4 right; left; eauto.
  - injection Heq as Heq. apply andb_true_iff in Heq as [H1 H2].
    apply bool_decide_eq_true in H1, H2. subst. do 7 right; auto.
  - destruct (bool_decide (length lx = length ly)) eqn:Hlen;
      [|discriminate].
    apply bool_decide_eq_true in Hlen.
    do 5 right; left. exists lx, ly. repeat split.
    apply list_eq_from_hashes; assumption.
Qed.

Lemma py_eq_hash_val (x y : pyv) :
  py_eq E x y = Ret true → hash_val R x = hash_val R y.
Proof using HER.
  intros Heq. apply py_eq_true_cases in Heq
    as [(z & Hx & Hy)|[[-> ->]|[(s & -> & ->)|[(l & -> & ->)|
        [(a & b & -> & -> & Hab)|[(l & l' & -> & -> & _)|[[-> ->]|[-> ->]]]]]]]];
    try reflexivity.
  - destruct x, y; simpl in Hx, Hy; try discriminate;
      injection Hx as <-; injection Hy as Hy; simpl; rewrite ?Hy; reflexivity.
  - simpl. auto.
Qed.

Lemma py_eq_is_list (x y : pyv) :
  py_eq E x y = Ret true → is_list x = is_list y.
Proof using HER.
  intros Heq. apply py_eq_true_cases in Heq
    as [(z & Hx & Hy)|[[-> ->]|[(s & -> & ->)|[(l & -> & ->)|
        [(a & b & -> & -> & Hab)|[(l & l' & -> & -> & _)|[[-> ->]|[-> ->]]]]]]]];
    try reflexivity.
  destruct x, y; simpl in Hx, Hy; try discriminate; reflexivity.
Qed.

Lemma py_eq_hash_tuple_of_list (x y : pyv) :
  py_eq E x y = Ret true →
  hash_tuple_of_list R x = hash_tuple_of_list R y.
Proof using HER.
  intros Heq. apply py_eq_true_cases in Heq
    as [(z & Hx & Hy)|[[-> ->]|[(s & -> & ->)|[(l & -> & ->)|
        [(a & b & -> & -> & Hab)|[(l & l' & -> & -> & Hl)|[[-> ->]|[-> ->]]]]]]]];
    try reflexivity.
  - destruct x, y; simpl in Hx, Hy; try discriminate; reflexivity.
  - simpl. rewrite Hl. reflexivity.
Qed.

Local Abbreviation item_equiv := (item_rel R R).

Section Attr.
Variables a b : id.

Lemma attr_eq_inv (f : string) :
  attr_eq h E f a b = Ret true →
  ∃ x y, getattr h a f = Ret x ∧ getattr h b f = Ret y
         ∧ py_eq E x y = Ret true.
Proof.
  unfold attr_eq. intros Heq.
  apply res_bind_Ret in Heq as (x & Hx & Heq).
  apply res_bind_Ret in Heq as (y & Hy & Heq). eauto.
Qed.

Lemma attr_equiv (f : string) :
  attr_eq h E f a b = Ret true → item_equiv (attr h a f) (attr h b f).
Proof using HER.
  intros (x & y & Hx & Hy & Hxy)%attr_eq_inv. unfold attr. rewrite Hx, Hy. simpl.
  auto using py_eq_hash_val.
Qed.

Lemma attr_hash_eq (f : string) :
  attr_eq h E f a b = Ret true →
  (getattr h a f ≫= hash_val R) = (getattr h b f ≫= hash_val R).
Proof using HER.
  intros (x & y & Hx & Hy & Hxy)%attr_eq_inv.
  rewrite Hx, Hy. simpl. auto using py_eq_hash_val.
Qed.

Lemma list_or_value_equiv (f : string) :
  attr_eq h E f a b = Ret true →
  item_equiv (list_or_value_hash h R a f) (list_or_value_hash h R b f).
Proof using HER.
  intros (x & y & Hx & Hy & Hxy)%attr_eq_inv.
  unfold list_or_value_hash. rewrite Hx, Hy. simpl.
  rewrite (py_eq_is_list _ _ Hxy), (py_eq_hash_tuple_of_list _ _ Hxy).
  destruct (is_list y); [apply item_rel_refl|].
  simpl. auto using py_eq_hash_val.
Qed.

Lemma value_or_tuple_equiv (f : string) :
  attr_eq h E f a b = Ret true →
  item_equiv (value_or_tuple h R a f) (value_or_tuple h R b f).
Proof using HER.
  intros (x & y & Hx & Hy & Hxy)%attr_eq_inv.
  unfold value_or_tuple. rewrite Hx, Hy. simpl.
  rewrite (py_eq_is_list _ _ Hxy), (py_eq_hash_tuple_of_list _ _ Hxy).
  destruct (is_list y); [apply item_rel_refl|].
  simpl. auto using py_eq_hash_val.
Qed.

Lemma count_equiv :
  (x ← count h a; y ← count h b; py_eq E x y) = Ret true →
  item_equiv (c ← count h a; Ret (HVal c)) (c ← count h b; Ret (HVal c)).
Proof using HER.
  intros Heq. apply res_bind_Ret in Heq as (x & Hx & Heq).
  apply res_bind_Ret in Heq as (y & Hy & Heq).
  rewrite Hx, Hy. simpl. auto using py_eq_hash_val.
Qed.

(** The mixins. *)
Lemma Accessible_hash_eq :
  Accessible_eq h E a b = Ret true → Accessible_hash h R a = Accessible_hash h R b.
Proof using HER. apply attr_hash_eq. Qed.
Lemma Aligned_hash_eq :
  Aligned_eq h E a b = Ret true → Aligned_hash h R a = Aligned_hash h R b.
Proof using HER. apply attr_hash_eq. Qed.
Lemma Artificial_hash_eq :
  Artificial_eq h E a b = Ret true → Artificial_hash h R a = Artificial_hash h R b.
Proof using HER. apply attr_hash_eq. Qed.
Lemma Declarable_hash_eq :
  Declarable_eq h E a b = Ret true → Declarable_hash h R a = Declarable_hash h R b.
Proof using HER. apply attr_hash_eq. Qed.
Lemma Named_hash_eq :
  Named_eq h E a b = Ret true → Named_hash h R a = Named_hash h R b.
Proof using HER. apply attr_hash_eq. Qed.

Lemma Sized_hash_eq :
  Sized_eq h E a b = Ret true → Sized_hash h R a = Sized_hash h R b.
Proof using HER.
  unfold Sized_eq, Sized_hash. intros [H1 H2]%and_then_true.
  apply hash_of_tuple_congr.
  repeat (apply Forall2_cons_2; [apply attr_equiv; assumption|]).
  apply Forall2_nil_2.
Qed.

Lemma AbstractTAG_hash_eq :
  AbstractTAG_eq h E a b = Ret true →
  AbstractTAG_hash h R a = AbstractTAG_hash h R b.
Proof using HER.
  unfold AbstractTAG_eq, AbstractTAG_hash. intros Heq.
  apply res_bind_Ret in Heq as (pa & _ & Heq).
  apply res_bind_Ret in Heq as ([] & _ & Heq); [|discriminate].
  auto using Named_hash_eq.
Qed.

Lemma AbstractType_hash_eq :
  AbstractType_eq h E a b = Ret true →
  AbstractType_hash h R a = AbstractType_hash h R b.
Proof using HER.
  unfold AbstractType_eq, AbstractType_hash.
  intros [H1 _]%all_of_cons_true. rewrite (AbstractTAG_hash_eq H1).
  reflexivity.
Qed.

Lemma AbstractModifierType_hash_eq :
  AbstractModifierType_eq h E a b = Ret true →
  AbstractModifierType_hash h R a = AbstractModifierType_hash h R b.
Proof using HER.
  unfold AbstractModifierType_eq, AbstractModifierType_hash.
  intros [H1 _]%all_of_cons_true. rewrite (AbstractType_hash_eq H1).
  reflexivity.
Qed.

(** Take an equality that returned true apart into its conjuncts. *)
Ltac break_eq :=
  repeat match goal with
    | Heq : (_ &&& _)%res = Ret true |- _ =>
        apply and_then_true in Heq; destruct Heq
    | Heq : all_of (_ :: _) = Ret true |- _ =>
        apply all_of_cons_true in Heq; destruct Heq
    | Heq : all_of [] = Ret true |- _ => clear Heq
    end.

Ltac bases_eq :=
  repeat match goal with
    | Heq : Accessible_eq _ _ _ _ = Ret true |- _ =>
        rewrite (Accessible_hash_eq Heq); clear Heq
    | Heq : Aligned_eq _ _ _ _ = Ret true |- _ =>
        rewrite (Aligned_hash_eq Heq); clear Heq
    | Heq : Artificial_eq _ _ _ _ = Ret true |- _ =>
        rewrite (Artificial_hash_eq Heq); clear Heq
    | Heq : Declarable_eq _ _ _ _ = Ret true |- _ =>
        rewrite (Declarable_hash_eq Heq); clear Heq
    | Heq : Named_eq _ _ _ _ = Ret true |- _ =>
        rewrite (Named_hash_eq Heq); clear Heq
    | Heq : Sized_eq _ _ _ _ = Ret true |- _ =>
        rewrite (Sized_hash_eq Heq);
        apply and_then_true in Heq; destruct Heq
    | Heq : AbstractTAG_eq _ _ _ _ = Ret true |- _ =>
        rewrite (AbstractTAG_hash_eq Heq); clear Heq
    | Heq : AbstractType_eq _ _ _ _ = Ret true |- _ =>
        rewrite (AbstractType_hash_eq Heq); clear Heq
    | Heq : AbstractModifierType_eq _ _ _ _ = Ret true |- _ =>
        rewrite (AbstractModifierType_hash_eq Heq); clear Heq
    end.

Ltac item :=
  first [ apply item_rel_refl
        | apply attr_equiv; assumption
        | apply count_equiv; assumption
        | apply value_or_tuple_equiv; assumption
        | simpl; assumption ].

Ltac items :=
  apply hash_of_tuple_congr;
  repeat (apply Forall2_cons_2; [item|]);
  apply Forall2_nil_2.

Lemma hash_method_eq (c : cls) :
  eq_method h E c a b = Ret true → hash_method h R c a = hash_method h R c b.
Proof using HER.
  destruct c; cbn [eq_method hash_method];
    unfold BaseType_eq, UnspecifiedType_eq, TypeDefType_eq, StructureType_eq,
      StructureUnionClassAbstractType_eq, Member_eq, Enumerator_eq,
      EnumerationType_eq, AlignedModifier_eq, PlainModifier_eq,
      PointerType_eq, SharedType_eq, Subrange_eq, ArrayType_eq,
      FormalParameter_eq, SubroutineType_eq, Variable_eq, Namespace_eq,
      BaseType_hash, UnspecifiedType_hash, TypeDefType_hash,
      StructureUnionClassAbstractType_hash, Member_hash, Enumerator_hash,
      EnumerationType_hash, AlignedModifier_hash, PlainModifier_hash,
      PointerType_hash, SharedType_hash, Subrange_hash, ArrayType_hash,
      FormalParameter_hash, SubroutineType_hash, Variable_hash,
      Namespace_hash, Typed_hash;
    intros Heq; break_eq; bases_eq; try reflexivity; try (items; fail).
  - (* Member *)
    apply (item_rel_bind R R); [auto using list_or_value_equiv|].
    intros v w Hvw. items.
  - (* Subrange *)
    apply (item_rel_bind R R); [auto using list_or_value_equiv|].
    intros v w Hvw.
    apply (item_rel_bind R R); [auto using list_or_value_equiv|].
    intros v' w' Hvw'. items.
Qed.
End Attr.

Lemma tag_hash_body_eq (a b : id) :
  tag_eq_body h E a b = Ret true → tag_hash_body h R a = tag_hash_body h R b.
Proof using HER.
  unfold tag_eq_body, tag_hash_body. intros Heq.
  apply res_bind_Ret in Heq as (ca & Hca & Heq).
  apply res_bind_Ret in Heq as (cb & Hcb & Heq).
  rewrite Hca, Hcb. simpl.
  destruct (decide (ca = cb)) as [->|]; [|discriminate].
  auto using hash_method_eq.
Qed.
End HashRespectsEq.

Lemma tag_eq_tag_hash `{PyHash} (h : heap) (fe : nat) :
  ∀ (fh : nat) (a b : id),
    tag_eq fe h a b = Ret true → tag_hash fh h a = tag_hash fh h b.
Proof.
  induction fe as [|fe IH]; intros fh a b Heq; [discriminate|].
  destruct fh as [|fh]; [reflexivity|].
  cbn [tag_eq tag_hash] in *.
  eapply tag_hash_body_eq; [|eassumption]. intros x y. apply IH.
Qed.
(** ** What a hash depends on *)

Section HashIndependent.
Context `{PyHash}.
Variables h h' : heap.
Variables R R' : id → res Z.
Variable o : id.
Variable ob : obj.
Hypothesis Ho : h !! o = Some ob.
Hypothesis Ho' : h' !! o = Some ob.
Hypothesis Htags : tags_only_in unhashed_attrs ob.

Lemma getattr_same (f : string) : getattr h' o f = getattr h o f.
Proof using Ho Ho'. unfold getattr. rewrite Ho, Ho'. reflexivity. Qed.

Lemma hashed_attr_no_tag (f : string) (v : pyv) :
  bool_decide (f ∈ unhashed_attrs) = false →
  getattr h o f = Ret v → is_tag_value v = false.
Proof using Ho Htags.
  intros Hf Hv. unfold getattr in Hv. rewrite Ho in Hv.
  destruct (oattrs ob !! f) as [w|] eqn:Hw; [|discriminate].
  injection Hv as ->. destruct (is_tag_value v) eqn:Hv; [|reflexivity].
  apply bool_decide_eq_false in Hf. destruct Hf. eauto.
Qed.

Lemma hash_val_no_tag (v : pyv) :
  is_tag_value v = false → hash_val R v = hash_val R' v.
Proof. destruct v; simpl; congruence. Qed.

Lemma hash_tuple_of_list_no_tag (v : pyv) :
  is_tag_value v = false →
  hash_tuple_of_list R v = hash_tuple_of_list R' v.
Proof. destruct v; simpl; congruence. Qed.

Lemma attr_hash_indep (f : string) :
  bool_decide (f ∈ unhashed_attrs) = false →
  (getattr h' o f ≫= hash_val R') = (getattr h o f ≫= hash_val R).
Proof using Ho Ho' Htags.
  intros Hf. rewrite getattr_same.
  destruct (getattr h o f) as [v| |] eqn:Hv; try reflexivity.
  simpl. symmetry. eauto using hash_val_no_tag, hashed_attr_no_tag.
Qed.

Lemma attr_rel (f : string) :
  bool_decide (f ∈ unhashed_attrs) = false →
  item_rel R R' (attr h o f) (attr h' o f).
Proof using Ho Ho' Htags.
  intros Hf. unfold attr. rewrite getattr_same.
  destruct (getattr h o f) as [v| |] eqn:Hv; simpl; auto.
  eauto using hash_val_no_tag, hashed_attr_no_tag.
Qed.

Lemma list_or_value_rel (f : string) :
  bool_decide (f ∈ unhashed_attrs) = false →
  item_rel R R' (list_or_value_hash h R o f) (list_or_value_hash h' R' o f).
Proof using Ho Ho' Htags.
  intros Hf. unfold list_or_value_hash. rewrite getattr_same.
  destruct (getattr h o f) as [v| |] eqn:Hv; simpl; auto.
  pose proof (hashed_attr_no_tag _ _ Hf Hv) as Hnt.
  rewrite (hash_tuple_of_list_no_tag _ Hnt).
  destruct (is_list v).
  - destruct (hash_tuple_of_list R' v); simpl; auto.
  - simpl. auto using hash_val_no_tag.
Qed.

Lemma value_or_tuple_rel (f : string) :
  bool_decide (f ∈ unhashed_attrs) = false →
  item_rel R R' (value_or_tuple h R o f) (value_or_tuple h' R' o f).
Proof using Ho Ho' Htags.
  intros Hf. unfold value_or_tuple. rewrite getattr_same.
  destruct (getattr h o f) as [v| |] eqn:Hv; simpl; auto.
  pose proof (hashed_attr_no_tag _ _ Hf Hv) as Hnt.
  rewrite (hash_tuple_of_list_no_tag _ Hnt).
  destruct (is_list v).
  - destruct (hash_tuple_of_list R' v); simpl; auto.
  - simpl. auto using hash_val_no_tag.
Qed.

Lemma count_same : count h' o = count h o.
Proof using Ho Ho'. unfold count. rewrite !getattr_same. reflexivity. Qed.

Lemma count_no_tag (v : pyv) : count h o = Ret v → is_tag_value v = false.
Proof.
  unfold count. intros Hc.
  destruct (getattr h o "lower_bound") as [lb| |]; simpl in Hc;
    try discriminate.
  destruct (as_int lb); simpl in Hc; [|injection Hc as <-; reflexivity].
  destruct (getattr h o "upper_bound") as [ub| |]; simpl in Hc;
    try discriminate.
  destruct (as_int ub); injection Hc as <-; reflexivity.
Qed.

Lemma count_rel :
  item_rel R R' (c ← count h o; Ret (HVal c)) (c ← count h' o; Ret (HVal c)).
Proof using Ho Ho'.
  rewrite count_same. destruct (count h o) as [v| |] eqn:Hc; simpl; auto.
  eauto using hash_val_no_tag, count_no_tag.
Qed.

Lemma res_item_rel (i j : hitem) :
  hash_item R i = hash_item R' j → item_rel R R' (Ret i) (Ret j).
Proof. auto. Qed.

Lemma bases_tuple_rel (l : list (res Z)) :
  item_rel R R' (bases_tuple l) (bases_tuple l).
Proof. unfold bases_tuple. destruct (sequence l); simpl; auto. Qed.

Ltac item2 :=
  first [ apply bases_tuple_rel
        | apply attr_rel; reflexivity
        | apply count_rel
        | apply value_or_tuple_rel; reflexivity
        | apply res_item_rel; assumption ].

Ltac items2 :=
  apply hash_of_tuple_congr;
  repeat (apply Forall2_cons_2; [item2|]);
  apply Forall2_nil_2.

Lemma Accessible_hash_indep : Accessible_hash h' R' o = Accessible_hash h R o.
Proof using Ho Ho' Htags. apply attr_hash_indep; reflexivity. Qed.
Lemma Aligned_hash_indep : Aligned_hash h' R' o = Aligned_hash h R o.
Proof using Ho Ho' Htags. apply attr_hash_indep; reflexivity. Qed.
Lemma Artificial_hash_indep : Artificial_hash h' R' o = Artificial_hash h R o.
Proof using Ho Ho' Htags. apply attr_hash_indep; reflexivity. Qed.
Lemma Declarable_hash_indep : Declarable_hash h' R' o = Declarable_hash h R o.
Proof using Ho Ho' Htags. apply attr_hash_indep; reflexivity. Qed.
Lemma Named_hash_indep : Named_hash h' R' o = Named_hash h R o.
Proof using Ho Ho' Htags. apply attr_hash_indep; reflexivity. Qed.
Lemma Sized_hash_indep : Sized_hash h' R' o = Sized_hash h R o.
Proof using Ho Ho' Htags. symmetry. unfold Sized_hash. items2. Qed.
Lemma AbstractTAG_hash_indep : AbstractTAG_hash h' R' o = AbstractTAG_hash h R o.
Proof using Ho Ho' Htags. apply Named_hash_indep. Qed.
Lemma AbstractType_hash_indep :
  AbstractType_hash h' R' o = AbstractType_hash h R o.
Proof using Ho Ho' Htags.
  unfold AbstractType_hash. rewrite AbstractTAG_hash_indep. reflexivity.
Qed.
Lemma AbstractModifierType_hash_indep :
  AbstractModifierType_hash h' R' o = AbstractModifierType_hash h R o.
Proof using Ho Ho' Htags.
  unfold AbstractModifierType_hash. rewrite AbstractType_hash_indep.
  reflexivity.
Qed.

Lemma hash_method_indep (c : cls) :
  hash_method h R c o = hash_method h' R' c o.
Proof using Ho Ho' Htags.
  destruct c; cbn [hash_method];
    unfold BaseType_hash, UnspecifiedType_hash, TypeDefType_hash,
      StructureUnionClassAbstractType_hash, Member_hash, Enumerator_hash,
      EnumerationType_hash, AlignedModifier_hash, PlainModifier_hash,
      PointerType_hash, SharedType_hash, Subrange_hash, ArrayType_hash,
      FormalParameter_hash, SubroutineType_hash, Variable_hash,
      Namespace_hash, Typed_hash;
    rewrite ?AbstractModifierType_hash_indep, ?AbstractType_hash_indep,
      ?AbstractTAG_hash_indep, ?Accessible_hash_indep, ?Aligned_hash_indep,
      ?Artificial_hash_indep, ?Declarable_hash_indep, ?Named_hash_indep,
      ?Sized_hash_indep;
    try reflexivity; try (items2; fail).
  - (* Member *)
    apply (item_rel_bind R R'); [apply list_or_value_rel; reflexivity|].
    intros v w Hvw. items2.
  - (* Subrange *)
    apply (item_rel_bind R R'); [apply list_or_value_rel; reflexivity|].
    intros v w Hvw.
    apply (item_rel_bind R R'); [apply list_or_value_rel; reflexivity|].
    intros v' w' Hvw'. items2.
Qed.

Lemma tag_hash_body_indep : tag_hash_body h R o = tag_hash_body h' R' o.
Proof using Ho Ho' Htags.
  unfold tag_hash_body, class_of. rewrite Ho, Ho'. simpl.
  apply hash_method_indep.
Qed.
End HashIndependent.

(** A hash that asks for no other hash returns or raises. *)
Section HashNoFuel.
Context `{PyHash}.
Variable h : heap.
Variable R : id → res Z.
Hypothesis HR : ∀ o, R o ≠ OutOfFuel.

Lemma hash_val_not_OutOfFuel (v : pyv) : hash_val R v ≠ OutOfFuel.
Proof using HR. destruct v; simpl; auto; congruence. Qed.

Lemma hash_item_not_OutOfFuel (i : hitem) : hash_item R i ≠ OutOfFuel.
Proof using HR.
  destruct i; simpl; [apply hash_val_not_OutOfFuel | congruence].
Qed.

Lemma hash_tuple_of_list_not_OutOfFuel (v : pyv) :
  hash_tuple_of_list R v ≠ OutOfFuel.
Proof using HR.
  destruct v; simpl; try congruence.
  apply bind_not_OutOfFuel; [|congruence].
  apply sequence_not_OutOfFuel, Forall_map, Forall_forall. auto.
Qed.

Lemma hash_of_tuple_not_OutOfFuel (l : list (res hitem)) :
  Forall (λ x, x ≠ OutOfFuel) l → hash_of_tuple R l ≠ OutOfFuel.
Proof using HR.
  intros Hl. unfold hash_of_tuple.
  apply bind_not_OutOfFuel; [auto using sequence_not_OutOfFuel|].
  intros vs. apply bind_not_OutOfFuel; [|congruence].
  apply sequence_not_OutOfFuel, Forall_map, Forall_forall.
  auto using hash_item_not_OutOfFuel.
Qed.

Lemma count_not_OutOfFuel (o : id) : count h o ≠ OutOfFuel.
Proof.
  unfold count. apply bind_not_OutOfFuel; [apply getattr_not_OutOfFuel|].
  intros lb. destruct (as_int lb); [|congruence].
  apply bind_not_OutOfFuel; [apply getattr_not_OutOfFuel|].
  intros ub. destruct (as_int ub); congruence.
Qed.

Ltac noof :=
  repeat first
    [ apply getattr_not_OutOfFuel
    | apply hash_val_not_OutOfFuel
    | apply hash_tuple_of_list_not_OutOfFuel
    | apply count_not_OutOfFuel
    | apply hash_of_tuple_not_OutOfFuel
    | apply sequence_not_OutOfFuel
    | apply Forall_cons_2
    | apply Forall_nil_2
    | apply bind_not_OutOfFuel
    | match goal with |- (if ?b then _ else _) ≠ _ => destruct b end
    | match goal with |- _ ≠ _ => fail 1 | |- _ => intros ? end
    | discriminate ].

Lemma hash_method_not_OutOfFuel (c : cls) (o : id) :
  hash_method h R c o ≠ OutOfFuel.
Proof using HR.
  destruct c; cbn [hash_method];
    unfold BaseType_hash, UnspecifiedType_hash, TypeDefType_hash,
      StructureUnionClassAbstractType_hash, Member_hash, Enumerator_hash,
      EnumerationType_hash, AlignedModifier_hash, PlainModifier_hash,
      PointerType_hash, SharedType_hash, Subrange_hash, ArrayType_hash,
      FormalParameter_hash, SubroutineType_hash, Variable_hash,
      Namespace_hash, AbstractModifierType_hash, AbstractType_hash,
      AbstractTAG_hash, hash_of_bases, bases_tuple, list_or_value_hash,
      value_or_tuple, attr, Sized_hash, Named_hash, Accessible_hash,
      Aligned_hash, Artificial_hash, Declarable_hash, Typed_hash;
    noof.
Qed.

Lemma tag_hash_body_not_OutOfFuel (o : id) :
  tag_hash_body h R o ≠ OutOfFuel.
Proof using HR.
  unfold tag_hash_body, class_of.
  destruct (h !! o); simpl; [apply hash_method_not_OutOfFuel | congruence].
Qed.
End HashNoFuel.

(** The hash of a TAG that holds other TAGs in the reference attributes only
    is computed from its own attributes, without hashing another TAG. *)
Lemma tag_hash_own_attributes `{PyHash} (fuel fuel' : nat) (h h' : heap)
    (o : id) (ob : obj) :
  h !! o = Some ob → h' !! o = Some ob →
  tags_only_in unhashed_attrs ob →
  tag_hash (S fuel) h o = tag_hash (S fuel') h' o
  ∧ tag_hash (S fuel) h o ≠ OutOfFuel.
Proof.
  intros Ho Ho' Ht. cbn [tag_hash]. split.
  - eapply tag_hash_body_indep; eassumption.
  - rewrite (tag_hash_body_indep h h (tag_hash fuel h)
               (λ _, Raise Dangling) o ob Ho Ho Ht).
    apply tag_hash_body_not_OutOfFuel. congruence.
Qed.
(** ** Termination of the equality test *)

(** A lookup in the store does not run out of budget. *)
Ltac oof_absurd :=
  exfalso;
  first [ eapply getattr_not_OutOfFuel; eassumption
        | eapply class_of_not_OutOfFuel; eassumption
        | eapply as_tags_not_OutOfFuel; eassumption ].

(** Unfolds the [__eq__] of a class down to comparisons of attributes. *)
Ltac unfold_eq :=
  unfold BaseType_eq, UnspecifiedType_eq, TypeDefType_eq, StructureType_eq,
    StructureUnionClassAbstractType_eq, Member_eq, Enumerator_eq,
    EnumerationType_eq, AlignedModifier_eq, PlainModifier_eq,
    PointerType_eq, SharedType_eq, Subrange_eq, ArrayType_eq,
    FormalParameter_eq, SubroutineType_eq, Variable_eq, Namespace_eq,
    AbstractModifierType_eq, AbstractType_eq, containing_structure_eq,
    Accessible_eq, Aligned_eq, Artificial_eq, Declarable_eq, Named_eq,
    Sized_eq, Typed_eq.

Section EqReturns.
Variable h : heap.
Variable rec : id → id → res bool.

Lemma list_eq_from_not_OutOfFuel (l l' : list id) :
  (∀ a', a' ∈ l → ∀ b', rec a' b' ≠ OutOfFuel) →
  list_eq_from rec l l' ≠ OutOfFuel.
Proof.
  revert l'. induction l as [|a l IH]; intros [|b l'] Hl; simpl;
    try congruence.
  assert (Hl' : ∀ a', a' ∈ l → ∀ b', rec a' b' ≠ OutOfFuel)
    by (intros; apply Hl; set_solver).
  destruct (decide (a = b)); [auto|].
  apply bind_not_OutOfFuel; [apply Hl; set_solver|].
  intros []; [auto | congruence].
Qed.

Lemma py_eq_not_OutOfFuel (x y : pyv) :
  (∀ a', a' ∈ tags_of x → ∀ b', rec a' b' ≠ OutOfFuel) →
  py_eq rec x y ≠ OutOfFuel.
Proof.
  intros Hx. destruct x, y; simpl; try congruence.
  - apply Hx. simpl. set_solver.
  - destruct (bool_decide _); [|congruence].
    apply list_eq_from_not_OutOfFuel. exact Hx.
Qed.

Lemma count_eq_not_OutOfFuel (a b : id) :
  (x ← count h a; y ← count h b; py_eq rec x y) ≠ OutOfFuel.
Proof.
  destruct (count h a) as [x| |] eqn:Hx; simpl; try congruence.
  - apply bind_not_OutOfFuel.
    + unfold count. apply bind_not_OutOfFuel;
        [apply getattr_not_OutOfFuel|].
      intros lb. destruct (as_int lb); [|congruence].
      apply bind_not_OutOfFuel; [apply getattr_not_OutOfFuel|].
      intros ub. destruct (as_int ub); congruence.
    + intros y. apply py_eq_not_OutOfFuel. intros a' Ha'.
      unfold count in Hx.
      destruct (getattr h a "lower_bound") as [lb| |]; simpl in Hx;
        try discriminate.
      destruct (as_int lb); simpl in Hx;
        [|injection Hx as <-; simpl in Ha'; set_solver].
      destruct (getattr h a "upper_bound") as [ub| |]; simpl in Hx;
        try discriminate.
      destruct (as_int ub); injection Hx as <-; simpl in Ha'; set_solver.
  - unfold count in Hx.
    destruct (getattr h a "lower_bound") as [lb| |] eqn:Hlb; simpl in Hx;
      try discriminate.
    + destruct (as_int lb); simpl in Hx; try discriminate.
      destruct (getattr h a "upper_bound") as [ub| |] eqn:Hub;
        simpl in Hx; try discriminate.
      * destruct (as_int ub); discriminate.
      * exfalso. eapply getattr_not_OutOfFuel; eassumption.
    + exfalso. eapply getattr_not_OutOfFuel; eassumption.
Qed.

Section Object.
Variables a b : id.
(** The attributes compared, and what is known of the recursive calls
    on the TAGs they hold. *)
Variable L : list string.
Hypothesis Hrec :
  ∀ f, bool_decide (f ∈ L) = true →
       ∀ a', a' ∈ attr_tags h a f → ∀ b', rec a' b' ≠ OutOfFuel.

Lemma attr_eq_not_OutOfFuel (f : string) :
  bool_decide (f ∈ L) = true → attr_eq h rec f a b ≠ OutOfFuel.
Proof using Hrec.
  intros Hf. unfold attr_eq.
  destruct (getattr h a f) as [x|e|] eqn:Hx; simpl; try congruence.
  - apply bind_not_OutOfFuel; [apply getattr_not_OutOfFuel|].
    intros y. apply py_eq_not_OutOfFuel. intros a' Ha'.
    apply (Hrec f Hf). unfold attr_tags. rewrite Hx. exact Ha'.
  - oof_absurd.
Qed.

Lemma AbstractTAG_eq_not_OutOfFuel :
  bool_decide ("name" ∈ L) = true → AbstractTAG_eq h rec a b ≠ OutOfFuel.
Proof using Hrec.
  intros Hn. unfold AbstractTAG_eq.
  apply bind_not_OutOfFuel; [apply getattr_not_OutOfFuel|]. intros pa.
  apply bind_not_OutOfFuel.
  - destruct (truthy pa); [|congruence].
    apply bind_not_OutOfFuel; [apply getattr_not_OutOfFuel|]. congruence.
  - intros []; [|congruence]. apply attr_eq_not_OutOfFuel, Hn.
Qed.

End Object.

(** Goals [e ≠ OutOfFuel] for an [e] put together from comparisons of
    attributes of the list [L]. *)
Ltac returns Hrec :=
  repeat first
    [ apply and_then_not_OutOfFuel
    | apply all_of_not_OutOfFuel
    | apply Forall_cons_2
    | apply Forall_nil_2
    | apply (attr_eq_not_OutOfFuel _ _ _ Hrec); reflexivity
    | apply (AbstractTAG_eq_not_OutOfFuel _ _ _ Hrec); reflexivity
    | apply count_eq_not_OutOfFuel
    | discriminate ].

Lemma Subrange_eq_not_OutOfFuel (ccs : bool) (a b : id) :
  (∀ f, bool_decide (f ∈ compared_attrs Subrange ccs) = true →
        ∀ a', a' ∈ attr_tags h a f → ∀ b', rec a' b' ≠ OutOfFuel) →
  Subrange_eq h rec ccs a b ≠ OutOfFuel.
Proof. intros Hrec. destruct ccs; unfold_eq; returns Hrec. Qed.

Lemma Member_eq_not_OutOfFuel (ccs : bool) (a b : id) :
  (∀ f, bool_decide (f ∈ compared_attrs Member ccs) = true →
        ∀ a', a' ∈ attr_tags h a f → ∀ b', rec a' b' ≠ OutOfFuel) →
  Member_eq h rec ccs a b ≠ OutOfFuel.
Proof. intros Hrec. destruct ccs; unfold_eq; returns Hrec. Qed.

Lemma in_flat_map_attr_tags (o : id) (f : string) (L : list string) (x : id) :
  bool_decide (f ∈ L) = true → x ∈ attr_tags h o f →
  x ∈ flat_map (attr_tags h o) L.
Proof.
  intros Hf Hx. apply bool_decide_eq_true in Hf.
  apply list_elem_of_In, in_flat_map. exists f.
  split; apply list_elem_of_In; assumption.
Qed.

Lemma is_similar_not_OutOfFuel (m m' : id) :
  (∀ a', a' ∈ similar_targets h m → ∀ b', rec a' b' ≠ OutOfFuel) →
  is_similar h rec m m' ≠ OutOfFuel.
Proof.
  intros Hm.
  assert (Hrec : ∀ f, bool_decide (f ∈ similar_attrs) = true →
                      ∀ a', a' ∈ attr_tags h m f → ∀ b', rec a' b' ≠ OutOfFuel).
  { intros f Hf a' Ha'. apply Hm. unfold similar_targets.
    apply elem_of_app. left. eauto using in_flat_map_attr_tags. }
  assert (Hname : ∀ t, getattr h m "type" = Ret (PRef t) →
                       ∀ a', a' ∈ attr_tags h t "name" →
                             ∀ b', rec a' b' ≠ OutOfFuel).
  { intros t Ht a' Ha'. apply Hm. unfold similar_targets.
    apply elem_of_app. right. rewrite Ht. exact Ha'. }
  unfold is_similar. returns Hrec.
  destruct (getattr h m "type") as [[| | | | |t|]| |] eqn:Ht; simpl;
    try congruence; [|oof_absurd].
  specialize (Hname t eq_refl). unfold attr_tags in Hname.
  destruct (getattr h t "name") as [na| |] eqn:Hna; simpl; try congruence;
    [|oof_absurd].
  apply bind_not_OutOfFuel; [apply getattr_not_OutOfFuel|].
  intros [| | | | |t'|]; try congruence.
  apply bind_not_OutOfFuel; [apply getattr_not_OutOfFuel|]. intros nb.
  apply py_eq_not_OutOfFuel. exact Hname.
Qed.

Lemma compare_pairs_not_OutOfFuel (f : id → id → res bool) (l l' : list id) :
  (∀ x, x ∈ l → ∀ y, f x y ≠ OutOfFuel) →
  compare_pairs f l l' ≠ OutOfFuel.
Proof.
  revert l'. induction l as [|x l IH]; intros [|y l'] Hl; simpl;
    try congruence.
  apply bind_not_OutOfFuel; [apply Hl; set_solver|].
  intros []; [|congruence]. apply IH. intros; apply Hl; set_solver.
Qed.

Lemma _compare_members_not_OutOfFuel (a b : id) :
  (∀ a', a' ∈ flat_map (similar_targets h) (attr_tags h a "members") →
         ∀ b', rec a' b' ≠ OutOfFuel) →
  _compare_members h rec a b ≠ OutOfFuel.
Proof.
  intros Hm. unfold _compare_members, attr_tags in *.
  destruct (getattr h a "members") as [ma| |] eqn:Hma; simpl;
    try congruence; [|oof_absurd].
  destruct (as_tags ma) as [la| |] eqn:Hla; simpl; try congruence;
    [|oof_absurd].
  apply as_tags_tags_of in Hla as ->.
  apply bind_not_OutOfFuel; [apply getattr_not_OutOfFuel|]. intros mb.
  apply bind_not_OutOfFuel; [apply as_tags_not_OutOfFuel|]. intros lb.
  destruct (bool_decide _); [|congruence].
  apply compare_pairs_not_OutOfFuel. intros m Hin m'.
  unfold member_is_similar.
  apply bind_not_OutOfFuel; [apply class_of_not_OutOfFuel|]. intros c.
  destruct (decide (c = Member)); [|congruence].
  apply is_similar_not_OutOfFuel. intros a' Ha'. apply Hm.
  apply list_elem_of_In, in_flat_map. exists m.
  split; apply list_elem_of_In; assumption.
Qed.

Lemma dimension_eq_not_OutOfFuel (d d' : id) :
  (∀ a', a' ∈ dimension_targets h d → ∀ b', rec a' b' ≠ OutOfFuel) →
  dimension_eq h rec d d' ≠ OutOfFuel.
Proof.
  intros Hd. unfold dimension_eq, dimension_targets in *.
  destruct (class_of h d) as [cd| |] eqn:Hcd; simpl; try congruence;
    [|oof_absurd].
  apply bind_not_OutOfFuel; [apply class_of_not_OutOfFuel|]. intros cd'.
  destruct cd; try congruence.
  - destruct (decide (cd' = Member)); [|congruence].
    apply Member_eq_not_OutOfFuel. intros f Hf a' Ha'. apply Hd.
    eauto using in_flat_map_attr_tags.
  - destruct (decide (cd' = Subrange)); [|congruence].
    apply Subrange_eq_not_OutOfFuel. intros f Hf a' Ha'. apply Hd.
    eauto using in_flat_map_attr_tags.
Qed.

Lemma _compare_dimensions_not_OutOfFuel (a b : id) :
  (∀ a', a' ∈ flat_map (dimension_targets h) (attr_tags h a "dimensions") →
         ∀ b', rec a' b' ≠ OutOfFuel) →
  _compare_dimensions h rec a b ≠ OutOfFuel.
Proof.
  intros Hm. unfold _compare_dimensions, attr_tags in *.
  destruct (getattr h a "dimensions") as [ma| |] eqn:Hma; simpl;
    try congruence; [|oof_absurd].
  destruct (as_tags ma) as [la| |] eqn:Hla; simpl; try congruence;
    [|oof_absurd].
  apply as_tags_tags_of in Hla as ->.
  apply bind_not_OutOfFuel; [apply getattr_not_OutOfFuel|]. intros mb.
  apply bind_not_OutOfFuel; [apply as_tags_not_OutOfFuel|]. intros lb.
  destruct (bool_decide _); [|congruence].
  apply compare_pairs_not_OutOfFuel. intros m Hin m'.
  apply dimension_eq_not_OutOfFuel. intros a' Ha'. apply Hm.
  apply list_elem_of_In, in_flat_map. exists m.
  split; apply list_elem_of_In; assumption.
Qed.

Lemma eq_method_not_OutOfFuel (c : cls) (a b : id) :
  class_of h a = Ret c →
  (∀ a', a' ∈ eq_targets h a → ∀ b', rec a' b' ≠ OutOfFuel) →
  eq_method h rec c a b ≠ OutOfFuel.
Proof.
  intros Hc Ht. unfold eq_targets in Ht. rewrite Hc in Ht.
  assert (Hrec : ∀ f, bool_decide (f ∈ compared_attrs c true) = true →
                      ∀ a', a' ∈ attr_tags h a f → ∀ b', rec a' b' ≠ OutOfFuel).
  { intros f Hf a' Ha'. apply Ht, elem_of_app. left.
    eauto using in_flat_map_attr_tags. }
  assert (Hmem : is_aggregate c = true →
                 _compare_members h rec a b ≠ OutOfFuel).
  { intros Hagg. apply _compare_members_not_OutOfFuel. intros a' Ha'.
    apply Ht. rewrite Hagg. apply elem_of_app. right.
    apply elem_of_app. left. exact Ha'. }
  assert (Hdim : c = ArrayType →
                 _compare_dimensions h rec a b ≠ OutOfFuel).
  { intros ->. apply _compare_dimensions_not_OutOfFuel. intros a' Ha'.
    apply Ht. apply elem_of_app. right. apply elem_of_app. right.
    exact Ha'. }
  clear Ht Hc.
  destruct c; cbn [eq_method]; unfold_eq; returns Hrec;
    solve [ apply Hmem; reflexivity | apply Hdim; reflexivity ].
Qed.

Lemma tag_eq_body_not_OutOfFuel (a b : id) :
  (∀ a', a' ∈ eq_targets h a → ∀ b', rec a' b' ≠ OutOfFuel) →
  tag_eq_body h rec a b ≠ OutOfFuel.
Proof.
  intros Ht. unfold tag_eq_body.
  destruct (class_of h a) as [ca| |] eqn:Hca; simpl; try congruence;
    [|oof_absurd].
  apply bind_not_OutOfFuel; [apply class_of_not_OutOfFuel|]. intros cb.
  destruct (decide (ca = cb)); [|congruence].
  apply eq_method_not_OutOfFuel; assumption.
Qed.
End EqReturns.

Lemma tag_eq_returns_below (h : heap) (rank : id → nat) :
  ranked h rank →
  ∀ (n : nat) (a b : id), (rank a < n)%nat → tag_eq n h a b ≠ OutOfFuel.
Proof.
  intros Hr. induction n as [|n IH]; intros a b Hn; [lia|].
  cbn [tag_eq]. apply tag_eq_body_not_OutOfFuel. intros a' Ha' b'.
  apply IH. specialize (Hr _ _ Ha'). lia.
Qed.
(** ** The equality test returns a boolean on fully parsed TAGs *)

Lemma and_then_returns (x y : res bool) :
  returns x → returns y → returns (x &&& y).
Proof. intros [[] ->] [b ->]; simpl; eexists; reflexivity. Qed.

Lemma all_of_returns (l : list (res bool)) :
  Forall returns l → returns (all_of l).
Proof.
  induction 1 as [|x l [b ->] _ [bs IH]]; simpl; [eexists; reflexivity|].
  rewrite IH. eexists; reflexivity.
Qed.

Lemma bind_returns {A B} (m : res A) (f : A → res B) :
  returns m → (∀ a, m = Ret a → returns (f a)) → returns (m ≫= f).
Proof. intros [a ->] Hf. simpl. apply Hf. reflexivity. Qed.

Lemma has_attrs_elim (h : heap) (o : id) (L : list string) (f : string) :
  has_attrs h o L = true → bool_decide (f ∈ L) = true →
  returns (getattr h o f).
Proof.
  intros Ha Hf. apply bool_decide_eq_true, list_elem_of_In in Hf.
  unfold has_attrs in Ha. rewrite forallb_forall in Ha.
  specialize (Ha f Hf). destruct (getattr h o f); try discriminate.
  eexists; reflexivity.
Qed.

Lemma valid_tags_elim (h : heap) (o : id) (L : list string) (f : string) (t : id) :
  valid_tags h o L = true → bool_decide (f ∈ L) = true →
  t ∈ attr_tags h o f → (t < length h)%nat.
Proof.
  intros Hv Hf Ht. apply bool_decide_eq_true, list_elem_of_In in Hf.
  unfold valid_tags in Hv. rewrite forallb_forall in Hv.
  specialize (Hv f Hf). rewrite forallb_forall in Hv.
  apply list_elem_of_In in Ht. apply Hv, bool_decide_eq_true in Ht. exact Ht.
Qed.

Lemma is_parsed_elim (h : heap) (o : id) :
  is_parsed h o = true → ∃ v, getattr h o "parsed" = Ret v ∧ truthy v = true.
Proof.
  unfold is_parsed. destruct (getattr h o "parsed"); try discriminate. eauto.
Qed.

Section EqValue.
Variable h : heap.
Variable rec : id → id → res bool.

Lemma list_eq_from_returns (l l' : list id) :
  (∀ a', a' ∈ l → ∀ b', b' ∈ l' → returns (rec a' b')) →
  returns (list_eq_from rec l l').
Proof.
  revert l'. induction l as [|a l IH]; intros [|b l'] Hl; simpl;
    try (eexists; reflexivity).
  assert (Hl' : returns (list_eq_from rec l l'))
    by (apply IH; intros; apply Hl; set_solver).
  destruct (decide (a = b)); [assumption|].
  apply bind_returns; [apply Hl; set_solver|].
  intros [] _; [assumption | eexists; reflexivity].
Qed.

Lemma py_eq_returns (x y : pyv) :
  (∀ a', a' ∈ tags_of x → ∀ b', b' ∈ tags_of y → returns (rec a' b')) →
  returns (py_eq rec x y).
Proof.
  intros Hx. destruct x, y; simpl; try (eexists; reflexivity).
  - apply Hx; simpl; set_solver.
  - destruct (bool_decide _); [|eexists; reflexivity].
    apply list_eq_from_returns. exact Hx.
Qed.

Section Object.
Variables a b : id.
Variable L : list string.
Hypothesis Ha : has_attrs h a L = true.
Hypothesis Hb : has_attrs h b L = true.
Hypothesis Hva : valid_tags h a L = true.
Hypothesis Hvb : valid_tags h b L = true.
Hypothesis Hrec :
  ∀ f, bool_decide (f ∈ L) = true →
       ∀ a', a' ∈ attr_tags h a f → (a' < length h)%nat →
             ∀ b', (b' < length h)%nat → returns (rec a' b').

Lemma attr_eq_returns (f : string) :
  bool_decide (f ∈ L) = true → returns (attr_eq h rec f a b).
Proof using Ha Hb Hva Hvb Hrec.
  intros Hf. unfold attr_eq.
  destruct (has_attrs_elim _ _ _ _ Ha Hf) as [x Hx].
  destruct (has_attrs_elim _ _ _ _ Hb Hf) as [y Hy].
  rewrite Hx, Hy. simpl. apply py_eq_returns. intros a' Ha' b' Hb'.
  assert (Ha'' : a' ∈ attr_tags h a f)
    by (unfold attr_tags; rewrite Hx; exact Ha').
  apply (Hrec f Hf a' Ha'').
  - apply (valid_tags_elim _ _ _ _ _ Hva Hf Ha'').
  - apply (valid_tags_elim _ _ _ _ _ Hvb Hf). unfold attr_tags.
    rewrite Hy. exact Hb'.
Qed.

Lemma AbstractTAG_eq_returns :
  is_parsed h a = true → is_parsed h b = true →
  bool_decide ("name" ∈ L) = true → returns (AbstractTAG_eq h rec a b).
Proof using Ha Hb Hva Hvb Hrec.
  intros (pa & Hpa & Hta)%is_parsed_elim (pb & Hpb & Htb)%is_parsed_elim Hn.
  unfold AbstractTAG_eq. rewrite Hpa. simpl. rewrite Hta, Hpb. simpl.
  rewrite Htb. apply attr_eq_returns, Hn.
Qed.

Lemma count_returns (o : id) :
  returns (getattr h o "lower_bound") →
  returns (getattr h o "upper_bound") →
  ∃ v, count h o = Ret v ∧ tags_of v = [].
Proof.
  intros [lb Hlb] [ub Hub]. unfold count. rewrite Hlb. simpl.
  destruct (as_int lb); [|eauto]. rewrite Hub. simpl.
  destruct (as_int ub); eauto.
Qed.

Lemma count_eq_returns :
  bool_decide ("lower_bound" ∈ L) = true →
  bool_decide ("upper_bound" ∈ L) = true →
  returns (x ← count h a; y ← count h b; py_eq rec x y).
Proof using Ha Hb Hva Hvb Hrec.
  intros Hl Hu.
  destruct (count_returns a) as (x & -> & Hx);
    [eauto using has_attrs_elim..|].
  destruct (count_returns b) as (y & -> & Hy);
    [eauto using has_attrs_elim..|].
  simpl. apply py_eq_returns. rewrite Hx. set_solver.
Qed.
End Object.
End EqValue.

Lemma compare_pairs_returns (f : id → id → res bool) (l l' : list id) :
  (∀ x, x ∈ l → ∀ y, y ∈ l' → returns (f x y)) →
  returns (compare_pairs f l l').
Proof.
  revert l'. induction l as [|x l IH]; intros [|y l'] Hl; simpl;
    try (eexists; reflexivity).
  apply bind_returns; [apply Hl; set_solver|].
  intros [] _; [|eexists; reflexivity]. apply IH. intros; apply Hl; set_solver.
Qed.

Lemma wf_member_elim (h : heap) (m : id) :
  wf_member h m = true →
  class_of h m = Ret Member
  ∧ has_attrs h m similar_attrs = true
  ∧ valid_tags h m similar_attrs = true
  ∧ ∃ t, getattr h m "type" = Ret (PRef t)
         ∧ has_attrs h t ["name"] = true ∧ valid_tags h t ["name"] = true.
Proof.
  unfold wf_member. destruct (class_of h m) as [[]| |]; try discriminate.
  destruct (getattr h m "type") as [[| | | | |t|]| |];
    rewrite ?andb_false_r; try discriminate.
  intros [[? ?]%andb_true_iff [? ?]%andb_true_iff]%andb_true_iff. eauto 10.
Qed.

Lemma wf_dimension_elim (h : heap) (d : id) :
  wf_dimension h d = true →
  class_of h d = Ret Subrange
  ∧ is_parsed h d = true
  ∧ has_attrs h d (compared_attrs Subrange false) = true
  ∧ valid_tags h d (compared_attrs Subrange false) = true.
Proof.
  unfold wf_dimension. destruct (class_of h d) as [[]| |]; try discriminate.
  intros [[? ?]%andb_true_iff ?]%andb_true_iff. auto.
Qed.

Lemma list_attr_ok_elim (h : heap) (o : id) (f : string) :
  list_attr_ok h o f = true →
  ∃ v, getattr h o f = Ret v ∧ as_tags v = Ret (attr_tags h o f).
Proof.
  unfold list_attr_ok, attr_tags. destruct (getattr h o f) as [v| |];
    try discriminate.
  destruct (as_tags v) as [l| |] eqn:Hl; try discriminate.
  intros _. exists v. split; [reflexivity|].
  pose proof (as_tags_tags_of _ _ Hl) as <-. exact Hl.
Qed.
Section EqClass.
Variable h : heap.
Variable rec : id → id → res bool.

(** Goals [returns e] for an [e] put together from comparisons of
    attributes of one list. *)
Ltac ret_steps Ha Hb Hva Hvb Hrec Hpa Hpb :=
  repeat first
    [ apply and_then_returns
    | apply all_of_returns
    | apply Forall_cons_2
    | apply Forall_nil_2
    | apply (attr_eq_returns h rec _ _ _ Ha Hb Hva Hvb Hrec); reflexivity
    | apply (AbstractTAG_eq_returns h rec _ _ _ Ha Hb Hva Hvb Hrec Hpa Hpb);
      reflexivity
    | apply (count_eq_returns h rec _ _ _ Ha Hb Hva Hvb Hrec); reflexivity
    | (eexists; reflexivity) ].

Lemma Subrange_eq_returns (a b : id) :
  wf_dimension h a = true → wf_dimension h b = true →
  (∀ a', a' ∈ dimension_targets h a → (a' < length h)%nat →
         ∀ b', (b' < length h)%nat → returns (rec a' b')) →
  returns (Subrange_eq h rec false a b).
Proof.
  intros (Hca & Hpa & Ha & Hva)%wf_dimension_elim
         (Hcb & Hpb & Hb & Hvb)%wf_dimension_elim Ht.
  unfold dimension_targets in Ht. rewrite Hca in Ht.
  assert (Hrec : ∀ f, bool_decide (f ∈ compared_attrs Subrange false) = true →
                      ∀ a', a' ∈ attr_tags h a f → (a' < length h)%nat →
                            ∀ b', (b' < length h)%nat → returns (rec a' b')).
  { intros f Hf a' Ha'. apply Ht. eauto using in_flat_map_attr_tags. }
  unfold_eq. ret_steps Ha Hb Hva Hvb Hrec Hpa Hpb.
Qed.

Lemma dimension_eq_returns (d d' : id) :
  wf_dimension h d = true → wf_dimension h d' = true →
  (∀ a', a' ∈ dimension_targets h d → (a' < length h)%nat →
         ∀ b', (b' < length h)%nat → returns (rec a' b')) →
  returns (dimension_eq h rec d d').
Proof.
  intros Hd Hd' Ht. unfold dimension_eq.
  pose proof (wf_dimension_elim _ _ Hd) as (-> & _).
  pose proof (wf_dimension_elim _ _ Hd') as (-> & _). simpl.
  apply Subrange_eq_returns; assumption.
Qed.

Lemma is_similar_returns (m m' : id) :
  wf_member h m = true → wf_member h m' = true →
  (∀ a', a' ∈ similar_targets h m → (a' < length h)%nat →
         ∀ b', (b' < length h)%nat → returns (rec a' b')) →
  returns (is_similar h rec m m').
Proof.
  intros (_ & Ha & Hva & t & Ht & Hn & Hvn)%wf_member_elim
         (_ & Hb & Hvb & t' & Ht' & Hn' & Hvn')%wf_member_elim Hm.
  assert (Hrec : ∀ f, bool_decide (f ∈ similar_attrs) = true →
                      ∀ a', a' ∈ attr_tags h m f → (a' < length h)%nat →
                            ∀ b', (b' < length h)%nat → returns (rec a' b')).
  { intros f Hf a' Ha'. apply Hm. unfold similar_targets.
    apply elem_of_app. left. eauto using in_flat_map_attr_tags. }
  unfold is_similar. rewrite Ht, Ht'. simpl.
  assert (Hname : returns (na ← getattr h t "name";
                           nb ← getattr h t' "name"; py_eq rec na nb)).
  { destruct (has_attrs_elim _ _ _ "name" Hn eq_refl) as [na Hna].
    destruct (has_attrs_elim _ _ _ "name" Hn' eq_refl) as [nb Hnb].
    rewrite Hna, Hnb. simpl. apply py_eq_returns. intros a' Ha' b' Hb'.
    assert (Ha'' : a' ∈ attr_tags h t "name")
      by (unfold attr_tags; rewrite Hna; exact Ha').
    apply Hm.
    - unfold similar_targets. apply elem_of_app. right. rewrite Ht.
      exact Ha''.
    - apply (valid_tags_elim _ _ _ "name" _ Hvn eq_refl Ha'').
    - apply (valid_tags_elim _ _ _ "name" _ Hvn' eq_refl).
      unfold attr_tags. rewrite Hnb. exact Hb'. }
  repeat first
    [ apply and_then_returns
    | apply (attr_eq_returns h rec _ _ _ Ha Hb Hva Hvb Hrec); reflexivity
    | exact Hname ].
Qed.

Lemma forallb_elem_of {A} (p : A → bool) (l : list A) (x : A) :
  forallb p l = true → x ∈ l → p x = true.
Proof.
  intros Hl Hx. rewrite forallb_forall in Hl.
  apply Hl, list_elem_of_In, Hx.
Qed.

Lemma elem_of_flat_map_2 {A B} (f : A → list B) (l : list A) (x : A) (y : B) :
  x ∈ l → y ∈ f x → y ∈ flat_map f l.
Proof.
  intros Hx Hy. apply list_elem_of_In, in_flat_map. exists x.
  split; apply list_elem_of_In; assumption.
Qed.

Lemma _compare_members_returns (a b : id) :
  list_attr_ok h a "members" = true →
  forallb (wf_member h) (attr_tags h a "members") = true →
  list_attr_ok h b "members" = true →
  forallb (wf_member h) (attr_tags h b "members") = true →
  (∀ a', a' ∈ flat_map (similar_targets h) (attr_tags h a "members") →
         (a' < length h)%nat →
         ∀ b', (b' < length h)%nat → returns (rec a' b')) →
  returns (_compare_members h rec a b).
Proof.
  intros (ma & Hma & Hla)%list_attr_ok_elim Hwa
         (mb & Hmb & Hlb)%list_attr_ok_elim Hwb Hm.
  unfold _compare_members. rewrite Hma. simpl. rewrite Hla. simpl.
  rewrite Hmb. simpl. rewrite Hlb. simpl.
  destruct (bool_decide _); [|eexists; reflexivity].
  apply compare_pairs_returns. intros m Hin m' Hin'.
  unfold member_is_similar.
  pose proof (forallb_elem_of _ _ _ Hwa Hin) as Hwm.
  pose proof (wf_member_elim _ _ Hwm) as (-> & _). simpl.
  apply is_similar_returns; [assumption|eauto using forallb_elem_of|].
  intros a' Ha'. apply Hm. eauto using elem_of_flat_map_2.
Qed.

Lemma _compare_dimensions_returns (a b : id) :
  list_attr_ok h a "dimensions" = true →
  forallb (wf_dimension h) (attr_tags h a "dimensions") = true →
  list_attr_ok h b "dimensions" = true →
  forallb (wf_dimension h) (attr_tags h b "dimensions") = true →
  (∀ a', a' ∈ flat_map (dimension_targets h) (attr_tags h a "dimensions") →
         (a' < length h)%nat →
         ∀ b', (b' < length h)%nat → returns (rec a' b')) →
  returns (_compare_dimensions h rec a b).
Proof.
  intros (ma & Hma & Hla)%list_attr_ok_elim Hwa
         (mb & Hmb & Hlb)%list_attr_ok_elim Hwb Hm.
  unfold _compare_dimensions. rewrite Hma. simpl. rewrite Hla. simpl.
  rewrite Hmb. simpl. rewrite Hlb. simpl.
  destruct (bool_decide _); [|eexists; reflexivity].
  apply compare_pairs_returns. intros m Hin m' Hin'.
  apply dimension_eq_returns; [eauto using forallb_elem_of..|].
  intros a' Ha'. apply Hm. eauto using elem_of_flat_map_2.
Qed.

Lemma wf_tag_elim (c : cls) (o : id) :
  class_of h o = Ret c → wf_tag h o = true →
  is_parsed h o = true
  ∧ has_attrs h o (compared_attrs c true) = true
  ∧ valid_tags h o (compared_attrs c true) = true
  ∧ (is_aggregate c = true →
     list_attr_ok h o "members" = true
     ∧ forallb (wf_member h) (attr_tags h o "members") = true)
  ∧ (c = ArrayType →
     list_attr_ok h o "dimensions" = true
     ∧ forallb (wf_dimension h) (attr_tags h o "dimensions") = true).
Proof.
  intros Hc. unfold wf_tag. rewrite Hc.
  intros [[[[? ?]%andb_true_iff ?]%andb_true_iff Hm]%andb_true_iff Hd]%andb_true_iff.
  repeat (split; [assumption|]). split.
  - intros Hagg. rewrite Hagg in Hm. apply andb_true_iff in Hm. exact Hm.
  - intros ->. simpl in Hd. apply andb_true_iff in Hd. exact Hd.
Qed.

Lemma eq_method_returns (c : cls) (a b : id) :
  class_of h a = Ret c → class_of h b = Ret c →
  wf_tag h a = true → wf_tag h b = true →
  (∀ a', a' ∈ eq_targets h a → (a' < length h)%nat →
         ∀ b', (b' < length h)%nat → returns (rec a' b')) →
  returns (eq_method h rec c a b).
Proof.
  intros Hca Hcb (Hpa & Ha & Hva & Hma & Hda)%(wf_tag_elim c)
         (Hpb & Hb & Hvb & Hmb & Hdb)%(wf_tag_elim c) Ht; try assumption.
  unfold eq_targets in Ht. rewrite Hca in Ht.
  assert (Hrec : ∀ f, bool_decide (f ∈ compared_attrs c true) = true →
                      ∀ a', a' ∈ attr_tags h a f → (a' < length h)%nat →
                            ∀ b', (b' < length h)%nat → returns (rec a' b')).
  { intros f Hf a' Ha'. apply Ht, elem_of_app. left.
    eauto using in_flat_map_attr_tags. }
  assert (Hmem : is_aggregate c = true →
                 returns (_compare_members h rec a b)).
  { intros Hagg. destruct (Hma Hagg), (Hmb Hagg).
    apply _compare_members_returns; try assumption. intros a' Ha'.
    apply Ht. rewrite Hagg. apply elem_of_app. right.
    apply elem_of_app. left. exact Ha'. }
  assert (Hdim : c = ArrayType → returns (_compare_dimensions h rec a b)).
  { intros Hc. destruct (Hda Hc), (Hdb Hc). subst c.
    apply _compare_dimensions_returns; try assumption. intros a' Ha'.
    apply Ht. apply elem_of_app. right. apply elem_of_app. right.
    exact Ha'. }
  clear Ht Hca Hcb Hma Hmb Hda Hdb.
  destruct c; cbn [eq_method]; unfold_eq;
    ret_steps Ha Hb Hva Hvb Hrec Hpa Hpb;
    solve [ apply Hmem; reflexivity | apply Hdim; reflexivity ].
Qed.

Lemma class_of_valid (o : id) :
  (o < length h)%nat → wf_tag h o = true → ∃ c, class_of h o = Ret c.
Proof.
  intros _. unfold wf_tag. destruct (class_of h o); try discriminate. eauto.
Qed.

Lemma tag_eq_body_returns (a b : id) :
  (a < length h)%nat → (b < length h)%nat →
  wf_tag h a = true → wf_tag h b = true →
  (∀ a', a' ∈ eq_targets h a → (a' < length h)%nat →
         ∀ b', (b' < length h)%nat → returns (rec a' b')) →
  returns (tag_eq_body h rec a b).
Proof.
  intros Hla Hlb Hwa Hwb Ht. unfold tag_eq_body.
  destruct (class_of_valid a Hla Hwa) as [ca Hca].
  destruct (class_of_valid b Hlb Hwb) as [cb Hcb].
  rewrite Hca, Hcb. simpl.
  destruct (decide (ca = cb)) as [<-|]; [|eexists; reflexivity].
  apply eq_method_returns; assumption.
Qed.
End EqClass.

(** Every TAG the equality test reaches from a TAG of the store is in the
    store. *)
Lemma eq_targets_valid (h : heap) (a a' : id) :
  wf_tag h a = true → a' ∈ eq_targets h a → (a' < length h)%nat.
Proof.
  intros Hw. unfold eq_targets.
  destruct (class_of h a) as [c| |] eqn:Hc; [|set_solver..].
  destruct (wf_tag_elim h c a Hc Hw) as (_ & _ & Hv & Hm & Hd).
  rewrite !elem_of_app. intros [Hin|[Hin|Hin]].
  - apply list_elem_of_In, in_flat_map in Hin as (f & Hf & Hin).
    apply list_elem_of_In in Hf, Hin.
    eapply valid_tags_elim; [exact Hv| |exact Hin].
    apply bool_decide_eq_true. exact Hf.
  - destruct (is_aggregate c); [|set_solver].
    destruct (Hm eq_refl) as [_ Hwm].
    apply list_elem_of_In, in_flat_map in Hin as (m & Hm' & Hin).
    apply list_elem_of_In in Hm', Hin.
    pose proof (forallb_elem_of _ _ _ Hwm Hm') as Hmem.
    apply wf_member_elim in Hmem as (_ & _ & Hvm & t & Ht & _ & Hvt).
    unfold similar_targets in Hin. rewrite Ht in Hin.
    apply elem_of_app in Hin as [Hin|Hin].
    + apply list_elem_of_In, in_flat_map in Hin as (f & Hf & Hin).
      apply list_elem_of_In in Hf, Hin.
      eapply valid_tags_elim; [exact Hvm| |exact Hin].
      apply bool_decide_eq_true. exact Hf.
    + eapply valid_tags_elim; [exact Hvt| |exact Hin]. reflexivity.
  - destruct (decide (c = ArrayType)) as [Harr|]; [|set_solver].
    destruct (Hd Harr) as [_ Hwd].
    apply list_elem_of_In, in_flat_map in Hin as (d & Hd' & Hin).
    apply list_elem_of_In in Hd', Hin.
    pose proof (forallb_elem_of _ _ _ Hwd Hd') as Hdim.
    apply wf_dimension_elim in Hdim as (Hcd & _ & _ & Hvd).
    unfold dimension_targets in Hin. rewrite Hcd in Hin.
    apply list_elem_of_In, in_flat_map in Hin as (f & Hf & Hin).
    apply list_elem_of_In in Hf, Hin.
    eapply valid_tags_elim; [exact Hvd| |exact Hin].
    apply bool_decide_eq_true. exact Hf.
Qed.

Lemma tag_eq_returns_bool_below (h : heap) (rank : id → nat) :
  wf_heap h → ranked h rank →
  ∀ (n : nat) (a b : id),
    (rank a < n)%nat → (a < length h)%nat → (b < length h)%nat →
    returns (tag_eq n h a b).
Proof.
  intros Hw Hr. induction n as [|n IH]; intros a b Hn Ha Hb; [lia|].
  cbn [tag_eq]. apply tag_eq_body_returns; auto.
  intros a' Ha' Hla' b' Hlb'. apply IH; auto.
  specialize (Hr _ _ Ha'). lia.
Qed.

Lemma wf_heapb_spec (h : heap) : wf_heapb h = true → wf_heap h.
Proof.
  unfold wf_heapb, wf_heap. rewrite forallb_forall. intros Hw o Ho.
  apply Hw, in_seq. lia.
Qed.
(** ** The claims on equality and hashing *)

Lemma rankedb_spec (h : heap) (rank : id → nat) :
  rankedb h rank = true → ranked h rank.
Proof.
  unfold rankedb, ranked. rewrite forallb_forall. intros Hr x y Hy.
  destruct (decide (x < length h)%nat) as [Hx|Hx].
  - assert (Hin : In x (seq 0 (length h))) by (apply in_seq; lia).
    specialize (Hr x Hin). rewrite forallb_forall in Hr.
    apply list_elem_of_In, Hr, bool_decide_eq_true in Hy. exact Hy.
  - assert (Hnone : h !! x = None) by (apply lookup_ge_None; lia).
    unfold eq_targets, class_of in Hy. rewrite Hnone in Hy. set_solver.
Qed.

Lemma tags_only_inb_spec (names : list string) (ob : obj) :
  tags_only_inb names ob = true → tags_only_in names ob.
Proof.
  unfold tags_only_inb, tags_only_in. rewrite forallb_forall.
  intros Hall f v Hf Hv.
  assert (Hin : In (f, v) (map_to_list (oattrs ob)))
    by (apply list_elem_of_In, elem_of_map_to_list, Hf).
  specialize (Hall _ Hin). simpl in Hall. rewrite Hv in Hall. simpl in Hall.
  apply bool_decide_eq_true in Hall. exact Hall.
Qed.


(** *** C5: termination of the equality test *)

Section FunctionCycle.
Import Samples.
Variable rec : id → id → res bool.

Lemma subroutine_eq_needs_parameter :
  rec 2%nat 5%nat = OutOfFuel →
  tag_eq_body func_heap rec 1%nat 4%nat = OutOfFuel.
Proof. intros Hr. vm_compute. rewrite Hr. reflexivity. Qed.

Lemma parameter_eq_needs_typedef :
  rec 0%nat 3%nat = OutOfFuel →
  tag_eq_body func_heap rec 2%nat 5%nat = OutOfFuel.
Proof. intros Hr. vm_compute. rewrite Hr. reflexivity. Qed.

Lemma typedef_eq_needs_subroutine :
  rec 1%nat 4%nat = OutOfFuel →
  tag_eq_body func_heap rec 0%nat 3%nat = OutOfFuel.
Proof. intros Hr. vm_compute. rewrite Hr. reflexivity. Qed.
End FunctionCycle.

(** C5 as stated fails.  The two descriptions of [type F func(F)] are fully
    parsed; the comparison of the two subroutine types compares their
    parameter lists, that of the parameters their types, that of the
    typedefs the subroutine types again: no budget is enough.  (CPython
    ends such a comparison with [RecursionError].) *)
Lemma tag_eq_function_cycle_diverges :
  wf_heapb Samples.func_heap = true
  ∧ ∀ fuel, tag_eq fuel Samples.func_heap 1%nat 4%nat = OutOfFuel.
Proof.
  split; [vm_compute; reflexivity|].
  assert (Hall : ∀ fuel,
             tag_eq fuel Samples.func_heap 1%nat 4%nat = OutOfFuel
             ∧ tag_eq fuel Samples.func_heap 2%nat 5%nat = OutOfFuel
             ∧ tag_eq fuel Samples.func_heap 0%nat 3%nat = OutOfFuel).
  { induction fuel as [|fuel (H14 & H25 & H03)]; [repeat split|].
    cbn [tag_eq].
    auto using subroutine_eq_needs_parameter, parameter_eq_needs_typedef,
      typedef_eq_needs_subroutine. }
  intros fuel. apply Hall.
Qed.

(** C5, amended: the equality test of two TAGs ends when the references it
    follows go down along a rank, with a budget above the rank of the left
    TAG; and it ends with a boolean when moreover every TAG of the store is
    fully parsed.  The members of an aggregate are compared by name and by
    the name of their type only, so the references of a member do not
    count among those of its structure. *)
Theorem tag_eq_returns (h : heap) (rank : id → nat) (a b : id) (n : nat) :
  ranked h rank → (rank a < n)%nat →
  tag_eq n h a b ≠ OutOfFuel
  ∧ (wf_heap h → (a < length h)%nat → (b < length h)%nat →
     ∃ r : bool, tag_eq n h a b = Ret r).
Proof.
  intros Hr Hn. split.
  - apply (tag_eq_returns_below h rank Hr n a b Hn).
  - intros Hw Ha Hb. apply (tag_eq_returns_bool_below h rank Hw Hr n a b Hn Ha Hb).
Qed.

(** The self-referential [struct node]: its member [next] against its
    member [value]. *)
Lemma tag_eq_returns_witness :
  ∃ r : bool, tag_eq 3 Samples.node_heap 3%nat 2%nat = Ret r.
Proof.
  refine (proj2 (tag_eq_returns Samples.node_heap Samples.node_rank
                   3%nat 2%nat 3 _ _) _ _ _).
  - apply rankedb_spec. vm_compute. reflexivity.
  - vm_compute. lia.
  - apply wf_heapb_spec. vm_compute. reflexivity.
  - vm_compute. lia.
  - vm_compute. lia.
Defined.
(** *** C4: the hash *)

(** C4 as stated fails in its second half.  The upper bound of a subrange
    may be a reference to another TAG (a variable-length array), and
    [Subrange.__hash__] hashes its bounds: the hash of the subrange calls
    the hash of the variable, and changes with the name of the variable
    while the subrange itself is untouched. *)
Lemma tag_hash_follows_upper_bound :
  let h' := setattr Samples.vla_heap 3%nat "name" (PStr "m") in
  getattr Samples.vla_heap 2%nat "upper_bound" = Ret (PRef 3%nat)
  ∧ Samples.vla_heap !! 2%nat = h' !! 2%nat
  ∧ @tag_hash sample_hash 1 Samples.vla_heap 2%nat = OutOfFuel
  ∧ @tag_hash sample_hash 2 Samples.vla_heap 2%nat
    ≠ @tag_hash sample_hash 2 h' 2%nat.
Proof. vm_compute. repeat split; congruence. Qed.

(** C4, amended: TAGs that compare equal have equal hashes; and the hash
    of a TAG that holds other TAGs only in the attributes [__hash__] does
    not read ([type], [members], [containing_structure], the referrers and
    the like) is a function of its own attributes: it needs no call of the
    hash of another TAG and is the same in every store that holds the TAG
    unchanged. *)
Theorem tag_hash_respects_eq `{PyHash} (h : heap) :
  (∀ (fe fh : nat) (a b : id),
     tag_eq fe h a b = Ret true → tag_hash fh h a = tag_hash fh h b)
  ∧ (∀ (fuel fuel' : nat) (h' : heap) (o : id) (ob : obj),
       h !! o = Some ob → h' !! o = Some ob →
       tags_only_in unhashed_attrs ob →
       tag_hash (S fuel) h o = tag_hash (S fuel') h' o
       ∧ tag_hash (S fuel) h o ≠ OutOfFuel).
Proof.
  split.
  - intros fe fh a b. apply tag_eq_tag_hash.
  - intros fuel fuel' h' o ob. apply tag_hash_own_attributes.
Qed.

(** The two [int] TAGs are equal and have one hash; the hash of
    [struct node] is the same after the size of the pointer to it is
    changed. *)
Lemma tag_hash_respects_eq_witness :
  @tag_hash sample_hash 1 Samples.ints_heap 0%nat
  = @tag_hash sample_hash 1 Samples.ints_heap 1%nat
  ∧ @tag_hash sample_hash 1 Samples.node_heap 1%nat
    = @tag_hash sample_hash 1
        (setattr Samples.node_heap 4%nat "size" (PInt 8)) 1%nat.
Proof.
  split.
  - apply (proj1 (@tag_hash_respects_eq sample_hash Samples.ints_heap)
             1%nat 1%nat 0%nat 1%nat).
    vm_compute. reflexivity.
  - refine (proj1 (proj2 (@tag_hash_respects_eq sample_hash Samples.node_heap)
                     0%nat 0%nat _ 1%nat _ _ _ _)).
    + vm_compute. reflexivity.
    + vm_compute. reflexivity.
    + apply tags_only_inb_spec. vm_compute. reflexivity.
Defined.
(** ** The offset of a member *)

Lemma list_pop_snoc (l : list Z) (x : Z) : list_pop (l ++ [x]) = Some (x, l).
Proof.
  unfold list_pop. rewrite reverse_app. simpl. rewrite reverse_involutive.
  reflexivity.
Qed.

(** C8.  [get_offset] on a member whose bit offset is [bit] ([None]
    counting as 0): a location that is an integer is the byte offset; a
    location expression that starts with [DW_OP_plus_uconst] (0x23) gives
    its operand plus the top of the evaluation stack, which replaces the
    top; one that starts with another opcode raises. *)
Theorem get_offset_cases (h : heap) (self : id) (dwarf_stack : option (list Z))
    (bit : pyv) :
  getattr h self "data_bit_offset" = Ret bit →
  let bit_offset := match bit with PNone => PInt 0 | _ => bit end in
  (∀ z : Z,
     getattr h self "data_member_location" = Ret (PInt z) →
     get_offset h self dwarf_stack
     = (default [0] dwarf_stack, Ret (Some (PInt z, bit_offset))))
  ∧ (∀ (operand stack_top : Z) (operands rest : list Z),
       getattr h self "data_member_location"
       = Ret (PInts (35 :: operand :: operands)) →
       default [0] dwarf_stack = rest ++ [stack_top] →
       get_offset h self dwarf_stack
       = (rest ++ [operand + stack_top],
          Ret (Some (PInt (operand + stack_top), bit_offset))))
  ∧ (∀ (opcode : Z) (operands : list Z),
       getattr h self "data_member_location" = Ret (PInts (opcode :: operands)) →
       opcode ≠ 35 →
       get_offset h self dwarf_stack
       = (default [0] dwarf_stack,
          Raise (Exception_
                   ("Cannot compute member offset: Unknown exprloc operation "
                    ++ py_hex opcode ++ ".")))).
Proof.
  intros Hbit bit_offset. unfold get_offset. repeat split.
  - intros z ->. rewrite Hbit. reflexivity.
  - intros operand stack_top operands rest -> ->. rewrite list_pop_snoc.
    rewrite Hbit. reflexivity.
  - intros opcode operands -> Hop.
    destruct (Z.eqb_spec opcode 35) as [|_]; [contradiction|]. reflexivity.
Qed.

(** The three members of the sample structure, the second one with the
    stack [[100; 16]]. *)
Lemma get_offset_cases_witness :
  get_offset Samples.loc_heap 2%nat None = ([0], Ret (Some (PInt 4, PInt 0)))
  ∧ get_offset Samples.loc_heap 3%nat (Some [100; 16])
    = ([100; 24], Ret (Some (PInt 24, PInt 0)))
  ∧ get_offset Samples.loc_heap 4%nat None
    = ([0],
       Raise (Exception_
                "Cannot compute member offset: Unknown exprloc operation 0x91.")).
Proof.
  split; [|split].
  - apply (proj1 (get_offset_cases Samples.loc_heap 2%nat None (PInt 0)
                    eq_refl) 4).
    reflexivity.
  - apply (proj1 (proj2 (get_offset_cases Samples.loc_heap 3%nat
                           (Some [100; 16]) (PInt 0) eq_refl))
             8 16 [] [100]); reflexivity.
  - apply (proj2 (proj2 (get_offset_cases Samples.loc_heap 4%nat None (PInt 0)
                           eq_refl)) 145 [8]); [reflexivity | lia].
Defined.
(** ** Methods *)

Lemma M_bind_Ret {A B} (m : M A) (f : A → M B) (p p' : TypeParser) (b : B) :
  (m ≫= f) p = (p', Ret b) →
  ∃ p1 a, m p = (p1, Ret a) ∧ f a p1 = (p', Ret b).
Proof.
  unfold mbind, M_bind. destruct (m p) as [p1 [a| |]]; intros E;
    try discriminate.
  eauto.
Qed.

(** ** Removing duplicates *)

Lemma _get_duplicates_set_duplicates `{PyHash} (fuel : nat)
    (d : list (id * list id)) (p : TypeParser) :
  _get_duplicates fuel (set_duplicates d p) = _get_duplicates fuel p.
Proof. reflexivity. Qed.


(** ** The memo table of [parse_DIE] *)

Lemma dict_get_dict_set {K V} `{EqDecision K} (k : K) (v : V)
    (d : list (K * V)) :
  dict_get k (dict_set k v d) = Some v.
Proof.
  induction d as [|[k' v'] d IH]; simpl.
  - destruct (decide (k = k)); congruence.
  - destruct (decide (k' = k)) as [->|Hne]; simpl.
    + destruct (decide (k = k)); congruence.
    + destruct (decide (k' = k)); [contradiction|exact IH].
Qed.

Lemma memo_lookup_register (die : DIE) (tag : id) (p : TypeParser) :
  memo_lookup (register die tag p) die = Some tag.
Proof.
  unfold memo_lookup, register. simpl. rewrite dict_get_dict_set. simpl.
  apply dict_get_dict_set.
Qed.

Lemma M_bind_step {A B} (m : M A) (f : A → M B) (p p1 : TypeParser) (a : A) :
  m p = (p1, Ret a) → (m ≫= f) p = f a p1.
Proof. intros E. unfold mbind, M_bind. rewrite E. reflexivity. Qed.

Section ParseDIE.
Context `{PyHash}.
Variable fuel : nat.
Variable int_of_bytes : string → option Z.
Variable dwarfinfo : DWARFInfo.

Local Abbreviation parse_DIE' := (parse_DIE fuel int_of_bytes dwarfinfo).

Lemma parse_DIE_hit (depth : nat) (die : DIE) (cs : option id)
    (p : TypeParser) (tag : id) :
  memo_lookup p die = Some tag →
  parse_DIE' (S depth) die cs p = (p, Ret tag).
Proof.
  intros Hm. cbn [parse_DIE]. unfold parse_DIE_body.
  assert (Hcu : ∃ offsets,
             dict_get (die_cu die) (_TAG_CU_offset_dict p) = Some offsets).
  { unfold memo_lookup in Hm.
    destruct (dict_get (die_cu die) (_TAG_CU_offset_dict p)); [eauto|].
    discriminate. }
  destruct Hcu as [offsets Hcu].
  erewrite M_bind_step; [|unfold modify; rewrite Hcu; reflexivity].
  erewrite M_bind_step; [|reflexivity].
  fold (memo_lookup p die). rewrite Hm. reflexivity.
Qed.

Lemma parse_DIE_miss (depth : nat) (die : DIE) (cs : option id)
    (p : TypeParser) (c : cls) (attrs : gmap string pyv) :
  memo_lookup p die = None →
  parsable_class (die_tag die) = Some c →
  new_attrs c cs = Ret attrs →
  ∃ p1 : TypeParser,
    in_progress die (length (store p)) p1
    ∧ store p1 = store p ++ [mkObj c None empty_Declaration attrs]
    ∧ _unparsed_TAGs p1 = _unparsed_TAGs p ++ [length (store p)]
    ∧ parse_DIE' (S depth) die cs p
      = parse_registered fuel int_of_bytes dwarfinfo (parse_DIE' depth) c
          (length (store p)) die p1.
Proof.
  intros Hm Hc Ha. cbn [parse_DIE]. unfold parse_DIE_body.
  erewrite M_bind_step; [|unfold modify; reflexivity].
  remember (match dict_get (die_cu die) (_TAG_CU_offset_dict p) with
            | Some _ => p
            | None => set_memo (dict_set (die_cu die) []
                                  (_TAG_CU_offset_dict p)) p
            end) as p0 eqn:Hp0.
  assert (Hm0 : memo_lookup p0 die = None).
  { rewrite Hp0. unfold memo_lookup in Hm |- *.
    destruct (dict_get (die_cu die) (_TAG_CU_offset_dict p)) eqn:Hcu.
    - rewrite Hcu. exact Hm.
    - simpl. rewrite dict_get_dict_set. reflexivity. }
  assert (Hs0 : store p0 = store p ∧ _unparsed_TAGs p0 = _unparsed_TAGs p).
  { rewrite Hp0.
    destruct (dict_get (die_cu die) (_TAG_CU_offset_dict p)); auto. }
  destruct Hs0 as [Hs0 Hu0]. clear Hp0.
  erewrite M_bind_step; [|reflexivity].
  fold (memo_lookup p0 die). rewrite Hm0, Hc.
  erewrite M_bind_step;
    [|unfold new_object;
      erewrite M_bind_step; [|unfold lift; rewrite Ha; reflexivity];
      erewrite M_bind_step; [|reflexivity];
      erewrite M_bind_step; [|unfold modify; reflexivity];
      reflexivity].
  erewrite M_bind_step; [|unfold modify; reflexivity].
  erewrite M_bind_step; [|unfold modify; reflexivity].
  rewrite <- Hs0, <- Hu0. eexists. split; [|split; [|split]]; [| | |reflexivity].
  - split; [apply memo_lookup_register|]. split; simpl.
    + apply elem_of_app. right. apply list_elem_of_singleton. reflexivity.
    + rewrite length_app. simpl. lia.
  - reflexivity.
  - reflexivity.
Qed.
End ParseDIE.
(** ** A record that is being parsed stays in the memo table *)

Lemma dict_get_dict_set_ne {K V} `{EqDecision K} (k k' : K) (v : V)
    (d : list (K * V)) :
  k ≠ k' → dict_get k (dict_set k' v d) = dict_get k d.
Proof.
  intros Hne. induction d as [|[k0 v0] d IH]; simpl.
  - destruct (decide (k' = k)); congruence.
  - destruct (decide (k0 = k')) as [->|Hne0]; simpl.
    + destruct (decide (k' = k)); [congruence|]. reflexivity.
    + destruct (decide (k0 = k)); [reflexivity|exact IH].
Qed.

Lemma memo_lookup_register_ne (die die' : DIE) (t : id) (p : TypeParser) :
  memo_lookup p die' = None → is_Some (memo_lookup p die) →
  memo_lookup (register die' t p) die = memo_lookup p die.
Proof.
  unfold memo_lookup, register. simpl. intros Hnone [tag Hsome].
  destruct (decide (die_cu die = die_cu die')) as [Hcu|Hcu].
  - rewrite Hcu in Hsome |- *. rewrite dict_get_dict_set.
    destruct (dict_get (die_cu die') (_TAG_CU_offset_dict p)) as [offsets|];
      [|discriminate].
    simpl in *. apply dict_get_dict_set_ne. congruence.
  - rewrite dict_get_dict_set_ne by exact Hcu. reflexivity.
Qed.

Lemma elem_of_remove_first (x t : id) (l : list id) :
  x ∈ l → x ≠ t → x ∈ remove_first t l.
Proof.
  induction l as [|y l IH]; simpl; [intros []%elem_of_nil|].
  intros [->|Hx]%elem_of_cons Hne.
  - destruct (decide (y = t)); [contradiction|]. apply elem_of_cons. auto.
  - destruct (decide (y = t)); [exact Hx|]. apply elem_of_cons. auto.
Qed.

Lemma length_setattr (h : heap) (o : id) (a : string) (v : pyv) :
  length (setattr h o a v) = length h.
Proof.
  unfold setattr. destruct (h !! o); [apply length_insert|reflexivity].
Qed.

Section Keeps.
Context {Q : TypeParser → Prop}.

Lemma keeps_ret {A} (a : A) : keeps Q (mret a).
Proof. intros p Hp. exact Hp. Qed.

Lemma keeps_lift {A} (r : res A) : keeps Q (lift r).
Proof. intros p Hp. exact Hp. Qed.

Lemma keeps_raise {A} (e : exn) : keeps Q (raise e : M A).
Proof. intros p Hp. exact Hp. Qed.

Lemma keeps_get_parser : keeps Q get_parser.
Proof. intros p Hp. exact Hp. Qed.

Lemma keeps_bind {A B} (m : M A) (f : A → M B) :
  keeps Q m → (∀ a, keeps Q (f a)) → keeps Q (m ≫= f).
Proof.
  intros Hm Hf p Hp. specialize (Hm p Hp). unfold mbind, M_bind.
  destruct (m p) as [p1 [a| |]]; simpl in *; [apply Hf|..]; assumption.
Qed.

Lemma keeps_try_except {A} (m : M A) (handler : exn → M A) :
  keeps Q m → (∀ e, keeps Q (handler e)) → keeps Q (try_except m handler).
Proof.
  intros Hm Hh p Hp. specialize (Hm p Hp). unfold try_except.
  destruct (m p) as [p1 [a| |]]; simpl in *; [|apply Hh|]; assumption.
Qed.

Lemma keeps_for_each {A} (l : list A) (body : A → M unit) :
  (∀ x, keeps Q (body x)) → keeps Q (for_each l body).
Proof.
  intros Hb. induction l as [|x l IH]; simpl; [apply keeps_ret|].
  apply keeps_bind; auto.
Qed.

Lemma keeps_m_getattr (o : id) (a : string) : keeps Q (m_getattr o a).
Proof. intros p Hp. exact Hp. Qed.

Lemma keeps_m_class_of (o : id) : keeps Q (m_class_of o).
Proof. intros p Hp. exact Hp. Qed.

Lemma keeps_the_tag (v : pyv) (method : string) : keeps Q (the_tag v method).
Proof. destruct v; first [apply keeps_ret | apply keeps_raise]. Qed.
End Keeps.

Section InProgress.
Context `{PyHash}.
Variable fuel : nat.
Variable int_of_bytes : string → option Z.
Variable dwarfinfo : DWARFInfo.
Variable die : DIE.
Variable tag : id.

Local Abbreviation Q := (in_progress die tag).

Lemma keeps_store (f : TypeParser → heap) :
  (∀ p, (length (store p) ≤ length (f p))%nat) →
  keeps Q (modify (λ p, set_store (f p) p)).
Proof.
  intros Hf p (Hm & Hu & Hl). repeat split; try assumption. simpl.
  specialize (Hf p). lia.
Qed.

Lemma keeps_m_setattr (o : id) (a : string) (v : pyv) :
  keeps Q (m_setattr o a v).
Proof.
  apply (keeps_store (λ p, setattr (store p) o a v)). intros p.
  rewrite length_setattr. lia.
Qed.

Lemma keeps_set_die (o : id) (d : die_key) : keeps Q (set_die o d).
Proof.
  intros p (Hm & Hu & Hl). unfold set_die, modify. simpl.
  destruct (store p !! o); repeat split; try assumption. simpl.
  eapply Nat.lt_le_trans; [exact Hl|].
  apply Nat.eq_le_incl. symmetry. apply length_insert.
Qed.

Lemma keeps_set_decl (o : id) (d : Declaration) : keeps Q (set_decl o d).
Proof.
  intros p (Hm & Hu & Hl). unfold set_decl, modify. simpl.
  destruct (store p !! o); repeat split; try assumption. simpl.
  eapply Nat.lt_le_trans; [exact Hl|].
  apply Nat.eq_le_incl. symmetry. apply length_insert.
Qed.

Lemma keeps_m_find_equal (x : id) (l : list id) :
  keeps Q (m_find_equal fuel x l).
Proof. intros p Hp. exact Hp. Qed.

(** One step of a proof that a method keeps [Q]. *)
Ltac keeps_step :=
  first
    [ apply keeps_ret | apply keeps_lift | apply keeps_raise
    | apply keeps_get_parser | apply keeps_m_getattr | apply keeps_m_class_of
    | apply keeps_the_tag | apply keeps_m_setattr | apply keeps_set_die
    | apply keeps_set_decl | apply keeps_m_find_equal
    | assumption
    | apply keeps_bind; [|intros ?]
    | apply keeps_try_except; [|intros ?]
    | apply keeps_for_each; intros ?
    | match goal with
      | |- keeps _ (match ?x with _ => _ end) => destruct x
      end ].

Lemma keeps_assign (o : id) (a : string) (r : res pyv) : keeps Q (assign o a r).
Proof. unfold assign. repeat keeps_step. Qed.

Lemma keeps_add_referrer (self typed : id) : keeps Q (add_referrer self typed).
Proof. unfold add_referrer, m_tags. repeat keeps_step. Qed.

Lemma keeps_register_typedef (self typedef : id) :
  keeps Q (register_typedef fuel self typedef).
Proof. unfold register_typedef, m_tags. repeat keeps_step. Qed.

Lemma keeps_update_from (self update : id) : keeps Q (update_from self update).
Proof.
  unfold update_from. repeat first [keeps_step | apply keeps_add_referrer].
Qed.

Lemma keeps_parse_complete (self : id) : keeps Q (parse_complete fuel self).
Proof.
  unfold parse_complete. repeat first [keeps_step | apply keeps_register_typedef].
Qed.
Section Kinds.
Variable rec : DIE → option id → M id.
Hypothesis Hrec : ∀ d cs, keeps Q (rec d cs).

Lemma keeps_parse_all (l : list DIE) (cs : option id) :
  keeps Q (parse_all rec l cs).
Proof using Hrec.
  induction l as [|ch l IH]; simpl; repeat first [apply Hrec | keeps_step].
Qed.

Lemma keeps_find_specification (self : id) (d : DIE) (siblings : list DIE) :
  keeps Q (find_specification dwarfinfo rec self d siblings).
Proof using Hrec.
  induction siblings as [|sibling rest IH]; simpl;
    repeat first [apply Hrec | apply keeps_update_from | keeps_step].
Qed.

Ltac unfold_parse :=
  unfold BaseType_parse, UnspecifiedType_parse, TypeDefType_parse,
    StructureUnionClassAbstractType_parse, Member_parse, Enumerator_parse,
    EnumerationType_parse, AlignedModifier_parse, AbstractModifierType_parse,
    PointerType_parse, SharedType_parse, Subrange_parse, ArrayType_parse,
    FormalParameter_parse, SubroutineType_parse, Variable_parse,
    Namespace_parse, AbstractTAG_parse, Declaration_parse, Accessible_parse,
    Aligned_parse, Artificial_parse, Declarable_parse, Named_parse,
    Sized_parse, Typed_parse, linkage_name_parse, parse_children,
    get_die_attribute_block_or_int_or_ref, get_die_attribute_ref, m_tags.

Lemma keeps_parse_method (c : cls) (self : id) (d : DIE) :
  keeps Q (parse_method int_of_bytes dwarfinfo rec c self d).
Proof using Hrec.
  destruct c; cbn [parse_method]; unfold_parse;
    repeat first
      [ apply Hrec | apply keeps_assign | apply keeps_add_referrer
      | apply keeps_parse_all | apply keeps_find_specification
      | keeps_step ].
Qed.
End Kinds.

Lemma keeps_modify (f : TypeParser → TypeParser) :
  (∀ p, Q p → Q (f p)) → keeps Q (modify f).
Proof. intros Hf p Hp. apply Hf, Hp. Qed.

Lemma keeps_get_bind {B} (f : TypeParser → M B) :
  (∀ p, Q p → Q (f p p).1) → keeps Q (get_parser ≫= f).
Proof. intros Hf p Hp. apply Hf, Hp. Qed.

Lemma keeps_parse_registered (rec : DIE → option id → M id) (c : cls)
    (tag' : id) (d : DIE) :
  (∀ d cs, keeps Q (rec d cs)) → tag' ≠ tag →
  keeps Q (parse_registered fuel int_of_bytes dwarfinfo rec c tag' d).
Proof.
  intros Hrec Hne. unfold parse_registered.
  apply keeps_bind; [apply keeps_parse_method, Hrec|intros _].
  apply keeps_bind; [apply keeps_parse_complete|intros _].
  apply keeps_bind; [|intros _].
  { apply keeps_modify. intros p (Hm & Hu & Hl). repeat split; try assumption.
    simpl. apply elem_of_remove_first; auto. }
  apply keeps_bind; [|intros _].
  { apply keeps_modify. intros p Hp. exact Hp. }
  apply keeps_get_bind. intros p (Hm & Hu & Hl).
  destruct (bool_decide_reflect (_unparsed_TAGs p = [])) as [Hnil|_].
  - rewrite Hnil in Hu. apply elem_of_nil in Hu. contradiction.
  - repeat split; assumption.
Qed.

Lemma keeps_parse_DIE (depth : nat) (d : DIE) (cs : option id) :
  keeps Q (parse_DIE fuel int_of_bytes dwarfinfo depth d cs).
Proof.
  revert d cs. induction depth as [|n IH]; intros d cs; [apply keeps_lift|].
  cbn [parse_DIE]. unfold parse_DIE_body.
  apply keeps_bind; [|intros _].
  { apply keeps_modify. intros p (Hm & Hu & Hl).
    destruct (dict_get (die_cu d) (_TAG_CU_offset_dict p)) eqn:Hcu;
      [repeat split; assumption|].
    repeat split; try assumption. unfold memo_lookup in Hm |- *. simpl.
    rewrite dict_get_dict_set_ne; [exact Hm|].
    intros Heq. rewrite Heq, Hcu in Hm. discriminate. }
  apply keeps_get_bind. intros p (Hm & Hu & Hl).
  fold (memo_lookup p d).
  destruct (memo_lookup p d) as [t|] eqn:Hd; [repeat split; assumption|].
  destruct (parsable_class (die_tag d)) as [c|]; [|repeat split; assumption].
  unfold new_object.
  destruct (new_attrs c cs) as [attrs| |] eqn:Ha;
    [|repeat split; assumption..].
  erewrite M_bind_step;
    [|erewrite M_bind_step; [|reflexivity];
      erewrite M_bind_step; [|reflexivity];
      erewrite M_bind_step; [|unfold modify; reflexivity];
      reflexivity].
  erewrite M_bind_step; [|unfold modify; reflexivity].
  erewrite M_bind_step; [|unfold modify; reflexivity].
  apply keeps_parse_registered; [exact IH|lia|].
  repeat split.
  - etransitivity; [|exact Hm].
    apply (memo_lookup_register_ne die d (length (store p))
             (set_store (store p ++ [mkObj c None empty_Declaration attrs]) p)
             Hd).
    exists tag. exact Hm.
  - simpl. apply elem_of_app. auto.
  - simpl. rewrite length_app. simpl. lia.
Qed.
End InProgress.
(** *** C6: the memo table of [parse_DIE] *)



(** ** The passes after parsing, at inputs where they go wrong *)

(** C1.  [enum X { A = 0 }] and [enum Y { A = 0, B = 1 }]: the enumerator
    [A] of [Y] (TAG 3) duplicates the enumerator [A] of [X] (TAG 1).
    [_remove_duplicates] goes through the typed attributes of the classes
    above the class of a TAG, not through those the class declares itself:
    it never looks at [enumerators].  It returns, TAG 3 is gone from the
    canonical table, and [Y], which stays, still holds TAG 3 in
    [enumerators].  With duplicates not allowed TAG 3 is replaced when it
    is sorted, with the same result. *)
Theorem _remove_duplicates_skips_own_attributes :
  let p := set_duplicates [(1%nat, [3%nat])] Samples.enum_parser in
  let r := @_remove_duplicates sample_hash 10 5 None p in
  let q := (Samples.extract false Samples.enum_unit).1 in
  ("enumerators" ∈ TYPED_ATTR_NAMES (C EnumerationType))
  ∧ ("enumerators" ∉ typed_attr_names EnumerationType)
  ∧ @_get_duplicates sample_hash 10 Samples.enum_parser
    = Ret [(1%nat, [3%nat])]
  ∧ getattr (store p) 2%nat "enumerators" = Ret (PTags [3%nat; 4%nat])
  ∧ r.2 = Ret []
  ∧ @_is_tag_in_tag_list sample_hash 10 r.1 1%nat = Ret true
  ∧ @_is_tag_in_tag_list sample_hash 10 r.1 2%nat = Ret true
  ∧ @_is_tag_in_tag_list sample_hash 10 r.1 3%nat = Ret false
  ∧ getattr (store r.1) 2%nat "enumerators" = Ret (PTags [3%nat; 4%nat])
  ∧ @_is_tag_in_tag_list sample_hash 10 q 2%nat = Ret true
  ∧ @_is_tag_in_tag_list sample_hash 10 q 3%nat = Ret false
  ∧ getattr (store q) 2%nat "enumerators" = Ret (PTags [3%nat; 4%nat]).
Proof.
  intros p r q.
  split; [apply (bool_decide_unpack _); vm_compute; exact I|].
  split; [apply (bool_decide_unpack _); vm_compute; exact I|].
  vm_compute. repeat split.
Qed.

(** Two equal typedefs, duplicates allowed: [_remove_TAG_exact] hands the
    replacement to [deinit] by position, which [TypeDefType.deinit] does
    not take; the pass raises. *)
Lemma _remove_duplicates_typedef_raises :
  @_get_duplicates sample_hash 10 Samples.typedefs_parser
  = Ret [(1%nat, [2%nat])]
  ∧ (@_remove_duplicates sample_hash 10 5 None
       (set_duplicates [(1%nat, [2%nat])] Samples.typedefs_parser)).2
    = Raise (TypeError "deinit() takes 1 positional argument but 2 were given").
Proof. vm_compute. split; reflexivity. Qed.

(** C3.  The static member [count] of [A] (TAG 2) is a declaration, the
    member [count] of [B] (TAG 4) has its name and is none: TAG 2 is
    completed from TAG 4 and removed from the canonical table, the list
    [members] of [A] keeps it, and the validation reports it. *)
Theorem _validate_references_after_completion :
  let r := Samples.extract false Samples.static_unit in
  r.2 = Ret tt
  ∧ completed_declarations r.1 = [2%nat]
  ∧ getattr (store r.1) 1%nat "members" = Ret (PTags [2%nat])
  ∧ @_is_tag_in_tag_list sample_hash 10 r.1 1%nat = Ret true
  ∧ @_is_tag_in_tag_list sample_hash 10 r.1 2%nat = Ret false
  ∧ invalid_references r.1 = [(1%nat, "members", Some 0%nat)].
Proof. vm_compute. repeat split. Qed.

(** C7.  The typedef [T] that is a declaration (TAG 1) has the typedef [T]
    that is none (TAG 2) as its candidate.  [_complete_declaration] takes
    TAG 1 from the canonical table and then calls [deinit] with the
    replacement by position, as [_remove_TAG_exact] does for every class;
    [TypeDefType.deinit] takes it by keyword only.  The extraction ends
    with this [TypeError], and the pointer (TAG 3) still refers to
    TAG 1. *)
Theorem _complete_declaration_typedef_raises :
  let p := (Samples.run false false
              (@materialize sample_hash 10 (λ _, None)
                 [Samples.typedef_decl_unit] 20)).1 in
  let c := @_complete_declaration sample_hash 10 p in
  let r := Samples.extract false Samples.typedef_decl_unit in
  @is_declaration (store p) 1%nat = Ret true
  ∧ @_is_tag_in_tag_list sample_hash 10 p 1%nat = Ret true
  ∧ getattr (store p) 3%nat "type" = Ret (PRef 1%nat)
  ∧ c.2 = Raise (TypeError "deinit() takes 1 positional argument but 2 were given")
  ∧ @_is_tag_in_tag_list sample_hash 10 c.1 1%nat = Ret false
  ∧ @_is_tag_in_tag_list sample_hash 10 c.1 2%nat = Ret true
  ∧ getattr (store c.1) 3%nat "type" = Ret (PRef 1%nat)
  ∧ r.2 = Raise (TypeError "deinit() takes 1 positional argument but 2 were given").
Proof. vm_compute. repeat split. Qed.
(** ** Facts about the other scalar encoders *)

Module DebugInfoEntriesFacts.
Import DebugInfo DebugInfoEntries.

Lemma int_to_bytes_unsigned_fits (z w : Z) :
  0 <= w → 0 <= z < 2 ^ (8 * w) →
  ∃ bs, int_to_bytes z w false = Ret bs
        ∧ Z.of_nat (length bs) = w
        ∧ le_value bs = z.
Proof.
  intros Hw Hz. unfold int_to_bytes.
  destruct (Z.ltb_spec w 0); [lia|].
  destruct (Z.leb_spec 0 z); [|lia].
  destruct (Z.ltb_spec z (2 ^ (8 * w))); [|lia].
  simpl. eexists; split; [reflexivity|]. split.
  - rewrite length_map, length_seq. lia.
  - rewrite DebugInfoFacts.le_value_shifts. rewrite Z.shiftr_0_r.
    rewrite Z2Nat.id by lia. apply Z.mod_small. lia.
Qed.

Lemma byte_of_Z_mod (z : Z) : byte_of_Z (z + 256) = byte_of_Z z.
Proof.
  unfold byte_of_Z. replace (z + 256) with (z + 1 * 256) by lia.
  rewrite Z_mod_plus_full. reflexivity.
Qed.

Section EncoderFacts.
Context {F : Type}.
Variable float_is_integral : F → bool.
Variable int_of_float : F → Z.
Variable int_of_str : string → option Z.
Variable float_is_zero : F → bool.
Variable str_lower : string → string.
Variable bytes_fromhex : string → option (list Byte.byte).
Variable int_of_str_octal : string → option Z.

Local Abbreviation UInt_to_bytes' :=
  (UInt_to_bytes float_is_integral int_of_float int_of_str).
Local Abbreviation Int_to_bytes' :=
  (DebugInfo.to_bytes float_is_integral int_of_float int_of_str).
Local Abbreviation Pointer_to_bytes' := (@Pointer_to_bytes F int_of_str).
Local Abbreviation Address_to_bytes' := (@Address_to_bytes F int_of_str).
Local Abbreviation Boolean_to_bytes' :=
  (Boolean_to_bytes float_is_zero str_lower).
Local Abbreviation Char_to_bytes' :=
  (@Char_to_bytes F bytes_fromhex int_of_str_octal).
Local Abbreviation UChar_to_bytes' :=
  (@UChar_to_bytes F bytes_fromhex int_of_str_octal).

(** X1.  [UInt.to_bytes] on an integer [z], datawidth [w]: a [ValueError]
    exactly when [z] is outside [0 .. 2^(8w)-1]; inside, [w] bytes whose
    little-endian value is [z].  [None] is encoded as 0, a boolean as 0
    or 1. *)
Theorem UInt_to_bytes_range (w z : Z) :
  (is_ValueError (UInt_to_bytes' (Some w) (CInt z)) ↔ ¬ in_unsigned_range w z)
  ∧ (in_unsigned_range w z →
     ∃ bs, UInt_to_bytes' (Some w) (CInt z) = Ret bs
           ∧ Z.of_nat (length bs) = w
           ∧ le_value bs = z)
  ∧ UInt_to_bytes' (Some w) CNone = UInt_to_bytes' (Some w) (CInt 0)
  ∧ (∀ b : bool, UInt_to_bytes' (Some w) (CBool b)
                 = UInt_to_bytes' (Some w) (CInt (if b then 1 else 0))).
Proof.
  assert (Hneg : w < 0 → ¬ in_unsigned_range w z).
  { intros Hw [H1 H2]. rewrite Z.pow_neg_r in H2 by lia. lia. }
  split; [|split; [|split]]; [| |reflexivity|reflexivity].
  - unfold UInt_to_bytes, UInt_lower_limit, UInt_upper_limit, py_shl1.
    cbn [mbind res_bind].
    destruct (Z.ltb_spec z 0) as [Hlo|Hlo].
    { split; [intros _ [? ?]; lia | intros _; exact I]. }
    destruct (Z.ltb_spec (w * 8) 0) as [Hw|Hw]; cbn [mbind res_bind].
    { split; [intros _; apply Hneg; lia | intros _; exact I]. }
    replace (w * 8) with (8 * w) by lia.
    destruct (Z.ltb_spec (2 ^ (8 * w) - 1) z) as [Hhi|Hhi].
    { split; [intros _ [? ?]; lia | intros _; exact I]. }
    destruct (int_to_bytes_unsigned_fits z w) as (bs & -> & _); [lia|lia|].
    split; [intros [] | intros Hn; apply Hn; split; lia].
  - intros [H1 H2].
    assert (Hw : 0 <= w).
    { destruct (Z.leb_spec 0 w); [assumption|]. exfalso.
      apply (Hneg ltac:(lia)). split; assumption. }
    unfold UInt_to_bytes, UInt_lower_limit, UInt_upper_limit, py_shl1.
    cbn [mbind res_bind].
    destruct (Z.ltb_spec z 0); [lia|].
    destruct (Z.ltb_spec (w * 8) 0); [lia|]. cbn [mbind res_bind].
    replace (w * 8) with (8 * w) by lia.
    destruct (Z.ltb_spec (2 ^ (8 * w) - 1) z); [lia|].
    apply int_to_bytes_unsigned_fits; lia.
Qed.

(** X2.  [Address.to_bytes], [Pointer.to_bytes] and [Reference.to_bytes] are
    one function, whatever the value; on every value that is not a
    boolean or a float it is [UInt.to_bytes]; a boolean and a float,
    which [UInt.to_bytes] converts, are a [ValueError]. *)
Theorem Pointer_to_bytes_UInt (w : Z) (value : ConvertibleValue F) :
  Address_to_bytes' (Some w) value = Pointer_to_bytes' (Some w) value
  ∧ match value with
    | CBool _ | CFloat _ =>
        Pointer_to_bytes' (Some w) value = Raise (ValueError "value")
    | _ => Pointer_to_bytes' (Some w) value = UInt_to_bytes' (Some w) value
    end.
Proof.
  assert (Hint : ∀ z, Address_to_bytes' (Some w) (CInt z)
                      = Pointer_to_bytes' (Some w) (CInt z)).
  { intros z. unfold Address_to_bytes, Pointer_to_bytes, UInt_lower_limit,
      UInt_upper_limit. cbn [mbind res_bind].
    destruct (z <? 0); [reflexivity|].
    destruct (py_shl1 (w * 8)) as [p| |]; cbn [mbind res_bind];
      try reflexivity.
    destruct (Z.ltb_spec (p - 1) z), (Z.leb_spec p z); try lia; reflexivity. }
  assert (Hstr : ∀ s, Address_to_bytes' (Some w) (CStr s)
                      = Pointer_to_bytes' (Some w) (CStr s)).
  { intros s. specialize (Hint (default 0 (int_of_str s))).
    unfold Address_to_bytes, Pointer_to_bytes in *.
    destruct (int_of_str s); [exact Hint|reflexivity]. }
  split.
  - destruct value as [|b|s|f|z| |];
      [exact (Hint 0)|reflexivity|apply Hstr|reflexivity|apply Hint
      |reflexivity..].
  - destruct value as [|b|s|f|z| |]; try reflexivity.
    + change (Pointer_to_bytes' (Some w) (CInt 0)
              = UInt_to_bytes' (Some w) (CInt 0)).
      rewrite <- Hint. reflexivity.
    + rewrite <- Hstr. reflexivity.
    + rewrite <- Hint. reflexivity.
Qed.


(** X4.  On [None], a boolean and an integer, [Char.to_bytes] is
    [Int.to_bytes] with datawidth 1 and [UChar.to_bytes] is
    [UInt.to_bytes] with datawidth 1: the same byte or the same
    [ValueError]. *)
Theorem Char_to_bytes_Int (value : ConvertibleValue F) :
  match value with
  | CNone | CBool _ | CInt _ =>
      Char_to_bytes' (Some 1) value = Int_to_bytes' (Some 1) value
      ∧ UChar_to_bytes' (Some 1) value = UInt_to_bytes' (Some 1) value
  | _ => True
  end.
Proof.
  assert (Hc : ∀ z, Char_to_bytes' (Some 1) (CInt z)
                    = Int_to_bytes' (Some 1) (CInt z)).
  { intros z. unfold Char_to_bytes, to_bytes, lower_limit, upper_limit,
      py_shl1, bytes_of_int, int_to_bytes. simpl.
    change (1 * 8 - 1) with 7. change (8 * 1 - 1) with 7.
    change (2 ^ 7) with 128. change (- (128)) with (-128).
    change (128 - 1) with 127. change (7 <? 0) with false.
    cbn [mbind res_bind]. change (- (128)) with (-128).
    change (128 - 1) with 127.
    destruct (Z.ltb_spec z (-128)); simpl; [reflexivity|].
    destruct (Z.ltb_spec 127 z); simpl; [reflexivity|].
    destruct (Z.leb_spec (-128) z); [|lia].
    destruct (Z.ltb_spec z 128); [|lia]. simpl.
    rewrite Z.shiftr_0_r.
    destruct (Z.ltb_spec z 0).
    - destruct (Z.leb_spec 0 (z + 256)); [|lia].
      destruct (Z.ltb_spec (z + 256) 256); [|lia]. simpl.
      rewrite byte_of_Z_mod. reflexivity.
    - destruct (Z.leb_spec 0 z); [|lia].
      destruct (Z.ltb_spec z 256); [|lia]. reflexivity. }
  assert (Hu : ∀ z, UChar_to_bytes' (Some 1) (CInt z)
                    = UInt_to_bytes' (Some 1) (CInt z)).
  { intros z. unfold UChar_to_bytes, UInt_to_bytes, UInt_lower_limit,
      UInt_upper_limit, py_shl1, bytes_of_int, int_to_bytes. simpl.
    change (1 * 8) with 8. change (8 * 1) with 8. change (2 ^ 8) with 256.
    change (8 <? 0) with false. cbn [mbind res_bind].
    change (256 - 1) with 255.
    destruct (Z.ltb_spec z 0); simpl; [reflexivity|].
    destruct (Z.ltb_spec 255 z); simpl; [reflexivity|].
    destruct (Z.leb_spec 0 z); [|lia].
    destruct (Z.ltb_spec z 256); [|lia]. simpl.
    rewrite Z.shiftr_0_r. reflexivity. }
  destruct value as [|[]| | |z| |]; try exact I; split;
    first [apply Hc | apply Hu | reflexivity].
Qed.
End EncoderFacts.

(** A two-byte entry: 513 is in range and is encoded as [01 02]. *)
Lemma UInt_to_bytes_range_witness :
  in_unsigned_range 2 513
  ∧ ∃ bs, UInt_to_bytes (λ _ : unit, true) (λ _, 0) (λ _, None)
            (Some 2) (CInt 513) = Ret bs
          ∧ Z.of_nat (length bs) = 2
          ∧ le_value bs = 513.
Proof.
  assert (H : in_unsigned_range 2 513)
    by (unfold in_unsigned_range; simpl; lia).
  split; [exact H|].
  exact (proj1 (proj2 (UInt_to_bytes_range (λ _ : unit, true) (λ _, 0)
                         (λ _, None) 2 513)) H).
Defined.


End DebugInfoEntriesFacts.
(** ** The canonical table: filing, finding and removing a TAG *)

Lemma bool_decide_elem_of_snoc (x tag : id) (l : list id) :
  x ≠ tag → bool_decide (x ∈ l ++ [tag]) = bool_decide (x ∈ l).
Proof.
  intros Hx. apply bool_decide_ext. rewrite elem_of_app, list_elem_of_singleton.
  tauto.
Qed.

Lemma bool_decide_elem_of_singleton_ne (x tag : id) :
  x ≠ tag → bool_decide (x ∈ [tag]) = false.
Proof.
  intros Hx. apply bool_decide_eq_false. rewrite list_elem_of_singleton.
  exact Hx.
Qed.

Lemma bool_decide_elem_of_snoc_self (tag : id) (l : list id) :
  bool_decide (tag ∈ l ++ [tag]) = true.
Proof.
  apply bool_decide_eq_true. rewrite elem_of_app, list_elem_of_singleton. auto.
Qed.

Section Tables.
Context `{PyHash}.
Variable fuel : nat.

Lemma _is_tag_in_tag_list_same (p p' : TypeParser) (x : id) :
  store p' = store p →
  (∀ c hv, class_of (store p) x = Ret c →
           tag_hash fuel (store p) x = Ret hv →
           bool_decide (x ∈ default [] (dict_get c (_TAG_class_hash_dict p')
                                          ≫= dict_get hv))
           = bool_decide (x ∈ default [] (dict_get c (_TAG_class_hash_dict p)
                                            ≫= dict_get hv))) →
  _is_tag_in_tag_list fuel p' x = _is_tag_in_tag_list fuel p x.
Proof.
  intros Hs Hb. unfold _is_tag_in_tag_list. rewrite Hs.
  destruct (class_of (store p) x) as [c| |] eqn:Hc; try reflexivity.
  cbn [mbind res_bind].
  destruct (tag_hash fuel (store p) x) as [hv| |] eqn:Hh; try reflexivity.
  cbn [mbind res_bind]. specialize (Hb c hv eq_refl eq_refl).
  destruct (dict_get c (_TAG_class_hash_dict p')) as [d'|],
    (dict_get c (_TAG_class_hash_dict p)) as [d|]; simpl in Hb |- *;
    repeat match goal with
           | |- context [dict_get hv ?d] => destruct (dict_get hv d)
           end; simpl in Hb |- *; rewrite ?Hb; try reflexivity;
    try (rewrite <- Hb; reflexivity).
Qed.

(** X5.  [add_TAG] files the TAG where [_is_tag_in_tag_list] looks for it: when
    it returns, the TAG is found, the objects are as they were, and every
    other TAG is found exactly when it was found before. *)
Theorem add_TAG_found (tag : id) (p p' : TypeParser) :
  add_TAG fuel tag p = (p', Ret tt) →
  store p' = store p
  ∧ _is_tag_in_tag_list fuel p' tag = Ret true
  ∧ ∀ x, x ≠ tag →
         _is_tag_in_tag_list fuel p' x = _is_tag_in_tag_list fuel p x.
Proof.
  unfold add_TAG. intros E.
  apply M_bind_Ret in E as (p1 & d & Ed & E).
  assert (p1 = p) as ->.
  { unfold m_die in Ed. apply M_bind_Ret in Ed as (q & q' & Eq & Ed).
    injection Eq as <- <-.
    destruct (store p !! tag) as [ob|]; [|discriminate].
    destruct (odie ob); [|discriminate]. injection Ed as <- _. reflexivity. }
  apply M_bind_Ret in E as (q & q' & Eq & E). injection Eq as <- <-.
  destruct (dict_get d.1 (_TAG_CU_offset_dict p)) as [offsets|]; [|discriminate].
  apply M_bind_Ret in E as (p2 & [] & Em & E). injection Em as <-.
  apply M_bind_Ret in E as (p3 & hv & Eh & E). injection Eh as <- Eh.
  apply M_bind_Ret in E as (p4 & c & Ec & E). injection Ec as <- Ec.
  injection E as <-. simpl in Eh, Ec.
  split; [reflexivity|]. split.
  - unfold _is_tag_in_tag_list. simpl. rewrite Ec, Eh. cbn [mbind res_bind].
    destruct (dict_get c (_TAG_class_hash_dict p)) as [TAG_hash_dict|].
    + rewrite dict_get_dict_set.
      destruct (dict_get hv TAG_hash_dict) as [l|];
        rewrite dict_get_dict_set; f_equal;
        [apply bool_decide_elem_of_snoc_self
        |apply (bool_decide_elem_of_snoc_self tag [])].
    + rewrite dict_get_dict_set. simpl.
      destruct (decide (hv = hv)); [|congruence].
      f_equal. apply (bool_decide_elem_of_snoc_self tag []).
  - intros x Hx. apply _is_tag_in_tag_list_same; [reflexivity|].
    intros cx hx _ _. simpl.
    destruct (decide (cx = c)) as [->|Hc].
    + destruct (dict_get c (_TAG_class_hash_dict p)) as [TAG_hash_dict|];
        rewrite dict_get_dict_set; simpl.
      * destruct (decide (hx = hv)) as [->|Hh].
        -- destruct (dict_get hv TAG_hash_dict) as [l|];
             rewrite dict_get_dict_set; simpl;
             [apply bool_decide_elem_of_snoc, Hx
             |apply bool_decide_elem_of_singleton_ne, Hx].
        -- destruct (dict_get hv TAG_hash_dict) as [l|];
             rewrite dict_get_dict_set_ne by congruence; reflexivity.
      * destruct (decide (hv = hx)); simpl;
          [apply bool_decide_elem_of_singleton_ne, Hx|reflexivity].
    + destruct (dict_get c (_TAG_class_hash_dict p));
        rewrite dict_get_dict_set_ne by congruence; reflexivity.
Qed.

Lemma dict_get_map_values {K V} `{EqDecision K} (f : V → V) (k : K)
    (d : list (K * V)) :
  dict_get k (map (λ '(k', v), (k', f v)) d) = f <$> dict_get k d.
Proof.
  induction d as [|[k' v] d IH]; simpl; [reflexivity|].
  destruct (decide (k' = k)); [reflexivity|exact IH].
Qed.

Lemma dict_get_elem_of {K V} `{EqDecision K} (k : K) (v : V)
    (d : list (K * V)) :
  dict_get k d = Some v → (k, v) ∈ d.
Proof.
  induction d as [|[k' v'] d IH]; simpl; [discriminate|].
  destruct (decide (k' = k)) as [->|].
  - intros [= ->]. apply elem_of_cons. auto.
  - intros E. apply elem_of_cons. auto.
Qed.

Lemma bool_decide_elem_of_filter_ne (x tag : id) (l : list id) :
  x ≠ tag →
  bool_decide (x ∈ filter (λ t, t ≠ tag) l) = bool_decide (x ∈ l).
Proof.
  intros Hx. apply bool_decide_ext. rewrite list_elem_of_filter. tauto.
Qed.

(** X6.  [_remove_TAG_exact(tag, deinit=False)], when it returns: the objects
    are as they were, no entry of the memo table holds the TAG,
    [_is_tag_in_tag_list] does not find it, and every other TAG is found
    exactly when it was found before. *)
Theorem _remove_TAG_exact_gone (tag : id) (p p' : TypeParser) :
  _remove_TAG_exact tag false None p = (p', Ret tt) →
  store p' = store p
  ∧ (∀ cu offsets offset,
       dict_get cu (_TAG_CU_offset_dict p') = Some offsets →
       dict_get offset offsets ≠ Some tag)
  ∧ (∀ r, _is_tag_in_tag_list fuel p' tag = Ret r → r = false)
  ∧ ∀ x, x ≠ tag →
         _is_tag_in_tag_list fuel p' x = _is_tag_in_tag_list fuel p x.
Proof.
  unfold _remove_TAG_exact. intros E.
  apply M_bind_Ret in E as (p1 & [] & Em & E). injection Em as <-.
  apply M_bind_Ret in E as (p2 & c & Ec & E). injection Ec as <- Ec.
  apply M_bind_Ret in E as (q & q' & Eq & E). injection Eq as <- <-.
  simpl in Ec, E.
  destruct (dict_get c (_TAG_class_hash_dict p)) as [tag_dict|] eqn:Ht;
    [|discriminate].
  apply M_bind_Ret in E as (p3 & [] & Em & E). injection Em as <-.
  injection E as <-. simpl.
  split; [reflexivity|]. split; [|split].
  - intros cu offsets offset Hcu Hoff.
    rewrite (dict_get_map_values (filter (λ ot : Z * id, ot.2 ≠ tag))) in Hcu.
    destruct (dict_get cu (_TAG_CU_offset_dict p)) as [offsets0|];
      [|discriminate].
    injection Hcu as <-. apply dict_get_elem_of in Hoff.
    apply list_elem_of_filter in Hoff as [Hne _]. apply Hne. reflexivity.
  - intros r. unfold _is_tag_in_tag_list. simpl. rewrite Ec.
    cbn [mbind res_bind].
    destruct (tag_hash fuel (store p) tag) as [hv| |]; try discriminate.
    cbn [mbind res_bind]. rewrite dict_get_dict_set.
    rewrite (dict_get_map_values (filter (λ t : id, t ≠ tag))).
    destruct (dict_get hv tag_dict) as [l|]; simpl; intros [= <-];
      [|reflexivity].
    apply bool_decide_eq_false. rewrite list_elem_of_filter. tauto.
  - intros x Hx. apply _is_tag_in_tag_list_same; [reflexivity|].
    intros cx hx _ _. simpl.
    destruct (decide (cx = c)) as [->|Hc].
    + rewrite dict_get_dict_set, Ht. simpl.
      rewrite (dict_get_map_values (filter (λ t : id, t ≠ tag))).
      destruct (dict_get hx tag_dict) as [l|]; simpl; [|reflexivity].
      apply bool_decide_elem_of_filter_ne, Hx.
    + rewrite dict_get_dict_set_ne by congruence. reflexivity.
Qed.

(** X7.  [resort_TAG] files a TAG anew under the hash it has now: when it
    returns the TAG is found, whatever became of its hash since it was
    filed, and every other TAG is found exactly when it was before. *)
Theorem resort_TAG_found (tag : id) (p p' : TypeParser) :
  resort_TAG fuel tag p = (p', Ret tt) →
  store p' = store p
  ∧ _is_tag_in_tag_list fuel p' tag = Ret true
  ∧ ∀ x, x ≠ tag →
         _is_tag_in_tag_list fuel p' x = _is_tag_in_tag_list fuel p x.
Proof.
  unfold resort_TAG. intros E.
  apply M_bind_Ret in E as (p1 & [] & Er & Ea).
  apply _remove_TAG_exact_gone in Er as (Hs1 & _ & _ & Hx1).
  apply add_TAG_found in Ea as (Hs2 & Hin & Hx2).
  split; [congruence|]. split; [exact Hin|].
  intros x Hx. rewrite Hx2, Hx1 by exact Hx. reflexivity.
Qed.
End Tables.

(** The second of the two [int] TAGs, taken from the table and filed
    again. *)
Lemma add_TAG_found_witness :
  let p := (_remove_TAG_exact 1%nat false None Samples.ints_parser).1 in
  let r := @add_TAG sample_hash 10 1%nat p in
  @_is_tag_in_tag_list sample_hash 10 p 1%nat = Ret false
  ∧ @_is_tag_in_tag_list sample_hash 10 r.1 1%nat = Ret true.
Proof.
  intros p r. split; [vm_compute; reflexivity|].
  apply (@add_TAG_found sample_hash 10 1%nat p r.1).
  vm_compute. reflexivity.
Defined.

Lemma _remove_TAG_exact_gone_witness :
  let r := _remove_TAG_exact 1%nat false None Samples.ints_parser in
  @_is_tag_in_tag_list sample_hash 10 Samples.ints_parser 1%nat = Ret true
  ∧ ∀ found, @_is_tag_in_tag_list sample_hash 10 r.1 1%nat = Ret found →
             found = false.
Proof.
  intros r. split; [vm_compute; reflexivity|].
  apply (@_remove_TAG_exact_gone sample_hash 10 1%nat Samples.ints_parser r.1).
  vm_compute. reflexivity.
Defined.

(** The second [int] TAG is renamed after it was filed: it is not found
    under its new hash until it is filed anew. *)
Lemma resort_TAG_found_witness :
  let p := set_store (setattr (store Samples.ints_parser) 1%nat "name"
                        (PStr "long")) Samples.ints_parser in
  let r := @resort_TAG sample_hash 10 1%nat p in
  @_is_tag_in_tag_list sample_hash 10 p 1%nat = Ret false
  ∧ @_is_tag_in_tag_list sample_hash 10 r.1 1%nat = Ret true.
Proof.
  intros p r. split; [vm_compute; reflexivity|].
  apply (@resort_TAG_found sample_hash 10 1%nat p r.1).
  vm_compute. reflexivity.
Defined.
(** ** Validation of the references *)

Lemma sequence_Ret {A} (l : list (res A)) (ls : list A) :
  sequence l = Ret ls → Forall2 (λ r x, r = Ret x) l ls.
Proof.
  revert ls. induction l as [|r l IH]; simpl; intros ls E.
  - injection E as <-. constructor.
  - destruct r as [a| |]; try discriminate. cbn [mbind res_bind] in E.
    destruct (sequence l) as [ls'| |]; try discriminate.
    injection E as <-. constructor; auto.
Qed.

Section Validate.
Context `{PyHash}.
Variable fuel : nat.

Lemma validate_attr_spec (p : TypeParser) (tag : id) (attr_name : string)
    (out : list (id * string * option nat)) :
  validate_attr fuel p tag attr_name = Ret out →
  ∀ tag' attr' idx,
    (tag', attr', idx) ∈ out
    ↔ tag' = tag ∧ attr' = attr_name
      ∧ invalid_reference fuel p tag attr_name idx.
Proof.
  unfold validate_attr, invalid_reference. intros E tag' attr' idx.
  destruct (getattr (store p) tag attr_name) as [[| | | |l|t|l]| |];
    try discriminate; cbn [mbind res_bind] in E.
  - injection E as <-. rewrite elem_of_nil. destruct idx; tauto.
  - injection E as <-. rewrite elem_of_lookup_imap. split.
    + intros (i & z & [= -> -> ->] & Hi). apply lookup_lt_Some in Hi. auto.
    + intros (-> & -> & Hi). destruct idx as [i|]; [|contradiction].
      apply lookup_lt_is_Some in Hi as [z Hz]. eauto.
  - destruct (_is_tag_in_tag_list fuel p t) as [[]| |] eqn:Hin;
      try discriminate; injection E as <-.
    + rewrite elem_of_nil. destruct idx; [tauto|]. split; [tauto|].
      intros (_ & _ & ?). discriminate.
    + rewrite list_elem_of_singleton. split.
      * intros [= -> -> ->]. auto.
      * intros (-> & -> & Hi). destruct idx; [contradiction|reflexivity].
  - destruct (sequence (map (_is_tag_in_tag_list fuel p) l)) as [oks| |] eqn:Hs;
      try discriminate.
    injection E as <-. apply sequence_Ret in Hs.
    rewrite list_elem_of_omap. split.
    + intros ([i ok] & Hin & Hf). apply elem_of_lookup_imap in Hin
        as (i' & ok' & [= <- <-] & Hi).
      destruct ok; [discriminate|]. injection Hf as <- <- <-.
      split; [reflexivity|]. split; [reflexivity|].
      destruct (Forall2_lookup_r _ _ _ _ _ Hs Hi) as (r & Hr & ->).
      rewrite list_lookup_fmap in Hr.
      destruct (l !! i) as [t|] eqn:Hl; [|discriminate].
      injection Hr as Hr. exists t. auto.
    + intros (-> & -> & Hi). destruct idx as [i|]; [|contradiction].
      destruct Hi as (t & Hl & Hin).
      assert (Hm : map (_is_tag_in_tag_list fuel p) l !! i = Some (Ret false)).
      { change (map ?f l) with (f <$> l). rewrite list_lookup_fmap, Hl.
        simpl. rewrite Hin. reflexivity. }
      destruct (Forall2_lookup_l _ _ _ _ _ Hs Hm) as (ok & Hok & [= <-]).
      exists (i, false). split; [|reflexivity].
      apply (elem_of_lookup_imap_2 (λ idx ok, (idx, ok))), Hok.
Qed.

End Validate.


(** ** What it means that no duplicates are found *)

Section NoDuplicates.
Context `{PyHash}.
Variable fuel : nat.

Lemma tagdict_find_Some {V} (h : heap) (key : id) (hk : Z)
    (d : list (id * V)) (k : id) :
  tagdict_find fuel h key hk d = Ret (Some k) → d ≠ [].
Proof. destruct d; [discriminate|congruence]. Qed.

Lemma tagdict_append_nonempty (h : heap) (original tag : id)
    (d d' : list (id * list id)) :
  tagdict_append fuel h original tag d = Ret d' → d' ≠ [].
Proof.
  unfold tagdict_append. intros E.
  destruct (tag_hash fuel h original) as [hk| |]; try discriminate.
  cbn [mbind res_bind] in E.
  destruct (tagdict_find fuel h original hk d) as [[k|]| |] eqn:Hf;
    try discriminate; injection E as <-.
  - apply tagdict_find_Some in Hf. destruct d; [congruence|discriminate].
  - destruct d; discriminate.
Qed.

Lemma bucket_duplicates_nonempty (h : heap) (l uniq : list id)
    (d d' : list (id * list id)) :
  bucket_duplicates fuel h l uniq d = Ret d' → d ≠ [] → d' ≠ [].
Proof.
  revert uniq d. induction l as [|x l IH]; simpl; intros uniq d E Hd.
  - injection E as <-. exact Hd.
  - destruct (find_equal fuel h x uniq) as [[o|]| |]; try discriminate;
      cbn [mbind res_bind] in E.
    + destruct (tagdict_append fuel h o x d) as [d1| |] eqn:Ha;
        try discriminate.
      cbn [mbind res_bind] in E. eapply IH; [exact E|].
      eapply tagdict_append_nonempty, Ha.
    + eapply IH; eassumption.
Qed.

Lemma bucket_duplicates_empty (h : heap) (l uniq : list id)
    (d : list (id * list id)) :
  bucket_duplicates fuel h l uniq d = Ret [] ↔
  d = [] ∧ pairwise_unequal fuel h uniq l.
Proof.
  revert uniq d. induction l as [|x l IH]; simpl; intros uniq d.
  - split; [intros [= ->]; auto | intros [-> _]; reflexivity].
  - destruct (find_equal fuel h x uniq) as [[o|]| |] eqn:Hf;
      cbn [mbind res_bind].
    + split; [|intros (_ & [=] & _)].
      intros E. exfalso.
      destruct (tagdict_append fuel h o x d) as [d1| |] eqn:Ha;
        try discriminate.
      cbn [mbind res_bind] in E.
      apply (bucket_duplicates_nonempty _ _ _ _ _ E); [|reflexivity].
      eapply tagdict_append_nonempty, Ha.
    + rewrite IH. tauto.
    + split; [discriminate|intros (_ & [=] & _)].
    + split; [discriminate|intros (_ & [=] & _)].
Qed.

Lemma class_duplicates_nonempty (h : heap) (buckets : list (list id))
    (d d' : list (id * list id)) :
  class_duplicates fuel h buckets d = Ret d' → d ≠ [] → d' ≠ [].
Proof.
  revert d. induction buckets as [|b buckets IH]; simpl; intros d E Hd.
  - injection E as <-. exact Hd.
  - destruct (bucket_duplicates fuel h b [] d) as [d1| |] eqn:Hb;
      try discriminate.
    cbn [mbind res_bind] in E. eapply IH; [exact E|].
    eapply bucket_duplicates_nonempty; eassumption.
Qed.

Lemma class_duplicates_empty (h : heap) (buckets : list (list id))
    (d : list (id * list id)) :
  class_duplicates fuel h buckets d = Ret [] ↔
  d = [] ∧ Forall (pairwise_unequal fuel h []) buckets.
Proof.
  revert d. induction buckets as [|b buckets IH]; simpl; intros d.
  - split; [intros [= ->]; auto | intros [-> _]; reflexivity].
  - destruct (bucket_duplicates fuel h b [] d) as [d1| |] eqn:Hb;
      cbn [mbind res_bind].
    + rewrite IH. split.
      * intros [-> Hall]. apply bucket_duplicates_empty in Hb as [-> Hb].
        split; [reflexivity|]. constructor; assumption.
      * intros [-> Hall]. apply Forall_cons in Hall as [Hb' Hall].
        assert (Hb0 : bucket_duplicates fuel h b [] [] = Ret [])
          by (apply bucket_duplicates_empty; auto).
        rewrite Hb0 in Hb. injection Hb as <-. auto.
    + split; [discriminate|]. intros [-> Hall].
      apply Forall_cons in Hall as [Hb' _].
      assert (Hb0 : bucket_duplicates fuel h b [] [] = Ret [])
        by (apply bucket_duplicates_empty; auto).
      rewrite Hb0 in Hb. discriminate.
    + split; [discriminate|]. intros [-> Hall].
      apply Forall_cons in Hall as [Hb' _].
      assert (Hb0 : bucket_duplicates fuel h b [] [] = Ret [])
        by (apply bucket_duplicates_empty; auto).
      rewrite Hb0 in Hb. discriminate.
Qed.

(** X9.  [_get_duplicates] returns the empty dictionary exactly when in every
    list of the canonical table no TAG is a repetition of an earlier TAG
    of the list or equal to one. *)
Theorem _get_duplicates_empty (p : TypeParser) :
  _get_duplicates fuel p = Ret [] ↔
  ∀ class_ hash_TAG_dicts tag_by_hash_list,
    (class_, hash_TAG_dicts) ∈ _TAG_class_hash_dict p →
    tag_by_hash_list ∈ dict_values hash_TAG_dicts →
    pairwise_unequal fuel (store p) [] tag_by_hash_list.
Proof.
  unfold _get_duplicates. generalize (_TAG_class_hash_dict p) as classes.
  induction classes as [|[c d] classes IH]; simpl.
  - split; [|reflexivity]. intros _ c d l Hin. apply elem_of_nil in Hin.
    contradiction.
  - destruct (class_duplicates fuel (store p) (dict_values d) []) as [d1| |]
      eqn:Hc; cbn [mbind res_bind].
    + destruct (duplicates_of_classes fuel (store p) classes) as [ds| |]
        eqn:Hd; cbn [mbind res_bind].
      * split.
        -- intros [= Happ]. apply app_eq_nil in Happ as [-> ->].
           apply class_duplicates_empty in Hc as [_ Hall].
           intros c' d' l [[= -> ->]|Hin]%elem_of_cons Hl.
           ++ rewrite Forall_forall in Hall. apply Hall, Hl.
           ++ eapply (proj1 IH eq_refl); eassumption.
        -- intros Hall.
           assert (Hc0 : class_duplicates fuel (store p) (dict_values d) []
                         = Ret []).
           { apply class_duplicates_empty. split; [reflexivity|].
             apply Forall_forall. intros l Hl.
             apply (Hall c d l); [|exact Hl].
             apply elem_of_cons. left. reflexivity. }
           assert (Hd0 : Ret ds = Ret []).
           { apply IH. intros c' d' l Hin Hl.
             apply (Hall c' d' l); [|exact Hl].
             apply elem_of_cons. right. exact Hin. }
           rewrite Hc0 in Hc. injection Hc as <-. injection Hd0 as ->.
           reflexivity.
      * split; [discriminate|]. intros Hall. exfalso.
        assert (Hd0 : Raise e = Ret ([] : list (id * list id))); [|discriminate].
        apply IH. intros c' d' l Hin Hl. apply (Hall c' d' l); [|exact Hl].
        apply elem_of_cons. right. exact Hin.
      * split; [discriminate|]. intros Hall. exfalso.
        assert (Hd0 : OutOfFuel = Ret ([] : list (id * list id)));
          [|discriminate].
        apply IH. intros c' d' l Hin Hl. apply (Hall c' d' l); [|exact Hl].
        apply elem_of_cons. right. exact Hin.
    + split; [discriminate|]. intros Hall. exfalso.
      assert (Hc0 : class_duplicates fuel (store p) (dict_values d) []
                    = Ret []); [|rewrite Hc0 in Hc; discriminate].
      apply class_duplicates_empty. split; [reflexivity|].
      apply Forall_forall. intros l Hl. apply (Hall c d l); [|exact Hl].
      apply elem_of_cons. left. reflexivity.
    + split; [discriminate|]. intros Hall. exfalso.
      assert (Hc0 : class_duplicates fuel (store p) (dict_values d) []
                    = Ret []); [|rewrite Hc0 in Hc; discriminate].
      apply class_duplicates_empty. split; [reflexivity|].
      apply Forall_forall. intros l Hl. apply (Hall c d l); [|exact Hl].
      apply elem_of_cons. left. reflexivity.
Qed.
End NoDuplicates.
(** ** Attributes after an assignment *)

Lemma getattr_setattr_eq (h : heap) (o : id) (a : string) (v : pyv) :
  is_Some (h !! o) → getattr (setattr h o a v) o a = Ret v.
Proof.
  intros [ob Hob]. unfold setattr. rewrite Hob. unfold getattr.
  unfold heap, id in *.
  rewrite list_lookup_insert_eq by (eapply lookup_lt_Some, Hob). simpl.
  rewrite lookup_insert_eq. reflexivity.
Qed.

Lemma getattr_setattr_ne (h : heap) (o o' : id) (a a' : string) (v : pyv) :
  o' ≠ o ∨ a' ≠ a → getattr (setattr h o a v) o' a' = getattr h o' a'.
Proof.
  intros Hne. unfold setattr.
  destruct (h !! o) as [ob|] eqn:Hob; [|reflexivity]. unfold getattr.
  unfold heap, id in *.
  destruct (decide (o' = o)) as [->|Ho].
  - rewrite list_lookup_insert_eq by (eapply lookup_lt_Some, Hob). rewrite Hob.
    simpl. rewrite lookup_insert_ne by (destruct Hne; congruence).
    reflexivity.
  - rewrite list_lookup_insert_ne by congruence. reflexivity.
Qed.

Lemma lookup_setattr_is_Some (h : heap) (o o' : id) (a : string) (v : pyv) :
  is_Some (setattr h o a v !! o') ↔ is_Some (h !! o').
Proof.
  rewrite !lookup_lt_is_Some. unfold setattr. unfold heap, id in *.
  destruct (h !! o); [rewrite length_insert|]; reflexivity.
Qed.

Lemma for_each_setattr (self : id) (attrs : list (string * pyv))
    (p : TypeParser) :
  for_each attrs (λ '(a, v), m_setattr self a v) p
  = (set_store (set_all self attrs (store p)) p, Ret tt).
Proof.
  revert p. induction attrs as [|[a v] attrs IH]; intros p.
  - destruct p; reflexivity.
  - cbn [for_each]. erewrite M_bind_step; [|reflexivity].
    rewrite IH. reflexivity.
Qed.

Lemma lookup_set_all_is_Some (self o : id) (attrs : list (string * pyv))
    (h : heap) :
  is_Some (set_all self attrs h !! o) ↔ is_Some (h !! o).
Proof.
  revert h. induction attrs as [|[a v] attrs IH]; intros h; [reflexivity|].
  unfold set_all in *. simpl. rewrite IH. apply lookup_setattr_is_Some.
Qed.

Lemma getattr_set_all_other (self o : id) (a : string)
    (attrs : list (string * pyv)) (h : heap) :
  o ≠ self ∨ a ∉ attrs.*1 →
  getattr (set_all self attrs h) o a = getattr h o a.
Proof.
  revert h. induction attrs as [|[a' v] attrs IH]; intros h Hne;
    [reflexivity|].
  unfold set_all in *. simpl. rewrite IH.
  - apply getattr_setattr_ne. destruct Hne as [?|Hne]; [auto|].
    right. intros ->. apply Hne. simpl. apply elem_of_cons. auto.
  - destruct Hne as [?|Hne]; [auto|]. right. intros Hin. apply Hne.
    simpl. apply elem_of_cons. auto.
Qed.

Lemma getattr_set_all_in (self : id) (a : string) (v : pyv)
    (attrs : list (string * pyv)) (h : heap) :
  is_Some (h !! self) → NoDup attrs.*1 → (a, v) ∈ attrs →
  getattr (set_all self attrs h) self a = Ret v.
Proof.
  revert h. induction attrs as [|[a' v'] attrs IH]; intros h Hs Hnd Hin.
  - apply elem_of_nil in Hin. contradiction.
  - simpl in Hnd. apply NoDup_cons in Hnd as [Hnotin Hnd].
    unfold set_all in *. simpl.
    apply elem_of_cons in Hin as [[= -> ->]|Hin].
    + fold (set_all self attrs (setattr h self a' v')).
      rewrite getattr_set_all_other by auto.
      apply getattr_setattr_eq, Hs.
    + apply IH; [apply lookup_setattr_is_Some, Hs|exact Hnd|exact Hin].
Qed.

(** ** [Declarable.update_from] *)

Lemma is_None_true (v : pyv) : is_None v = true ↔ v = PNone.
Proof. destruct v; simpl; split; congruence. Qed.

Lemma update_attributes_filter (so : obj) (L : list (string * pyv))
    (l : list (string * pyv * bool)) :
  Forall2 (λ r x, r = Ret x)
    (map (λ '(a, v),
            match oattrs so !! a with
            | Some w => Ret (a, v, is_None w && negb (is_None v))
            | None => Raise (AttributeError a)
            end) L) l →
  NoDup L.*1 →
  NoDup (filter (λ x, x.2 = true) l).*1.*1
  ∧ ∀ a v, (a, v) ∈ (filter (λ x, x.2 = true) l).*1
           ↔ (a, v) ∈ L ∧ v ≠ PNone ∧ oattrs so !! a = Some PNone.
Proof.
  revert l. induction L as [|[a1 v1] L IH]; intros l Hs Hnd.
  - apply Forall2_nil_inv_l in Hs as ->. simpl. split; [constructor|].
    intros a v. rewrite elem_of_nil. tauto.
  - simpl in Hs. apply Forall2_cons_inv_l in Hs as (y & l' & Hy & Hs & ->).
    simpl in Hnd. apply NoDup_cons in Hnd as [Hnotin Hnd].
    destruct (IH l' Hs Hnd) as [IHnd IHin].
    assert (Hsub : ∀ a, a ∈ (filter (λ x, x.2 = true) l').*1.*1 → a ∈ L.*1).
    { intros a Hin. apply list_elem_of_fmap in Hin as ([a' v'] & -> & Hin).
      apply IHin in Hin as [Hin _]. apply list_elem_of_fmap.
      exists (a', v'). auto. }
    destruct (oattrs so !! a1) as [w|] eqn:Hw; [|discriminate].
    injection Hy as <-. rewrite filter_cons. simpl.
    destruct (decide _) as [Hflag|Hflag]; simpl.
    + apply andb_true_iff in Hflag as [Hwn Hvn].
      apply is_None_true in Hwn as ->. apply negb_true_iff in Hvn.
      split; [constructor; auto|].
      intros a v. rewrite !elem_of_cons, IHin. split.
      * intros [[= -> ->]|(? & ? & ?)]; [|auto].
        repeat split; auto. intros ->. discriminate.
      * intros ([[= -> ->]|?] & ? & ?); auto.
    + split; [exact IHnd|]. intros a v. rewrite elem_of_cons, IHin.
      split; [tauto|]. intros ([[= -> ->]|?] & Hv & Hso); [|auto].
      exfalso. apply Hflag. rewrite Hw in Hso. injection Hso as ->.
      simpl. destruct v1; simpl; congruence.
Qed.

Lemma update_attributes_spec (so uo : obj) (attrs : list (string * pyv)) :
  update_attributes so uo = Ret attrs →
  NoDup attrs.*1
  ∧ ∀ a v, (a, v) ∈ attrs ↔
           oattrs uo !! a = Some v ∧ v ≠ PNone ∧ oattrs so !! a = Some PNone.
Proof.
  unfold update_attributes. intros E.
  destruct (sequence _) as [l| |] eqn:Hs; try discriminate.
  cbn [mbind res_bind] in E. injection E as <-.
  apply sequence_Ret in Hs.
  destruct (update_attributes_filter so _ l Hs
              (NoDup_fst_map_to_list (oattrs uo))) as [Hnd Hin].
  split; [exact Hnd|]. intros a v. rewrite Hin, elem_of_map_to_list.
  reflexivity.
Qed.

Lemma add_referrer_other (self typed o : id) (a : string) (p p' : TypeParser)
    (r : res unit) :
  add_referrer self typed p = (p', r) → a ≠ "_referrers" →
  getattr (store p') o a = getattr (store p) o a.
Proof.
  unfold add_referrer, m_tags. intros E Ha.
  unfold mbind, M_bind, m_getattr, lift in E. simpl in E.
  destruct (getattr (store p) self "_referrers") as [v| |];
    try (injection E as <- _; reflexivity).
  simpl in E. destruct (as_tags v) as [l| |];
    try (injection E as <- _; reflexivity).
  injection E as <- _. simpl. apply getattr_setattr_ne. auto.
Qed.

(** X10.  [self.update_from(update)], when it returns, leaves every attribute
    of [self] that was not [None] as it was and gives every attribute
    that was [None] the value it has on [update] (the list of referrers
    apart, to which the method may append). *)
Theorem update_from_fills (self update : id) (p p' : TypeParser) (a : string) :
  update_from self update p = (p', Ret tt) →
  a ≠ "_referrers" →
  getattr (store p') self a
  = match getattr (store p) self a, getattr (store p) update a with
    | Ret PNone, Ret v => Ret v
    | r, _ => r
    end.
Proof.
  unfold update_from. intros E Ha.
  apply M_bind_Ret in E as (q & q' & Eq & E). injection Eq as <- <-.
  destruct (store p !! self) as [so|] eqn:Hso; [|discriminate].
  destruct (store p !! update) as [uo|] eqn:Huo; [|discriminate].
  destruct (decide (ocls so = ocls uo)); [|discriminate].
  apply M_bind_Ret in E as (p1 & attrs & Ea & E). injection Ea as <- Ea.
  apply M_bind_Ret in E as (p2 & cs & Ecs & E).
  assert (p2 = p) as ->.
  { destruct (decide _); injection Ecs as <- _; reflexivity. }
  apply M_bind_Ret in E as (p3 & cu & Ecu & E).
  assert (p3 = p) as ->.
  { destruct (decide _); injection Ecu as <- _; reflexivity. }
  apply M_bind_Ret in E as (p4 & [] & Ef & E).
  rewrite for_each_setattr in Ef. injection Ef as <-.
  apply M_bind_Ret in E as (p5 & [] & Er & E).
  assert (p5 = set_store (set_all self attrs (store p)) p) as ->.
  { destruct (_ && _); [discriminate|]. injection Er as <-. reflexivity. }
  assert (Hlast : getattr (store p') self a
                  = getattr (set_all self attrs (store p)) self a).
  { destruct (_ && _); [|injection E as <-; reflexivity].
    apply M_bind_Ret in E as (p6 & t & Et & E). injection Et as <- _.
    apply M_bind_Ret in E as (p7 & ty & Ety & E).
    assert (p7 = set_store (set_all self attrs (store p)) p) as ->.
    { destruct t; try discriminate. injection Ety as <- _. reflexivity. }
    apply (add_referrer_other _ _ self a _ _ _ E Ha). }
  rewrite Hlast. clear Hlast E.
  apply update_attributes_spec in Ea as [Hnd Hin].
  unfold getattr at 2 3. rewrite Hso, Huo.
  destruct (oattrs so !! a) as [w|] eqn:Hw.
  - destruct (decide (w = PNone)) as [->|Hwn].
    + destruct (oattrs uo !! a) as [v|] eqn:Hv.
      * destruct (decide (v = PNone)) as [->|Hvn].
        -- rewrite getattr_set_all_other.
           ++ unfold getattr. rewrite Hso, Hw. reflexivity.
           ++ right. intros Hmem.
              apply list_elem_of_fmap in Hmem as ([a' v'] & -> & Hmem).
              apply Hin in Hmem as (Hu & Hne & _). simpl in *. congruence.
        -- apply getattr_set_all_in; [rewrite Hso; eauto|exact Hnd|].
           apply Hin. auto.
      * rewrite getattr_set_all_other.
        -- unfold getattr. rewrite Hso, Hw. reflexivity.
        -- right. intros Hmem.
           apply list_elem_of_fmap in Hmem as ([a' v'] & -> & Hmem).
           apply Hin in Hmem as (Hu & _). simpl in *. congruence.
    + rewrite getattr_set_all_other.
      * unfold getattr. rewrite Hso, Hw. destruct w; congruence.
      * right. intros Hmem.
        apply list_elem_of_fmap in Hmem as ([a' v'] & -> & Hmem).
        apply Hin in Hmem as (_ & _ & Hs). simpl in *. congruence.
  - rewrite getattr_set_all_other.
    + unfold getattr. rewrite Hso, Hw. reflexivity.
    + right. intros Hmem.
      apply list_elem_of_fmap in Hmem as ([a' v'] & -> & Hmem).
      apply Hin in Hmem as (_ & _ & Hs). simpl in *. congruence.
Qed.

(** The member [count] of [B] (TAG 4) updated from the static member
    [count] of [A] (TAG 2): it has no [external] flag and takes the one of
    the declaration, it has a name and keeps it. *)
Lemma update_from_fills_witness :
  let p := (Samples.run false false
              (@materialize sample_hash 10 (λ _, None)
                 [Samples.static_unit] 20)).1 in
  let r := update_from 4%nat 2%nat p in
  getattr (store p) 4%nat "external" = Ret PNone
  ∧ getattr (store r.1) 4%nat "external" = Ret (PBool true)
  ∧ getattr (store r.1) 4%nat "declaration" = Ret (PBool false).
Proof.
  intros p r.
  assert (E : update_from 4%nat 2%nat p = (r.1, Ret tt))
    by (vm_compute; reflexivity).
  split; [vm_compute; reflexivity|]. split.
  - rewrite (update_from_fills 4%nat 2%nat p r.1 "external" E)
      by discriminate.
    vm_compute. reflexivity.
  - rewrite (update_from_fills 4%nat 2%nat p r.1 "declaration" E)
      by discriminate.
    vm_compute. reflexivity.
Defined.
(** ** [AbstractTAG.deinit]: the referrers are handed to the replacement *)

Lemma remove_referrer_other (self typed o : id) (a : string)
    (p p' : TypeParser) (r : res unit) :
  remove_referrer self typed p = (p', r) → a ≠ "_referrers" →
  getattr (store p') o a = getattr (store p) o a.
Proof.
  unfold remove_referrer, m_tags. intros E Ha.
  unfold mbind, M_bind, m_getattr, lift in E. simpl in E.
  destruct (getattr (store p) self "_referrers") as [v| |];
    try (injection E as <- _; reflexivity).
  simpl in E. destruct (as_tags v) as [l| |];
    try (injection E as <- _; reflexivity).
  injection E as <- _. simpl. apply getattr_setattr_ne. auto.
Qed.

Lemma add_referrer_listed (self typed : id) (p p' : TypeParser) :
  add_referrer self typed p = (p', Ret tt) →
  listed (store p') self "_referrers" typed
  ∧ ∀ x, listed (store p) self "_referrers" x →
         listed (store p') self "_referrers" x.
Proof.
  unfold add_referrer, m_tags. intros E.
  apply M_bind_Ret in E as (p1 & l & El & E).
  apply M_bind_Ret in El as (p2 & v & Ev & El).
  injection Ev as <- Ev. injection El as <- El. injection E as <-. simpl.
  assert (Hs : is_Some (store p !! self)).
  { unfold getattr in Ev. destruct (store p !! self); [eauto|discriminate]. }
  split.
  - eexists. split; [apply getattr_setattr_eq, Hs|].
    apply elem_of_app. right. apply list_elem_of_singleton. reflexivity.
  - intros x (l0 & Hl0 & Hx). rewrite Ev in Hl0. injection Hl0 as ->.
    simpl in El. injection El as <-.
    eexists. split; [apply getattr_setattr_eq, Hs|].
    apply elem_of_app. auto.
Qed.

Lemma listed_setattr_other (h : heap) (o o' : id) (a a' : string) (v : pyv)
    (x : id) :
  a' ≠ a → listed h o a x → listed (setattr h o' a' v) o a x.
Proof.
  intros Ha (l & Hl & Hx). exists l. split; [|exact Hx].
  rewrite getattr_setattr_ne by auto. exact Hl.
Qed.

Lemma class_of_setattr (h : heap) (o o' : id) (a : string) (v : pyv) :
  class_of (setattr h o a v) o' = class_of h o'.
Proof.
  unfold setattr. destruct (h !! o) as [ob|] eqn:Hob; [|reflexivity].
  unfold class_of. unfold heap, id in *.
  destruct (decide (o' = o)) as [->|Ho].
  - rewrite list_lookup_insert_eq by (eapply lookup_lt_Some, Hob).
    rewrite Hob. reflexivity.
  - rewrite list_lookup_insert_ne by auto. reflexivity.
Qed.

Lemma add_referrer_class_of (self typed o : id) (p p' : TypeParser)
    (r : res unit) :
  add_referrer self typed p = (p', r) →
  class_of (store p') o = class_of (store p) o.
Proof.
  unfold add_referrer, m_tags. intros E.
  unfold mbind, M_bind, m_getattr, lift in E. simpl in E.
  destruct (getattr (store p) self "_referrers") as [v| |];
    try (injection E as <- _; reflexivity).
  simpl in E. destruct (as_tags v) as [l| |];
    try (injection E as <- _; reflexivity).
  injection E as <- _. simpl. apply class_of_setattr.
Qed.

Lemma remove_referrer_listed (self typed : id) (p p' : TypeParser) :
  remove_referrer self typed p = (p', Ret tt) →
  ¬ listed (store p') self "_referrers" typed
  ∧ ∀ o x, x ≠ typed → listed (store p) o "_referrers" x →
           listed (store p') o "_referrers" x.
Proof.
  unfold remove_referrer, m_tags. intros E.
  apply M_bind_Ret in E as (p1 & l & El & E).
  apply M_bind_Ret in El as (p2 & v & Ev & El).
  injection Ev as <- Ev. injection El as <- El. injection E as <-. simpl.
  assert (Hs : is_Some (store p !! self)).
  { unfold getattr in Ev. destruct (store p !! self); [eauto|discriminate]. }
  split.
  - intros (l0 & Hl0 & Hin). rewrite getattr_setattr_eq in Hl0 by exact Hs.
    injection Hl0 as <-. apply list_elem_of_filter in Hin as [Hne _].
    apply Hne. reflexivity.
  - intros o x Hx (l0 & Hl0 & Hin).
    destruct (decide (o = self)) as [->|Ho].
    + rewrite Ev in Hl0. injection Hl0 as ->. simpl in El.
      injection El as <-. eexists.
      split; [apply getattr_setattr_eq, Hs|].
      apply list_elem_of_filter. auto.
    + exists l0. split; [|exact Hin].
      rewrite getattr_setattr_ne by auto. exact Hl0.
Qed.

Section Deinit.
Variables self r : id.

Lemma deinit_loop (referrers : list id) (p p' : TypeParser) (matched : bool) :
  foldl
    (λ (acc : M bool) referrer,
       seen ← acc;
       t ← m_getattr referrer "type";
       if decide (t = PRef self)
       then m_setattr referrer "type" (PRef r);;
            add_referrer r referrer;;
            mret true
       else mret seen)
    (mret false) referrers p = (p', Ret matched) →
  (∀ y, y ∈ referrers → getattr (store p) y "type" = Ret (PRef self) →
        getattr (store p') y "type" = Ret (PRef r)
        ∧ listed (store p') r "_referrers" y)
  ∧ (∀ y, ¬ (y ∈ referrers ∧ getattr (store p) y "type" = Ret (PRef self)) →
          getattr (store p') y "type" = getattr (store p) y "type")
  ∧ (∀ a o, a ≠ "type" → a ≠ "_referrers" →
            getattr (store p') o a = getattr (store p) o a)
  ∧ (∀ o, class_of (store p') o = class_of (store p) o).
Proof.
  revert p' matched. induction referrers as [|x l IH] using rev_ind;
    intros p' matched E.
  - injection E as <- _. split; [|split; [|split]].
    + intros y Hy. apply elem_of_nil in Hy. contradiction.
    + reflexivity.
    + reflexivity.
    + reflexivity.
  - rewrite foldl_snoc in E.
    apply M_bind_Ret in E as (p1 & seen & Eacc & E).
    destruct (IH _ _ Eacc) as (IHa & IHb & IHc & IHd). clear IH Eacc.
    apply M_bind_Ret in E as (p2 & t & Et & E). injection Et as <- Et.
    destruct (decide (t = PRef self)) as [->|Ht].
    + apply M_bind_Ret in E as (p3 & [] & Es & E). injection Es as <-.
      apply M_bind_Ret in E as (p4 & [] & Ea & E). injection E as <- _.
      assert (Hx : is_Some (store p1 !! x)).
      { unfold getattr in Et. destruct (store p1 !! x); [eauto|discriminate]. }
      pose proof (λ o a, add_referrer_other _ _ o a _ _ _ Ea) as Hother.
      pose proof (λ o, add_referrer_class_of _ _ o _ _ _ Ea) as Hcls.
      apply add_referrer_listed in Ea as [Hnew Hold]. simpl in *.
      split; [|split; [|split]].
      * intros y [Hy|Hy%list_elem_of_singleton]%elem_of_app Hty.
        -- destruct (IHa y Hy Hty) as [Hty1 Hl1]. split.
           ++ rewrite Hother by discriminate.
              destruct (decide (y = x)) as [->|Hne];
                [apply getattr_setattr_eq, Hx|].
              rewrite getattr_setattr_ne by auto. exact Hty1.
           ++ apply Hold, listed_setattr_other; [discriminate|exact Hl1].
        -- subst y. split; [|exact Hnew].
           rewrite Hother by discriminate. apply getattr_setattr_eq, Hx.
      * intros y Hy. rewrite Hother by discriminate.
        destruct (decide (y = x)) as [->|Hne].
        -- exfalso. apply Hy. split.
           ++ apply elem_of_app. right. apply list_elem_of_singleton.
              reflexivity.
           ++ rewrite <- Et. symmetry. apply IHb. intros [Hin Hty].
              apply Hy. split; [|exact Hty]. apply elem_of_app. auto.
        -- rewrite getattr_setattr_ne by auto. apply IHb.
           intros [Hin Hty]. apply Hy. split; [|exact Hty].
           apply elem_of_app. auto.
      * intros a o Ha1 Ha2. rewrite Hother by exact Ha2.
        rewrite getattr_setattr_ne by auto. apply IHc; assumption.
      * intros o. rewrite Hcls, class_of_setattr. apply IHd.
    + injection E as <- _. split; [|split; [|split]]; [| |exact IHc|exact IHd].
      * intros y [Hy|Hy%list_elem_of_singleton]%elem_of_app Hty;
          [apply IHa; assumption|].
        subst y. destruct (decide (x ∈ l)) as [Hin|Hnin];
          [apply IHa; assumption|].
        exfalso. rewrite IHb in Et; [congruence|]. intros [? _].
        contradiction.
      * intros y Hy. apply IHb. intros [Hin Hty]. apply Hy.
        split; [|exact Hty]. apply elem_of_app. auto.
Qed.

(** X11.  [AbstractTAG.deinit] with a replacement.  When it returns, every
    referrer of [self] whose [type] was [self] has the replacement as its
    [type] and is listed in the referrers of the replacement; no other
    [type] attribute changes, and only [type] and [_referrers] attributes are
    written.  A [Typed] TAG is no longer listed in the referrers of its
    type. *)
Theorem AbstractTAG_deinit_redirects (p p' : TypeParser) :
  AbstractTAG_deinit self (Some r) p = (p', Ret tt) →
  ∃ referrers,
    m_tags self "_referrers" p = (p, Ret referrers)
    ∧ (∀ y, y ∈ referrers → getattr (store p) y "type" = Ret (PRef self) →
            getattr (store p') y "type" = Ret (PRef r)
            ∧ (y ≠ self → listed (store p') r "_referrers" y))
    ∧ (∀ y, ¬ (y ∈ referrers ∧ getattr (store p) y "type" = Ret (PRef self)) →
            getattr (store p') y "type" = getattr (store p) y "type")
    ∧ (∀ a o, a ≠ "type" → a ≠ "_referrers" →
              getattr (store p') o a = getattr (store p) o a)
    ∧ (∀ c ty, class_of (store p) self = Ret c → isinstance c Typed = true →
               getattr (store p') self "type" = Ret (PRef ty) →
               ¬ listed (store p') ty "_referrers" self).
Proof.
  unfold AbstractTAG_deinit. intros E.
  apply M_bind_Ret in E as (p3 & [] & Eloop & E).
  apply M_bind_Ret in Eloop as (p1 & referrers & Eref & Eloop).
  assert (p1 = p) as ->.
  { unfold m_tags, mbind, M_bind, m_getattr, lift in Eref. simpl in Eref.
    destruct (getattr (store p) self "_referrers"); simpl in Eref;
      [destruct (as_tags _)|..]; congruence. }
  exists referrers. split; [exact Eref|].
  apply M_bind_Ret in Eloop as (p2 & matched & Eloop & Eend).
  apply deinit_loop in Eloop as (Ha & Hb & Hc & Hd).
  assert (p3 = p2) as ->.
  { destruct (matched && bool_decide (r = self)); [discriminate|].
    injection Eend as <-. reflexivity. }
  clear Eend.
  apply M_bind_Ret in E as (p4 & c & Ec & E). injection Ec as <- Ec.
  rewrite Hd in Ec.
  destruct (isinstance c Typed) eqn:Hty.
  - apply M_bind_Ret in E as (p4 & t & Et & E). injection Et as <- Et.
    destruct (is_None t) eqn:Hnone.
    + injection E as <-. apply is_None_true in Hnone as ->.
      split; [|split; [|split]]; [|exact Hb|exact Hc|].
      * intros y Hy Hyt. destruct (Ha y Hy Hyt). auto.
      * intros c' ty _ _ Hself. congruence.
    + apply M_bind_Ret in E as (p4 & ty & Ety & E).
      destruct t as [| | | | |ty'|]; try discriminate.
      injection Ety as <- <-.
      pose proof (λ o a, remove_referrer_other _ _ o a _ _ _ E) as Hother.
      apply remove_referrer_listed in E as [Hgone Hkeep].
      split; [|split; [|split]].
      * intros y Hy Hyt. destruct (Ha y Hy Hyt) as [Hty1 Hl1]. split.
        -- rewrite Hother by discriminate. exact Hty1.
        -- intros Hne. apply Hkeep; assumption.
      * intros y Hy. rewrite Hother by discriminate. apply Hb, Hy.
      * intros a o Ha1 Ha2. rewrite Hother by exact Ha2.
        apply Hc; assumption.
      * intros c' ty Hc' _ Hself. rewrite Hother in Hself by discriminate.
        rewrite Et in Hself. injection Hself as <-. exact Hgone.
  - injection E as <-. split; [|split; [|split]]; [|exact Hb|exact Hc|].
    + intros y Hy Hyt. destruct (Ha y Hy Hyt). auto.
    + intros c' ty Hc'. congruence.
Qed.
End Deinit.

(** In the parsed [struct node], the pointer type (4) is removed in favour
    of [int] (0): the member [next] (3) now has type [int], and the pointer
    type is no longer a referrer of the structure (1). *)
Lemma AbstractTAG_deinit_redirects_witness :
  let p' := (AbstractTAG_deinit 4%nat (Some 0%nat) Samples.node_parser).1 in
  getattr (store p') 3%nat "type" = Ret (PRef 0%nat)
  ∧ ¬ listed (store p') 1%nat "_referrers" 4%nat.
Proof.
  intros p'.
  assert (E : AbstractTAG_deinit 4%nat (Some 0%nat) Samples.node_parser
              = (p', Ret tt)) by (vm_compute; reflexivity).
  destruct (AbstractTAG_deinit_redirects 4%nat 0%nat _ _ E)
    as (referrers & Href & Ha & _ & _ & Hd).
  assert (referrers = [3%nat]) as ->
    by (vm_compute in Href; injection Href as <-; reflexivity).
  split.
  - apply Ha; [apply list_elem_of_singleton; reflexivity|].
    vm_compute; reflexivity.
  - apply (Hd PointerType); vm_compute; reflexivity.
Defined.
(** ** Sorting waits for the unparsed TAGs *)

Section Deferred.
Context `{PyHash}.
Variable fuel : nat.
Variable int_of_bytes : string → option Z.
Variable dwarfinfo : DWARFInfo.
Variable tag : id.
Variable table : list (cls * list (Z * list id)).
Variable unsorted : list id.

Local Abbreviation D := (deferred tag table unsorted).

Lemma deferred_store (f : TypeParser → heap) :
  (∀ p, (length (store p) ≤ length (f p))%nat) →
  keeps D (modify (λ p, set_store (f p) p)).
Proof.
  intros Hf p (Hu & Hl & Ht & Hs). repeat split; try assumption. simpl.
  specialize (Hf p). lia.
Qed.

Lemma deferred_m_setattr (o : id) (a : string) (v : pyv) :
  keeps D (m_setattr o a v).
Proof.
  apply (deferred_store (λ p, setattr (store p) o a v)). intros p.
  rewrite length_setattr. lia.
Qed.

Lemma deferred_set_die (o : id) (d : die_key) : keeps D (set_die o d).
Proof.
  intros p (Hu & Hl & Ht & Hs). unfold set_die, modify. simpl.
  destruct (store p !! o); repeat split; try assumption. simpl.
  eapply Nat.lt_le_trans; [exact Hl|].
  apply Nat.eq_le_incl. symmetry. apply length_insert.
Qed.

Lemma deferred_set_decl (o : id) (d : Declaration) : keeps D (set_decl o d).
Proof.
  intros p (Hu & Hl & Ht & Hs). unfold set_decl, modify. simpl.
  destruct (store p !! o); repeat split; try assumption. simpl.
  eapply Nat.lt_le_trans; [exact Hl|].
  apply Nat.eq_le_incl. symmetry. apply length_insert.
Qed.

Lemma deferred_m_find_equal (x : id) (l : list id) :
  keeps D (m_find_equal fuel x l).
Proof. intros p Hp. exact Hp. Qed.

(** One step of a proof that a method keeps [D]. *)
Ltac deferred_step :=
  first
    [ apply keeps_ret | apply keeps_lift | apply keeps_raise
    | apply keeps_get_parser | apply keeps_m_getattr | apply keeps_m_class_of
    | apply keeps_the_tag | apply deferred_m_setattr | apply deferred_set_die
    | apply deferred_set_decl | apply deferred_m_find_equal
    | assumption
    | apply keeps_bind; [|intros ?]
    | apply keeps_try_except; [|intros ?]
    | apply keeps_for_each; intros ?
    | match goal with
      | |- keeps _ (match ?x with _ => _ end) => destruct x
      end ].

Lemma deferred_assign (o : id) (a : string) (r : res pyv) :
  keeps D (assign o a r).
Proof. unfold assign. repeat deferred_step. Qed.

Lemma deferred_add_referrer (self typed : id) :
  keeps D (add_referrer self typed).
Proof. unfold add_referrer, m_tags. repeat deferred_step. Qed.

Lemma deferred_register_typedef (self typedef : id) :
  keeps D (register_typedef fuel self typedef).
Proof. unfold register_typedef, m_tags. repeat deferred_step. Qed.

Lemma deferred_update_from (self update : id) :
  keeps D (update_from self update).
Proof.
  unfold update_from. repeat first [deferred_step | apply deferred_add_referrer].
Qed.

Lemma deferred_parse_complete (self : id) : keeps D (parse_complete fuel self).
Proof.
  unfold parse_complete.
  repeat first [deferred_step | apply deferred_register_typedef].
Qed.

Section Kinds.
Variable rec : DIE → option id → M id.
Hypothesis Hrec : ∀ d cs, keeps D (rec d cs).

Lemma deferred_parse_all (l : list DIE) (cs : option id) :
  keeps D (parse_all rec l cs).
Proof using Hrec.
  induction l as [|ch l IH]; simpl; repeat first [apply Hrec | deferred_step].
Qed.

Lemma deferred_find_specification (self : id) (d : DIE) (siblings : list DIE) :
  keeps D (find_specification dwarfinfo rec self d siblings).
Proof using Hrec.
  induction siblings as [|sibling rest IH]; simpl;
    repeat first [apply Hrec | apply deferred_update_from | deferred_step].
Qed.

Lemma deferred_parse_method (c : cls) (self : id) (d : DIE) :
  keeps D (parse_method int_of_bytes dwarfinfo rec c self d).
Proof using Hrec.
  destruct c; cbn [parse_method];
    unfold BaseType_parse, UnspecifiedType_parse, TypeDefType_parse,
      StructureUnionClassAbstractType_parse, Member_parse, Enumerator_parse,
      EnumerationType_parse, AlignedModifier_parse,
      AbstractModifierType_parse, PointerType_parse, SharedType_parse,
      Subrange_parse, ArrayType_parse, FormalParameter_parse,
      SubroutineType_parse, Variable_parse, Namespace_parse,
      AbstractTAG_parse, Declaration_parse, Accessible_parse, Aligned_parse,
      Artificial_parse, Declarable_parse, Named_parse, Sized_parse,
      Typed_parse, linkage_name_parse, parse_children,
      get_die_attribute_block_or_int_or_ref, get_die_attribute_ref, m_tags;
    repeat first
      [ apply Hrec | apply deferred_assign | apply deferred_add_referrer
      | apply deferred_parse_all | apply deferred_find_specification
      | deferred_step ].
Qed.
End Kinds.

Lemma deferred_parse_registered (rec : DIE → option id → M id) (c : cls)
    (tag' : id) (d : DIE) :
  (∀ d cs, keeps D (rec d cs)) → tag' ≠ tag →
  keeps D (parse_registered fuel int_of_bytes dwarfinfo rec c tag' d).
Proof.
  intros Hrec Hne. unfold parse_registered.
  apply keeps_bind; [apply deferred_parse_method, Hrec|intros _].
  apply keeps_bind; [apply deferred_parse_complete|intros _].
  apply keeps_bind; [|intros _].
  { intros p (Hu & Hl & Ht & Hs). repeat split; try assumption.
    simpl. apply elem_of_remove_first; auto. }
  apply keeps_bind; [|intros _].
  { intros p (Hu & Hl & Ht & Hs). repeat split; try assumption.
    simpl. apply prefix_app_r, Hs. }
  intros p (Hu & Hl & Ht & Hs). unfold mbind, M_bind, get_parser. simpl.
  destruct (bool_decide_reflect (_unparsed_TAGs p = [])) as [Hnil|_].
  - rewrite Hnil in Hu. apply elem_of_nil in Hu. contradiction.
  - repeat split; assumption.
Qed.

Lemma deferred_parse_DIE (depth : nat) (d : DIE) (cs : option id) :
  keeps D (parse_DIE fuel int_of_bytes dwarfinfo depth d cs).
Proof.
  revert d cs. induction depth as [|n IH]; intros d cs; [apply keeps_lift|].
  cbn [parse_DIE]. unfold parse_DIE_body.
  apply keeps_bind; [|intros _].
  { intros p (Hu & Hl & Ht & Hs). unfold modify. simpl.
    destruct (dict_get (die_cu d) (_TAG_CU_offset_dict p));
      repeat split; assumption. }
  intros p Hp. unfold mbind at 1, M_bind at 1, get_parser. simpl.
  destruct (dict_get (die_cu d) (_TAG_CU_offset_dict p) ≫= dict_get (die_offset d))
    as [t|]; [exact Hp|].
  destruct (parsable_class (die_tag d)) as [c|]; [|exact Hp].
  destruct Hp as (Hu & Hl & Ht & Hs).
  unfold new_object.
  destruct (new_attrs c cs) as [attrs| |] eqn:Ha;
    [|repeat split; assumption..].
  erewrite M_bind_step;
    [|erewrite M_bind_step; [|reflexivity];
      erewrite M_bind_step; [|reflexivity];
      erewrite M_bind_step; [|unfold modify; reflexivity];
      reflexivity].
  erewrite M_bind_step; [|unfold modify; reflexivity].
  erewrite M_bind_step; [|unfold modify; reflexivity].
  apply deferred_parse_registered; [exact IH|lia|].
  repeat split; simpl; try assumption.
  - apply elem_of_app. auto.
  - rewrite length_app. simpl. lia.
Qed.

Lemma deferred__extract_die (depth : nat) (d : DIE) :
  keeps D (_extract_die fuel int_of_bytes dwarfinfo depth d).
Proof.
  unfold _extract_die. destruct (parsable_class (die_tag d)).
  - intros p Hp. unfold mbind at 1, M_bind at 1, get_parser. simpl.
    pose proof (deferred_parse_DIE depth d None p Hp) as Hk.
    destruct (catch_exceptions p).
    + unfold try_except, mbind, M_bind.
      destruct (parse_DIE fuel int_of_bytes dwarfinfo depth d None p)
        as [p1 [t| |]]; exact Hk.
    + unfold mbind, M_bind.
      destruct (parse_DIE fuel int_of_bytes dwarfinfo depth d None p)
        as [p1 [t| |]]; exact Hk.
  - apply keeps_bind; [|intros _; apply keeps_ret].
    intros p Hp. unfold modify. simpl.
    destruct (bool_decide (die_tag d ∈ _unparsable_TAGs p)); exact Hp.
Qed.

Lemma deferred_materialize (depth : nat) :
  keeps D (materialize fuel int_of_bytes dwarfinfo depth).
Proof.
  unfold materialize. apply keeps_for_each. intros d.
  apply keeps_bind; [apply deferred__extract_die|intros _; apply keeps_ret].
Qed.
End Deferred.

(** X12.  [TypeParser.parse_DIE] while a TAG is unparsed.  However the call
    ends, the TAG is still unparsed after it, the table of the sorted TAGs
    is the same, and the unsorted TAGs have only been added to: nothing is
    sorted before the last unparsed TAG is done. *)
Theorem parse_DIE_defers_sorting `{PyHash} (fuel : nat)
    (int_of_bytes : string → option Z) (dwarfinfo : DWARFInfo) (depth : nat)
    (die : DIE) (containing_structure : option id) (tag : id)
    (p : TypeParser) :
  tag ∈ _unparsed_TAGs p → (tag < length (store p))%nat →
  let p' := (parse_DIE fuel int_of_bytes dwarfinfo depth die
               containing_structure p).1 in
  tag ∈ _unparsed_TAGs p'
  ∧ _TAG_class_hash_dict p' = _TAG_class_hash_dict p
  ∧ _unsorted_TAGs p `prefix_of` _unsorted_TAGs p'.
Proof.
  intros Hu Hl p'.
  destruct (deferred_parse_DIE fuel int_of_bytes dwarfinfo tag
              (_TAG_class_hash_dict p) (_unsorted_TAGs p) depth die
              containing_structure p) as (Hu' & _ & Ht & Hs).
  { repeat split; auto. }
  auto.
Qed.

(** After the pointer type of [broken_unit] failed to parse, [int] is
    parsed but not sorted into the table. *)
Lemma parse_DIE_defers_sorting_witness :
  let r := parse_DIE (H := sample_hash) 10 (λ _, None)
             [MoreSamples.broken_unit] 20 (Samples.int_die 20) None
             MoreSamples.broken_parser in
  r.2 = Ret 1%nat
  ∧ _TAG_class_hash_dict r.1 = []
  ∧ _unsorted_TAGs r.1 = [1%nat].
Proof.
  intros r.
  destruct (parse_DIE_defers_sorting (H := sample_hash) 10 (λ _, None)
              [MoreSamples.broken_unit] 20 (Samples.int_die 20) None 0%nat
              MoreSamples.broken_parser) as (_ & Ht & _).
  - vm_compute. apply list_elem_of_singleton. reflexivity.
  - vm_compute. lia.
  - split; [vm_compute; reflexivity|].
    split; [exact Ht|vm_compute; reflexivity].
Defined.

(** X13.  The loop of [TypeParser._extract] over the records, while a TAG
    is unparsed: the table of the sorted TAGs stays as it is.  A TAG left
    unparsed by a failure that [_extract_die] caught keeps every later TAG
    out of the table. *)
Theorem materialize_defers_sorting `{PyHash} (fuel : nat)
    (int_of_bytes : string → option Z) (dwarfinfo : DWARFInfo) (depth : nat)
    (tag : id) (p : TypeParser) :
  tag ∈ _unparsed_TAGs p → (tag < length (store p))%nat →
  let p' := (materialize fuel int_of_bytes dwarfinfo depth p).1 in
  tag ∈ _unparsed_TAGs p'
  ∧ _TAG_class_hash_dict p' = _TAG_class_hash_dict p
  ∧ get_tags p' = get_tags p.
Proof.
  intros Hu Hl p'.
  destruct (deferred_materialize fuel int_of_bytes dwarfinfo tag
              (_TAG_class_hash_dict p) (_unsorted_TAGs p) depth p)
    as (Hu' & _ & Ht & _).
  { repeat split; auto. }
  repeat split; [exact Hu'|exact Ht|].
  subst p'. unfold get_tags. rewrite Ht. reflexivity.
Qed.

(** Every record of [broken_unit] is extracted after the pointer type
    failed: the extraction returns, and no TAG is in the table. *)
Lemma materialize_defers_sorting_witness :
  let r := materialize (H := sample_hash) 10 (λ _, None)
             [MoreSamples.broken_unit] 20 MoreSamples.broken_parser in
  r.2 = Ret tt ∧ get_tags r.1 = [] ∧ length (store r.1) = 2%nat.
Proof.
  intros r.
  destruct (materialize_defers_sorting (H := sample_hash) 10 (λ _, None)
              [MoreSamples.broken_unit] 20 0%nat MoreSamples.broken_parser)
    as (_ & _ & Hg).
  - vm_compute. apply list_elem_of_singleton. reflexivity.
  - vm_compute. lia.
  - split; [vm_compute; reflexivity|].
    split; [exact Hg|vm_compute; reflexivity].
Defined.
(** ** The switches of the parser, and the failures [_extract_die] catches *)

Section Settings.
Context `{PyHash}.
Variable fuel : nat.
Variable int_of_bytes : string → option Z.
Variable dwarfinfo : DWARFInfo.
Variables allow_duplicates catch : bool.

Local Abbreviation S := (settings allow_duplicates catch).

Lemma settings_modify (f : TypeParser → TypeParser) :
  (∀ p, _allow_duplicates (f p) = _allow_duplicates p
        ∧ catch_exceptions (f p) = catch_exceptions p) →
  keeps S (modify f).
Proof.
  intros Hf p [Ha Hc]. destruct (Hf p) as [Ha' Hc']. unfold modify. simpl.
  split; congruence.
Qed.

Lemma settings_m_find_equal (x : id) (l : list id) :
  keeps S (m_find_equal fuel x l).
Proof. intros p Hp. exact Hp. Qed.

Lemma settings_m_hash (o : id) : keeps S (m_hash fuel o).
Proof. intros p Hp. exact Hp. Qed.

(** One step of a proof that a method keeps the switches. *)
Ltac settings_step :=
  first
    [ apply keeps_ret | apply keeps_lift | apply keeps_raise
    | apply keeps_get_parser | apply keeps_m_getattr | apply keeps_m_class_of
    | apply keeps_the_tag | apply settings_m_find_equal
    | apply settings_m_hash
    | assumption
    | apply settings_modify; intros ?; cbn; repeat case_match;
      split; reflexivity
    | apply keeps_bind; [|intros ?]
    | apply keeps_try_except; [|intros ?]
    | apply keeps_for_each; intros ?
    | match goal with
      | |- keeps _ (match ?x with _ => _ end) => destruct x
      end ].

Lemma settings_m_setattr (o : id) (a : string) (v : pyv) :
  keeps S (m_setattr o a v).
Proof. unfold m_setattr. settings_step. Qed.

Lemma settings_set_die (o : id) (d : die_key) : keeps S (set_die o d).
Proof. unfold set_die. settings_step. Qed.

Lemma settings_set_decl (o : id) (d : Declaration) : keeps S (set_decl o d).
Proof. unfold set_decl. settings_step. Qed.

Lemma settings_assign (o : id) (a : string) (r : res pyv) :
  keeps S (assign o a r).
Proof. unfold assign. repeat first [apply settings_m_setattr | settings_step]. Qed.

Lemma settings_add_referrer (self typed : id) :
  keeps S (add_referrer self typed).
Proof.
  unfold add_referrer, m_tags.
  repeat first [apply settings_m_setattr | settings_step].
Qed.

Lemma settings_remove_referrer (self typed : id) :
  keeps S (remove_referrer self typed).
Proof.
  unfold remove_referrer, m_tags.
  repeat first [apply settings_m_setattr | settings_step].
Qed.

Lemma settings_register_typedef (self typedef : id) :
  keeps S (register_typedef fuel self typedef).
Proof.
  unfold register_typedef, m_tags.
  repeat first [apply settings_m_setattr | settings_step].
Qed.

Lemma settings_unregister_typedef (self typedef : id) :
  keeps S (unregister_typedef self typedef).
Proof.
  unfold unregister_typedef, m_tags.
  repeat first [apply settings_m_setattr | settings_step].
Qed.

Lemma settings_update_from (self update : id) :
  keeps S (update_from self update).
Proof.
  unfold update_from.
  repeat first
    [apply settings_m_setattr | apply settings_add_referrer | settings_step].
Qed.

Lemma settings_parse_complete (self : id) : keeps S (parse_complete fuel self).
Proof.
  unfold parse_complete.
  repeat first [settings_step | apply settings_register_typedef].
Qed.

Lemma settings_AbstractTAG_deinit (self : id) (replacement : option id) :
  keeps S (AbstractTAG_deinit self replacement).
Proof.
  unfold AbstractTAG_deinit. apply keeps_bind; [|intros _].
  - destruct replacement as [r|]; [|apply keeps_ret].
    unfold m_tags. apply keeps_bind; [repeat settings_step|intros referrers].
    apply keeps_bind; [|intros ?; repeat settings_step].
    induction referrers as [|x l IH] using rev_ind; [apply keeps_ret|].
    rewrite foldl_snoc.
    repeat first
      [ apply IH | apply settings_m_setattr | apply settings_add_referrer
      | settings_step ].
  - repeat first [apply settings_remove_referrer | settings_step].
Qed.

Lemma settings_deinit (self : id) (replacement : option id)
    (by_keyword : bool) :
  keeps S (deinit self replacement by_keyword).
Proof.
  unfold deinit.
  repeat first
    [ apply settings_AbstractTAG_deinit | apply settings_unregister_typedef
    | settings_step ].
Qed.

Lemma settings_m_die (o : id) : keeps S (m_die o).
Proof. unfold m_die. repeat settings_step. Qed.

Lemma settings_add_TAG (t : id) : keeps S (add_TAG fuel t).
Proof. unfold add_TAG. repeat first [apply settings_m_die | settings_step]. Qed.

Lemma settings__sort_unsorted_TAGs : keeps S (_sort_unsorted_TAGs fuel).
Proof.
  unfold _sort_unsorted_TAGs, sort_one.
  repeat first
    [ apply settings_m_die | apply settings_add_TAG | apply settings_deinit
    | settings_step ].
Qed.

Section Kinds.
Variable rec : DIE → option id → M id.
Hypothesis Hrec : ∀ d cs, keeps S (rec d cs).

Lemma settings_parse_all (l : list DIE) (cs : option id) :
  keeps S (parse_all rec l cs).
Proof using Hrec.
  induction l as [|ch l IH]; simpl; repeat first [apply Hrec | settings_step].
Qed.

Lemma settings_find_specification (self : id) (d : DIE) (siblings : list DIE) :
  keeps S (find_specification dwarfinfo rec self d siblings).
Proof using Hrec.
  induction siblings as [|sibling rest IH]; simpl;
    repeat first [apply Hrec | apply settings_update_from | settings_step].
Qed.

Lemma settings_parse_method (c : cls) (self : id) (d : DIE) :
  keeps S (parse_method int_of_bytes dwarfinfo rec c self d).
Proof using Hrec.
  destruct c; cbn [parse_method];
    unfold BaseType_parse, UnspecifiedType_parse, TypeDefType_parse,
      StructureUnionClassAbstractType_parse, Member_parse, Enumerator_parse,
      EnumerationType_parse, AlignedModifier_parse,
      AbstractModifierType_parse, PointerType_parse, SharedType_parse,
      Subrange_parse, ArrayType_parse, FormalParameter_parse,
      SubroutineType_parse, Variable_parse, Namespace_parse,
      AbstractTAG_parse, Declaration_parse, Accessible_parse, Aligned_parse,
      Artificial_parse, Declarable_parse, Named_parse, Sized_parse,
      Typed_parse, linkage_name_parse, parse_children,
      get_die_attribute_block_or_int_or_ref, get_die_attribute_ref, m_tags;
    repeat first
      [ apply Hrec | apply settings_assign | apply settings_add_referrer
      | apply settings_parse_all | apply settings_find_specification
      | apply settings_m_setattr | apply settings_set_die
      | apply settings_set_decl
      | settings_step ].
Qed.
End Kinds.

Lemma settings_set (f : TypeParser → TypeParser) :
  (∀ p, S p → S (f p)) → keeps S (modify f).
Proof. intros Hf p Hp. apply Hf, Hp. Qed.

Lemma settings_parse_registered (rec : DIE → option id → M id) (c : cls)
    (t : id) (d : DIE) :
  (∀ d cs, keeps S (rec d cs)) →
  keeps S (parse_registered fuel int_of_bytes dwarfinfo rec c t d).
Proof.
  intros Hrec. unfold parse_registered.
  apply keeps_bind; [apply settings_parse_method, Hrec|intros _].
  apply keeps_bind; [apply settings_parse_complete|intros _].
  apply keeps_bind; [apply settings_set; intros p Hp; exact Hp|intros _].
  apply keeps_bind; [apply settings_set; intros p Hp; exact Hp|intros _].
  apply keeps_bind; [apply keeps_get_parser|intros p].
  apply keeps_bind; [|intros _; apply keeps_ret].
  destruct (bool_decide (_unparsed_TAGs p = []));
    [apply settings__sort_unsorted_TAGs|apply keeps_ret].
Qed.

Lemma settings_parse_DIE (depth : nat) (d : DIE) (cs : option id) :
  keeps S (parse_DIE fuel int_of_bytes dwarfinfo depth d cs).
Proof.
  revert d cs. induction depth as [|n IH]; intros d cs; [apply keeps_lift|].
  cbn [parse_DIE]. unfold parse_DIE_body.
  apply keeps_bind; [|intros _].
  { apply settings_set. intros p Hp.
    destruct (dict_get (die_cu d) (_TAG_CU_offset_dict p)); exact Hp. }
  apply keeps_bind; [apply keeps_get_parser|intros p].
  destruct (dict_get (die_cu d) (_TAG_CU_offset_dict p)
            ≫= dict_get (die_offset d)); [apply keeps_ret|].
  destruct (parsable_class (die_tag d)) as [c|]; [|apply keeps_raise].
  apply keeps_bind; [|intros t].
  { unfold new_object.
    apply keeps_bind; [apply keeps_lift|intros attrs].
    apply keeps_bind; [apply keeps_get_parser|intros p0].
    apply keeps_bind; [|intros _; apply keeps_ret].
    apply settings_set. intros p1 Hp. exact Hp. }
  apply keeps_bind; [apply settings_set; intros p1 Hp; exact Hp|intros _].
  apply keeps_bind; [apply settings_set; intros p1 Hp; exact Hp|intros _].
  apply settings_parse_registered. exact IH.
Qed.

Lemma settings__extract_die (depth : nat) (d : DIE) :
  keeps S (_extract_die fuel int_of_bytes dwarfinfo depth d).
Proof.
  unfold _extract_die. destruct (parsable_class (die_tag d)).
  - apply keeps_bind; [apply keeps_get_parser|intros p].
    destruct (catch_exceptions p).
    + apply keeps_try_except; [|intros _; apply keeps_ret].
      apply keeps_bind; [apply settings_parse_DIE|intros t; apply keeps_ret].
    + apply keeps_bind; [apply settings_parse_DIE|intros t; apply keeps_ret].
  - apply keeps_bind; [|intros _; apply keeps_ret].
    apply settings_set. intros p Hp.
    destruct (bool_decide (die_tag d ∈ _unparsable_TAGs p)); exact Hp.
Qed.

Lemma _extract_die_catches (depth : nat) (d : DIE) (p : TypeParser) (e : exn) :
  catch_exceptions p = true →
  (_extract_die fuel int_of_bytes dwarfinfo depth d p).2 ≠ Raise e.
Proof.
  intros Hc. unfold _extract_die.
  destruct (parsable_class (die_tag d)); [|discriminate].
  unfold mbind at 1, M_bind at 1, get_parser. simpl. rewrite Hc.
  unfold try_except, mbind, M_bind.
  destruct (parse_DIE fuel int_of_bytes dwarfinfo depth d None p)
    as [p1 [t| |]]; discriminate.
Qed.
End Settings.

(** X14.  The loop of [TypeParser._extract] over the records of the compile
    units, in a parser made with [catch_exceptions]: no exception leaves
    it, whatever the records are, and the two switches of the parser are
    as before. *)
Theorem materialize_catches `{PyHash} (fuel : nat)
    (int_of_bytes : string → option Z) (dwarfinfo : DWARFInfo) (depth : nat)
    (p : TypeParser) :
  catch_exceptions p = true →
  let r := materialize fuel int_of_bytes dwarfinfo depth p in
  (∀ e, r.2 ≠ Raise e)
  ∧ catch_exceptions r.1 = true
  ∧ _allow_duplicates r.1 = _allow_duplicates p.
Proof.
  intros Hc. unfold materialize.
  set (dies := flat_map _ _). clearbody dies.
  assert (Hs : settings (_allow_duplicates p) true p) by (split; auto).
  clear Hc. revert Hs. generalize (_allow_duplicates p) as a. intros a Hs.
  cut (∀ p' r, for_each dies
                 (λ die, _extract_die fuel int_of_bytes dwarfinfo depth die;;
                         mret tt) p = (p', r) →
               (∀ e, r ≠ Raise e) ∧ catch_exceptions p' = true
               ∧ _allow_duplicates p' = a).
  { intros Hcut. simpl.
    destruct (for_each dies _ p) as [p' r] eqn:E. exact (Hcut p' r eq_refl). }
  revert p Hs. induction dies as [|d dies IH]; intros p Hs p' r E.
  - injection E as <- <-. destruct Hs. repeat split; [discriminate|assumption..].
  - cbn [for_each] in E.
    pose proof (settings__extract_die fuel int_of_bytes dwarfinfo a true
                  depth d p Hs) as Hs1.
    pose proof (λ e, _extract_die_catches fuel int_of_bytes dwarfinfo depth d
                  p e (proj2 Hs)) as Hne.
    unfold mbind at 1, M_bind at 1 in E. unfold mbind at 1, M_bind at 1 in E.
    destruct (_extract_die fuel int_of_bytes dwarfinfo depth d p)
      as [p1 [t|e|]]; simpl in Hs1, Hne.
    + apply (IH p1 Hs1). exact E.
    + destruct (Hne e). reflexivity.
    + injection E as <- <-. destruct Hs1.
      repeat split; [discriminate|assumption..].
Qed.

(** The records of [broken_unit], of which the first fails to parse: the
    loop returns and leaves the TAG of the first record unparsed. *)
Lemma materialize_catches_witness :
  let r := materialize (H := sample_hash) 10 (λ _, None)
             [MoreSamples.broken_unit] 20 (new_TypeParser false true) in
  (∀ e, r.2 ≠ Raise e) ∧ r.2 = Ret tt ∧ _unparsed_TAGs r.1 = [0%nat].
Proof.
  intros r. split.
  - apply (materialize_catches (H := sample_hash) 10 (λ _, None)
             [MoreSamples.broken_unit] 20 (new_TypeParser false true)).
    reflexivity.
  - split; vm_compute; reflexivity.
Defined.
(** ** [_complete_declaration]: every declaration is reported once *)

Lemma filter_res_Ret {A} (f : A → res bool) (l r : list A) :
  filter_res f l = Ret r →
  ∀ x, x ∈ r ↔ x ∈ l ∧ f x = Ret true.
Proof.
  revert r. induction l as [|y l IH]; simpl; intros r E x.
  - injection E as <-. split; [intros Hx|intros [Hx _]];
      apply elem_of_nil in Hx; contradiction.
  - apply res_bind_Ret in E as (b & Hb & E).
    apply res_bind_Ret in E as (r' & Hr' & E). injection E as <-.
    specialize (IH r' Hr' x). destruct b.
    + rewrite !elem_of_cons, IH. split.
      * intros [->|[Hx Hf]]; auto.
      * intros [[->|Hx] Hf]; auto.
    + rewrite elem_of_cons, IH. split.
      * intros [Hx Hf]; auto.
      * intros [[->|Hx] Hf]; [congruence|auto].
Qed.

Section Complete.
Context `{PyHash}.
Variable fuel : nat.

Lemma complete_one_reports (declaration_type : id) (acc acc' : list id * list id)
    (p p' : TypeParser) :
  complete_one fuel declaration_type acc p = (p', Ret acc') →
  (acc' = (acc.1 ++ [declaration_type], acc.2)
   ∧ ∃ c by_hash first,
       class_of (store p) declaration_type = Ret c
       ∧ dict_get c (_TAG_class_hash_dict p) = Some by_hash
       ∧ first ∈ concat (dict_values by_hash)
       ∧ completes fuel (store p) declaration_type first = Ret true)
  ∨ (acc' = (acc.1, acc.2 ++ [declaration_type]) ∧ p' = p).
Proof.
  unfold complete_one. intros E.
  apply M_bind_Ret in E as (p1 & name & En & E). injection En as <- En.
  destruct (is_None name); [injection E as <- <-; auto|].
  apply M_bind_Ret in E as (p1 & c & Ec & E). injection Ec as <- Ec.
  apply M_bind_Ret in E as (p1 & q & Eq & E). injection Eq as <- <-.
  destruct (dict_get c (_TAG_class_hash_dict p)) as [by_hash|] eqn:Hc;
    [|discriminate].
  apply M_bind_Ret in E as (p1 & completion_types & Ef & E).
  injection Ef as <- Ef.
  destruct completion_types as [|first rest];
    [injection E as <- <-; auto|].
  left.
  apply M_bind_Ret in E as (p2 & [] & _ & E).
  apply M_bind_Ret in E as (p3 & [] & _ & E). injection E as _ <-.
  split; [reflexivity|]. exists c, by_hash, first.
  repeat split; try assumption;
    apply (filter_res_Ret _ _ _ Ef first), elem_of_cons; auto.
Qed.

Lemma complete_all_reports (declaration_types : list id)
    (acc acc' : list id * list id) (p p' : TypeParser) :
  complete_all fuel declaration_types acc p = (p', Ret acc') →
  ∃ completed uncompleted,
    acc' = (acc.1 ++ completed, acc.2 ++ uncompleted)
    ∧ completed ++ uncompleted ≡ₚ declaration_types
    ∧ (completed = [] → p' = p).
Proof.
  revert acc p. induction declaration_types as [|d rest IH]; intros acc p E.
  - injection E as <- <-. exists [], []. rewrite !app_nil_r.
    destruct acc. auto.
  - cbn [complete_all] in E.
    apply M_bind_Ret in E as (p1 & acc1 & E1 & E).
    destruct (IH _ _ E) as (c & u & -> & Hperm & Hsame).
    apply complete_one_reports in E1 as [[-> _]|[-> ->]]; simpl.
    + exists (d :: c), u. rewrite <- app_assoc. simpl.
      repeat split; [rewrite Hperm; reflexivity|discriminate].
    + exists c, (d :: u). rewrite <- app_assoc. simpl.
      repeat split; [|exact Hsame].
      rewrite <- Hperm. symmetry. apply Permutation_middle.
Qed.

(** X15.  [_complete_declaration], when it returns, reports every
    declaration of the table once, as completed or as uncompleted: the two
    lists together are the TAGs of the table that are declarations.  When
    none is completed, the parser is as it was. *)
Theorem _complete_declaration_reports (p p' : TypeParser)
    (completed uncompleted : list id) :
  _complete_declaration fuel p = (p', Ret (completed, uncompleted)) →
  ∃ declaration_types,
    filter_res (is_declaration (store p)) (get_tags p) = Ret declaration_types
    ∧ completed ++ uncompleted ≡ₚ declaration_types
    ∧ (∀ t, t ∈ completed ++ uncompleted ↔
            t ∈ get_tags p ∧ is_declaration (store p) t = Ret true)
    ∧ (completed = [] → p' = p).
Proof.
  unfold _complete_declaration. intros E.
  apply M_bind_Ret in E as (p1 & q & Eq & E). injection Eq as <- <-.
  apply M_bind_Ret in E as (p1 & declaration_types & Ef & E).
  injection Ef as <- Ef.
  apply complete_all_reports in E as (c & u & Eacc & Hperm & Hsame).
  simpl in Eacc. injection Eacc as -> ->.
  exists declaration_types.
  split; [exact Ef|]. split; [exact Hperm|]. split; [|exact Hsame].
  intros t. rewrite Hperm. apply (filter_res_Ret _ _ _ Ef t).
Qed.
End Complete.

(** After the records of [static_unit] are parsed, the static member (2)
    is completed: it is a TAG of the table and a declaration. *)
Lemma _complete_declaration_reports_witness :
  let p := (Samples.run false false
              (materialize (H := sample_hash) 10 (λ _, None)
                 [Samples.static_unit] 20)).1 in
  2%nat ∈ get_tags p ∧ is_declaration (store p) 2%nat = Ret true.
Proof.
  intros p.
  destruct (_complete_declaration_reports (H := sample_hash) 10 p
              (_complete_declaration (H := sample_hash) 10 p).1 [2%nat] [])
    as (declaration_types & _ & _ & Hiff & _).
  - vm_compute. reflexivity.
  - apply Hiff. apply list_elem_of_singleton. reflexivity.
Defined.
(** ** Facts about the enumeration and array encoders *)

Module DebugInfoCompositeFacts.
Import DebugInfoComposite.

Lemma int_to_bytes_unsigned_overflow (z w : Z) :
  0 <= w → ¬ (0 <= z < 2 ^ (8 * w)) →
  DebugInfo.int_to_bytes z w false = Raise OverflowError.
Proof.
  intros Hw Hz. unfold DebugInfo.int_to_bytes.
  destruct (Z.ltb_spec w 0); [lia|].
  destruct (Z.leb_spec 0 z); destruct (Z.ltb_spec z (2 ^ (8 * w)));
    simpl; try reflexivity. lia.
Qed.

Section CompositeFacts.
Context {F : Type}.

Lemma Enumeration_or_denotes (enumerators : list Enumerator) (a z : Z)
    (x : Value F) :
  denotes enumerators x z →
  Enumeration_or enumerators a x = Ret (Z.lor a z).
Proof.
  intros Hd. destruct Hd as [z|b|s e rest Hf]; simpl; try reflexivity.
  rewrite Hf. reflexivity.
Qed.

Lemma Enumeration_loop (enumerators : list Enumerator) (items : list (Value F))
    (zs : list Z) (a : Z) :
  Forall2 (denotes enumerators) items zs →
  foldl (λ acc v, iv ← acc; Enumeration_or enumerators iv v) (Ret a) items
  = Ret (foldl Z.lor a zs).
Proof.
  intros Hall. revert a. induction Hall as [|x z items zs Hx _ IH]; intros a.
  - reflexivity.
  - simpl. rewrite (Enumeration_or_denotes _ _ _ _ Hx). apply IH.
Qed.

(** X16.  [Enumeration.to_bytes] of an enumeration of [w] bytes without a
    [type].  A list of integers, booleans and names of enumerators is
    encoded as the bitwise or [v] of what they stand for: [w] bytes that
    are [v mod 2^(8w)] in little-endian order when
    [-2^(8w) <= v < 2^(8w)], an [OverflowError] otherwise.  One such value
    alone is encoded as the list of it, and [None] as the empty list. *)
Theorem Enumeration_to_bytes_flags (w : Z) (enumerators : list Enumerator)
    (items : list (Value F)) (zs : list Z) :
  0 <= w →
  Forall2 (denotes enumerators) items zs →
  let v := foldl Z.lor 0 zs in
  let encode := Enumeration_to_bytes (Some w) None enumerators in
  (- 2 ^ (8 * w) <= v < 2 ^ (8 * w) →
   ∃ bs, encode (VList items) = Ret bs
         ∧ Z.of_nat (length bs) = w
         ∧ DebugInfo.le_value bs = v mod 2 ^ (8 * w))
  ∧ (¬ (- 2 ^ (8 * w) <= v < 2 ^ (8 * w)) →
     encode (VList items) = Raise OverflowError)
  ∧ (∀ x z, denotes enumerators x z → encode x = encode (VList [x]))
  ∧ encode VNone = encode (VList []).
Proof.
  intros Hw Hall v encode.
  assert (Hpow : 0 < 2 ^ (8 * w)) by (apply Z.pow_pos_nonneg; lia).
  assert (Hlist : encode (VList items)
                  = (if v <? 0 then Ret (v + 2 ^ (8 * w)) else Ret v)
                    ≫= λ iv, DebugInfo.int_to_bytes iv w false).
  { unfold encode, Enumeration_to_bytes. simpl.
    rewrite (Enumeration_loop _ _ _ _ Hall). fold v. simpl.
    unfold DebugInfo.py_shl1.
    destruct (Z.ltb_spec (w * 8) 0); [lia|].
    replace (w * 8) with (8 * w) by lia.
    destruct (v <? 0); reflexivity. }
  split; [|split; [|split]].
  - intros Hv. rewrite Hlist.
    destruct (Z.ltb_spec v 0); simpl.
    + destruct (DebugInfoEntriesFacts.int_to_bytes_unsigned_fits
                  (v + 2 ^ (8 * w)) w Hw) as (bs & E & Hlen & Hval); [lia|].
      exists bs. repeat split; try assumption. rewrite Hval.
      symmetry. replace v with (v + 2 ^ (8 * w) + (-1) * 2 ^ (8 * w)) at 1
        by lia.
      rewrite Z_mod_plus_full. apply Z.mod_small. lia.
    + destruct (DebugInfoEntriesFacts.int_to_bytes_unsigned_fits v w Hw)
        as (bs & E & Hlen & Hval); [lia|].
      exists bs. repeat split; try assumption. rewrite Hval.
      symmetry. apply Z.mod_small. lia.
  - intros Hv. rewrite Hlist.
    destruct (Z.ltb_spec v 0); simpl;
      apply int_to_bytes_unsigned_overflow; lia.
  - intros x z Hx. destruct Hx; reflexivity.
  - reflexivity.
Qed.

(** *** Arrays *)

Lemma setslice_fill (pre e : list Byte.byte) (s k : nat) (i : Z) :
  Z.of_nat (length pre) = i * Z.of_nat s → 0 <= i →
  (length e ≤ s)%nat →
  setslice (pre ++ replicate (S k * s) Byte.x00) (i * Z.of_nat s)
    (i * Z.of_nat s + Z.of_nat (length e)) e
  = (pre ++ padded (Z.of_nat s) e) ++ replicate (k * s) Byte.x00.
Proof.
  intros Hpre Hi He. unfold setslice, adjust_index, padded.
  rewrite length_app, length_replicate.
  destruct (Z.ltb_spec (i * Z.of_nat s) 0); [lia|].
  destruct (Z.ltb_spec (i * Z.of_nat s + Z.of_nat (length e)) 0); [lia|].
  rewrite Z.min_l by lia. rewrite Z.min_l by lia.
  rewrite Z.max_r by lia.
  rewrite <- Hpre, Nat2Z.id.
  rewrite take_app_length.
  replace (Z.to_nat (Z.of_nat (length pre) + Z.of_nat (length e)))
    with (length pre + length e)%nat by lia.
  rewrite drop_app_add, drop_replicate.
  rewrite Nat2Z.id. rewrite <- !app_assoc. f_equal. f_equal.
  rewrite <- replicate_add. f_equal. lia.
Qed.

Lemma Array_fill_padded (element : Value F → res (list Byte.byte)) (s : nat)
    (l : list (Value F)) (ebs : list (list Byte.byte)) :
  Forall2 (λ x e, element x = Ret e ∧ (length e ≤ s)%nat) l ebs →
  ∀ (i : Z) (pre : list Byte.byte),
    Z.of_nat (length pre) = i * Z.of_nat s → 0 <= i →
    Array_fill element (Z.of_nat s) i l
      (pre ++ replicate (length l * s) Byte.x00)
    = Ret (pre ++ concat (map (padded (Z.of_nat s)) ebs)).
Proof.
  induction 1 as [|x e l ebs [Hx He] _ IH]; intros i pre Hpre Hi.
  - simpl. reflexivity.
  - cbn [Array_fill length]. rewrite Hx.
    unfold mbind, res_bind. cbv beta iota.
    rewrite (setslice_fill pre e s (length l) i) by assumption.
    rewrite IH.
    + rewrite <- app_assoc. reflexivity.
    + rewrite length_app. unfold padded. rewrite length_app, length_replicate.
      rewrite Nat2Z.id. lia.
    + lia.
Qed.

(** X17.  [Array.to_bytes] of an array of one dimension and stride [s].  A
    list of as many values as the dimension says, each encoded by the
    element type in at most [s] bytes, is encoded as these encodings one
    after the other, each padded with zero bytes to [s] bytes.  A list of
    another length is a [ValueError], and so is what is not a list. *)
Theorem Array_to_bytes_padded (stride : option Z) (type : DebugInfoEntry F)
    (s : Z) (l : list (Value F)) (ebs : list (list Byte.byte)) :
  Array_get_stride stride type = Some s → 0 <= s →
  Forall2 (λ x e, to_bytes type x = Ret e ∧ Z.of_nat (length e) <= s) l ebs →
  Array_to_bytes stride type [Z.of_nat (length l)] (VList l)
  = Ret (concat (map (padded s) ebs))
  ∧ Z.of_nat (length (concat (map (padded s) ebs)))
    = s * Z.of_nat (length l)
  ∧ (∀ n rest, n ≠ Z.of_nat (length l) →
       DebugInfo.is_ValueError
         (Array_to_bytes stride type (n :: rest) (VList l)))
  ∧ (∀ n rest x, (∀ l', x ≠ VList l') →
       DebugInfo.is_ValueError (Array_to_bytes stride type (n :: rest) x)).
Proof.
  intros Hs Hs0 Hall.
  assert (Hall' : Forall2 (λ x e, to_bytes type x = Ret e
                                  ∧ (length e ≤ Z.to_nat s)%nat) l ebs).
  { eapply Forall2_impl; [exact Hall|]. intros x e [Hx He]. split; [exact Hx|lia]. }
  split; [|split; [|split]].
  - unfold Array_to_bytes. cbn [Array__to_bytes].
    rewrite bool_decide_eq_false_2 by auto. rewrite Hs.
    unfold bytearray, product. simpl.
    destruct (Z.ltb_spec (s * (1 * Z.of_nat (length l))) 0); [lia|]. simpl.
    replace (Z.to_nat (s * (1 * Z.of_nat (length l))))
      with (length l * Z.to_nat s)%nat by lia.
    pose proof (Array_fill_padded (to_bytes type) (Z.to_nat s) l ebs Hall'
                  0 [] eq_refl (Z.le_refl 0)) as Hfill.
    rewrite Z2Nat.id in Hfill by lia. exact Hfill.
  - clear Hall'. induction Hall as [|x e l ebs [Hx He] _ IH]; simpl; [lia|].
    rewrite length_app. unfold padded at 1.
    rewrite length_app, length_replicate. lia.
  - intros n rest Hn. unfold Array_to_bytes. cbn [Array__to_bytes].
    rewrite bool_decide_eq_true_2 by auto. exact I.
  - intros n rest x Hx. unfold Array_to_bytes. cbn [Array__to_bytes].
    destruct x; try exact I. destruct (Hx l0). reflexivity.
Qed.

Lemma overlapped_one (s : nat) (row : list Byte.byte) :
  overlapped s [row] = row.
Proof. reflexivity. Qed.

Lemma overlapped_cons (s : nat) (row next : list Byte.byte)
    (rows : list (list Byte.byte)) :
  overlapped s (row :: next :: rows) = take s row ++ overlapped s (next :: rows).
Proof.
  unfold overlapped. cbn [removelast map concat].
  rewrite <- app_assoc. reflexivity.
Qed.

Lemma setslice_over (pre cur e : list Byte.byte) (s m k : nat) (i : Z) :
  Z.of_nat (length pre) = i * Z.of_nat s → 0 <= i →
  length cur = (m * s)%nat → length e = (m * s)%nat → (1 ≤ m)%nat →
  (s ≤ k)%nat →
  setslice (pre ++ cur ++ replicate k Byte.x00) ((i + 1) * Z.of_nat s)
    ((i + 1) * Z.of_nat s + Z.of_nat (length e)) e
  = (pre ++ take s cur) ++ e ++ replicate (k - s) Byte.x00.
Proof.
  intros Hpre Hi Hcur He Hm Hk. unfold setslice, adjust_index.
  rewrite !length_app, length_replicate.
  assert (Hs : (s ≤ length cur)%nat) by nia.
  destruct (Z.ltb_spec ((i + 1) * Z.of_nat s) 0); [lia|].
  destruct (Z.ltb_spec ((i + 1) * Z.of_nat s + Z.of_nat (length e)) 0);
    [lia|].
  rewrite Z.min_l by lia. rewrite Z.min_l by lia. rewrite Z.max_r by lia.
  replace (Z.to_nat ((i + 1) * Z.of_nat s)) with (length pre + s)%nat by lia.
  replace (Z.to_nat ((i + 1) * Z.of_nat s + Z.of_nat (length e)))
    with (length pre + (length cur + s))%nat by lia.
  rewrite take_app_add, drop_app_add, drop_app_add, drop_replicate.
  rewrite take_app_le by exact Hs. reflexivity.
Qed.

Lemma Array_fill_overlapped (element : Value F → res (list Byte.byte))
    (s m : nat) (l : list (Value F)) (rbs : list (list Byte.byte)) :
  (1 ≤ m)%nat →
  Forall2 (λ x e, element x = Ret e ∧ length e = (m * s)%nat) l rbs →
  ∀ (i : Z) (pre cur : list Byte.byte) (k : nat),
    Z.of_nat (length pre) = i * Z.of_nat s → 0 <= i →
    length cur = (m * s)%nat → (length l * s ≤ k)%nat →
    Array_fill element (Z.of_nat s) (i + 1) l
      (pre ++ cur ++ replicate k Byte.x00)
    = Ret (pre ++ overlapped s (cur :: rbs)
               ++ replicate (k - length l * s) Byte.x00).
Proof.
  intros Hm. induction 1 as [|x e l rbs [Hx He] _ IH];
    intros i pre cur k Hpre Hi Hcur Hk.
  - simpl. rewrite overlapped_one, Nat.sub_0_r. reflexivity.
  - cbn [Array_fill length] in *. rewrite Hx.
    unfold mbind, res_bind. cbv beta iota.
    rewrite (setslice_over pre cur e s m k i) by (try assumption; lia).
    rewrite IH.
    + rewrite overlapped_cons, <- !app_assoc.
      do 5 f_equal. lia.
    + rewrite length_app, length_take. rewrite Nat.min_l by nia. lia.
    + lia.
    + exact He.
    + lia.
Qed.

Lemma Array__to_bytes_cons (stride : option Z) (type : DebugInfoEntry F)
    (n : Z) (rest : list Z) (l : list (Value F)) :
  Array__to_bytes stride type (n :: rest) (VList l)
  = if bool_decide (Z.of_nat (length l) ≠ n)
    then Raise (ValueError "Value must contain as many elements as the dimension")
    else
      match Array_get_stride stride type with
      | None => Raise AssertionError
      | Some stride' =>
          bytes_ ← bytearray (stride' * product (n :: rest));
          Array_fill (Array__to_bytes stride type rest) stride' 0 l bytes_
      end.
Proof. reflexivity. Qed.

(** X18.  [Array.to_bytes] of an array of two dimensions, of [m >= 1]
    elements in each row, with stride [s].  The rows, each encoded in
    [m * s] bytes, are written [s] bytes apart, and not [m * s]: of every
    row but the last only the first [s] bytes are in the result, then
    comes the last row in full, and zero bytes fill the rest. *)
Theorem Array_to_bytes_rows (stride : option Z) (type : DebugInfoEntry F)
    (s m : nat) (row : Value F) (rows : list (Value F))
    (rb : list Byte.byte) (rbs : list (list Byte.byte)) :
  Array_get_stride stride type = Some (Z.of_nat s) → (1 ≤ m)%nat →
  Forall2 (λ x e, Array_to_bytes stride type [Z.of_nat m] x = Ret e
                  ∧ length e = (m * s)%nat) (row :: rows) (rb :: rbs) →
  Array_to_bytes stride type [Z.of_nat (S (length rows)); Z.of_nat m]
    (VList (row :: rows))
  = Ret (overlapped s (rb :: rbs)
         ++ replicate (length rows * (m - 1) * s) Byte.x00).
Proof.
  intros Hs Hm Hall.
  apply Forall2_cons_1 in Hall as [[Hrow Hrb] Hall].
  unfold Array_to_bytes in *. rewrite Array__to_bytes_cons.
  rewrite bool_decide_eq_false_2 by (cbn [length]; lia). rewrite Hs.
  unfold bytearray, product. cbn [foldl].
  destruct (Z.ltb_spec
              (Z.of_nat s * (1 * Z.of_nat (S (length rows)) * Z.of_nat m)) 0);
    [lia|].
  unfold mbind at 1, res_bind at 1. cbv beta iota.
  cbn [Array_fill]. rewrite Hrow.
  unfold mbind at 1, res_bind at 1. cbv beta iota.
  replace (Z.to_nat (Z.of_nat s * (1 * Z.of_nat (S (length rows)) * Z.of_nat m)))
    with (m * s + length rows * m * s)%nat by lia.
  assert (Hfirst : setslice (replicate (m * s + length rows * m * s) Byte.x00)
                     (0 * Z.of_nat s) (0 * Z.of_nat s + Z.of_nat (length rb)) rb
                   = [] ++ rb ++ replicate (length rows * m * s) Byte.x00).
  { unfold setslice, adjust_index. rewrite length_replicate.
    destruct (Z.ltb_spec (0 * Z.of_nat s) 0); [lia|].
    destruct (Z.ltb_spec (0 * Z.of_nat s + Z.of_nat (length rb)) 0); [lia|].
    rewrite Z.min_l by lia. rewrite Z.min_l by lia. rewrite Z.max_r by lia.
    replace (Z.to_nat (0 * Z.of_nat s)) with 0%nat by lia.
    replace (Z.to_nat (0 * Z.of_nat s + Z.of_nat (length rb)))
      with (m * s)%nat by lia.
    rewrite take_0, drop_replicate. simpl. do 2 f_equal. lia. }
  rewrite Hfirst.
  rewrite (Array_fill_overlapped _ s m rows rbs Hm Hall 0 [] rb
             (length rows * m * s)); [| reflexivity | lia | exact Hrb | nia].
  simpl. do 2 f_equal. f_equal. nia.
Qed.
End CompositeFacts.

(** The enumerators [A = 1] and [C = 4] in one byte: [["A", "C"]] is the
    byte 5, and [-1] is the byte 255. *)
Lemma Enumeration_to_bytes_flags_witness :
  let enumerators := [mkEnumerator 1 "A"; mkEnumerator 2 "B";
                      mkEnumerator 4 "C"] in
  (∃ bs, Enumeration_to_bytes (F := unit) (Some 1) None enumerators
           (VList [VStr "A"; VStr "C"]) = Ret bs
         ∧ Z.of_nat (length bs) = 1
         ∧ DebugInfo.le_value bs = 5)
  ∧ (∃ bs, Enumeration_to_bytes (F := unit) (Some 1) None enumerators
             (VList [VInt (-1)]) = Ret bs
           ∧ Z.of_nat (length bs) = 1
           ∧ DebugInfo.le_value bs = 255).
Proof.
  intros enumerators. split.
  - apply (Enumeration_to_bytes_flags (F := unit) 1 enumerators
             [VStr "A"; VStr "C"] [1; 4]); [lia| |vm_compute; split; congruence].
    repeat constructor.
    + apply (denotes_str enumerators "A" (mkEnumerator 1 "A") []).
      reflexivity.
    + apply (denotes_str enumerators "C" (mkEnumerator 4 "C") []).
      reflexivity.
  - apply (Enumeration_to_bytes_flags (F := unit) 1 enumerators [VInt (-1)] [-1]);
      [lia|repeat constructor|vm_compute; split; congruence].
Defined.

(** Two values of two bytes each in an array of stride 4: each is followed
    by two zero bytes. *)
Lemma Array_to_bytes_padded_witness :
  let u16 : DebugInfoEntry unit :=
    mkDebugInfoEntry (Some 2)
      (λ v, match v with
            | VInt z => DebugInfo.int_to_bytes z 2 false
            | _ => Raise (ValueError "value")
            end) in
  Array_to_bytes (Some 4) u16 [2] (VList [VInt 1; VInt 258])
  = Ret [Byte.x01; Byte.x00; Byte.x00; Byte.x00;
         Byte.x02; Byte.x01; Byte.x00; Byte.x00].
Proof.
  intros u16.
  apply (Array_to_bytes_padded (Some 4) u16 4 [VInt 1; VInt 258]
           [[Byte.x01; Byte.x00]; [Byte.x02; Byte.x01]]).
  - reflexivity.
  - lia.
  - repeat constructor; simpl; lia.
Defined.


(** Two rows of two values of one byte, stride 1: [[1, 2], [3, 4]] becomes
    [01 03 04 00]; the 2 is overwritten. *)
Lemma Array_to_bytes_rows_witness :
  let u8 : DebugInfoEntry unit :=
    mkDebugInfoEntry (Some 1)
      (λ v, match v with
            | VInt z => DebugInfo.int_to_bytes z 1 false
            | _ => Raise (ValueError "value")
            end) in
  Array_to_bytes None u8 [2; 2]
    (VList [VList [VInt 1; VInt 2]; VList [VInt 3; VInt 4]])
  = Ret [Byte.x01; Byte.x03; Byte.x04; Byte.x00].
Proof.
  intros u8.
  apply (Array_to_bytes_rows None u8 1 2 (VList [VInt 1; VInt 2])
           [VList [VInt 3; VInt 4]] [Byte.x01; Byte.x02]
           [[Byte.x03; Byte.x04]]).
  - reflexivity.
  - lia.
  - repeat constructor.
Defined.

End DebugInfoCompositeFacts.
(** ** A TAG does not compare unequal to itself *)

Lemma and_then_not_false (x y : res bool) :
  x ≠ Ret false → y ≠ Ret false → x &&& y ≠ Ret false.
Proof. destruct x as [[]| |]; simpl; congruence. Qed.

Lemma all_of_not_false (l : list (res bool)) :
  Forall (λ x, x ≠ Ret false) l → all_of l ≠ Ret false.
Proof.
  induction 1 as [|x l Hx _ IH]; simpl; [congruence|].
  destruct x as [[]| |]; simpl; try congruence.
  destruct (all_of l) as [[]| |]; simpl; congruence.
Qed.

Lemma bind_not_false {A} (m : res A) (f : A → res bool) :
  (∀ a, f a ≠ Ret false) → m ≫= f ≠ Ret false.
Proof. intros Hf. destruct m; simpl; [apply Hf|congruence..]. Qed.

Section EqRefl.
Variable h : heap.
Variable rec : id → id → res bool.
Hypothesis Hrec : ∀ a, rec a a ≠ Ret false.

Lemma list_eq_from_refl (l : list id) : list_eq_from rec l l = Ret true.
Proof.
  induction l as [|a l IH]; simpl; [reflexivity|].
  destruct (decide (a = a)); [exact IH|contradiction].
Qed.

Lemma py_eq_refl (x : pyv) : py_eq rec x x ≠ Ret false.
Proof using Hrec.
  destruct x as [|b|z|s|l|a|l]; simpl.
  - discriminate.
  - destruct b; discriminate.
  - rewrite Z.eqb_refl. discriminate.
  - rewrite bool_decide_eq_true_2 by reflexivity. discriminate.
  - rewrite bool_decide_eq_true_2 by reflexivity. discriminate.
  - apply Hrec.
  - rewrite bool_decide_eq_true_2 by reflexivity.
    rewrite list_eq_from_refl. discriminate.
Qed.

Lemma attr_eq_refl (f : string) (a : id) : attr_eq h rec f a a ≠ Ret false.
Proof using Hrec.
  unfold attr_eq. destruct (getattr h a f) as [x| |]; simpl;
    [apply py_eq_refl|discriminate..].
Qed.

Lemma AbstractTAG_eq_refl (a : id) : AbstractTAG_eq h rec a a ≠ Ret false.
Proof using Hrec.
  unfold AbstractTAG_eq, Named_eq.
  destruct (getattr h a "parsed") as [pa| |]; simpl; try discriminate.
  destruct (truthy pa); simpl; [apply attr_eq_refl|discriminate].
Qed.

Lemma compare_pairs_refl (f : id → id → res bool) (l : list id) :
  (∀ a, f a a ≠ Ret false) → compare_pairs f l l ≠ Ret false.
Proof.
  intros Hf. induction l as [|a l IH]; simpl; [discriminate|].
  specialize (Hf a). destruct (f a a) as [[]| |]; simpl; congruence.
Qed.

(** One step towards [... ≠ Ret false] for the [__eq__] of a class. *)
Ltac refl_step :=
  first
    [ apply attr_eq_refl | apply AbstractTAG_eq_refl | apply py_eq_refl
    | apply and_then_not_false
    | apply all_of_not_false; repeat constructor
    | apply bind_not_false; intros ?
    | discriminate ].

Lemma type_name_eq_refl (a : id) :
  (ta ← getattr h a "type";
   match ta with
   | PRef ta =>
       na ← getattr h ta "name";
       tb ← getattr h a "type";
       match tb with
       | PRef tb => nb ← getattr h tb "name"; py_eq rec na nb
       | _ => Raise (AttributeError "name")
       end
   | _ => Raise (AttributeError "name")
   end) ≠ Ret false.
Proof using Hrec.
  destruct (getattr h a "type") as [[| | | | |t|]| |] eqn:Et; simpl;
    try discriminate.
  destruct (getattr h t "name") as [na| |] eqn:En; simpl; try discriminate.
  apply py_eq_refl.
Qed.

Lemma is_similar_refl (a : id) : is_similar h rec a a ≠ Ret false.
Proof using Hrec.
  unfold is_similar. repeat first [apply type_name_eq_refl | refl_step].
Qed.

Lemma member_is_similar_refl (a : id) :
  member_is_similar h rec a a ≠ Ret false.
Proof using Hrec.
  unfold member_is_similar. refl_step.
  destruct (decide (a0 = Member)); [apply is_similar_refl|discriminate].
Qed.

Lemma _compare_members_refl (a : id) : _compare_members h rec a a ≠ Ret false.
Proof using Hrec.
  unfold _compare_members.
  destruct (getattr h a "members") as [m| |]; simpl; try discriminate.
  destruct (as_tags m) as [l| |]; simpl; try discriminate.
  rewrite bool_decide_eq_true_2 by reflexivity.
  apply compare_pairs_refl, member_is_similar_refl.
Qed.

Lemma count_eq_refl (a : id) :
  (x ← count h a; y ← count h a; py_eq rec x y) ≠ Ret false.
Proof using Hrec.
  destruct (count h a) as [x| |]; simpl; [apply py_eq_refl|discriminate..].
Qed.

Lemma containing_structure_eq_refl (ccs : bool) (a : id) :
  containing_structure_eq h rec ccs a a ≠ Ret false.
Proof using Hrec.
  destruct ccs; simpl; [apply attr_eq_refl|discriminate].
Qed.

Lemma Subrange_eq_refl (ccs : bool) (a : id) :
  Subrange_eq h rec ccs a a ≠ Ret false.
Proof using Hrec.
  unfold Subrange_eq. unfold_eq.
  repeat first
    [ apply count_eq_refl | apply containing_structure_eq_refl | refl_step ].
Qed.

Lemma Member_eq_refl (ccs : bool) (a : id) :
  Member_eq h rec ccs a a ≠ Ret false.
Proof using Hrec.
  unfold Member_eq. unfold_eq.
  repeat first [apply containing_structure_eq_refl | refl_step].
Qed.

Lemma dimension_eq_refl (d : id) : dimension_eq h rec d d ≠ Ret false.
Proof using Hrec.
  unfold dimension_eq.
  destruct (class_of h d) as [c| |]; simpl; try discriminate.
  destruct c; try discriminate.
  - destruct (decide (Member = Member)); [apply Member_eq_refl|discriminate].
  - destruct (decide (Subrange = Subrange));
      [apply Subrange_eq_refl|discriminate].
Qed.

Lemma _compare_dimensions_refl (a : id) :
  _compare_dimensions h rec a a ≠ Ret false.
Proof using Hrec.
  unfold _compare_dimensions.
  destruct (getattr h a "dimensions") as [m| |]; simpl; try discriminate.
  destruct (as_tags m) as [l| |]; simpl; try discriminate.
  rewrite bool_decide_eq_true_2 by reflexivity.
  apply compare_pairs_refl, dimension_eq_refl.
Qed.

Lemma eq_method_refl (c : cls) (a : id) : eq_method h rec c a a ≠ Ret false.
Proof using Hrec.
  destruct c; cbn [eq_method];
    first [apply Subrange_eq_refl | apply Member_eq_refl | idtac];
    unfold_eq;
    repeat first
      [ apply _compare_members_refl | apply _compare_dimensions_refl
      | apply containing_structure_eq_refl | refl_step ].
Qed.

Lemma tag_eq_body_refl (a : id) : tag_eq_body h rec a a ≠ Ret false.
Proof using Hrec.
  unfold tag_eq_body.
  destruct (class_of h a) as [c| |]; simpl; try discriminate.
  destruct (decide (c = c)); [apply eq_method_refl|contradiction].
Qed.
End EqRefl.

(** X19.  [a == a] for a TAG [a] is never [False]: on every store and with
    every budget the comparison of a TAG with itself returns [True],
    raises, or does not end. *)
Theorem tag_eq_refl (fuel : nat) (h : heap) (a : id) :
  tag_eq fuel h a a ≠ Ret false.
Proof.
  revert a. induction fuel as [|n IH]; intros a; simpl; [discriminate|].
  apply tag_eq_body_refl. exact IH.
Qed.
